(** * API key validator and generic API tester (ZadniProjekt)

    A shallow embedding of [ZadniProjekt/main.py] (the key validator) and
    [ZadniProjekt/temp.py] (the generic tester), together with the parts of
    the Python standard library and of [requests] the two programs call.

    - A Python [str] is a list of Unicode code points.
    - The network is an oracle answering each GET; every call is recorded in
      a log, so that "no request was issued" is a statement about the log.
    - Exceptions are values; [try]/[except] dispatches on the class of the
      exception in the order the source lists its handlers.  On a body
      that is no JSON, [response.json()] of [requests] (2.27 and later)
      raises [requests.exceptions.JSONDecodeError], which is a
      [json.JSONDecodeError] and a [RequestException] at once
      ([Requests.json_decode_error]); the oracle may raise any other
      exception there as well.
    - [urllib.parse], [json.dumps] and the UTF-8 codec follow CPython 3.11.
      Two of their checks are parameters: the tables behind [str.lower]
      outside ASCII, and the checks of a network location that need the
      IP-address and Unicode-normalisation tables. *)

From Stdlib Require Import ZArith NArith List String Ascii Bool Lia DecimalString.
From Stdlib Require DecimalFacts DecimalPos DecimalZ.
Import ListNotations.

Set Warnings "-register-all".

Ltac Zify.zify_post_hook ::= Z.to_euclidean_division_equations.

(* ================================================================== *)
(** * Python strings *)
(* ================================================================== *)

Module PyStr.

Open Scope N_scope.

(** A [str] is a sequence of code points; well-formed ones are below
    [0x110000]. *)
Definition str := list N.

(** String literals of the source, written as Rocq strings. *)
Fixpoint py (s : string) : str :=
  match s with
  | EmptyString => []
  | String a r => N_of_ascii a :: py r
  end.

Arguments py : simpl never.

Definition str_eqb (a b : str) : bool :=
  if list_eq_dec N.eq_dec a b then true else false.

(** Truth value of a string: [if s], [not s]. *)
Definition nonempty (s : str) : bool :=
  match s with [] => false | _ :: _ => true end.

(** [s.startswith(p)] *)
Fixpoint startswith (p s : str) : bool :=
  match p, s with
  | [], _ => true
  | _ :: _, [] => false
  | a :: p', b :: s' => (a =? b) && startswith p' s'
  end.

(** [needle in hay] *)
Fixpoint py_in (needle hay : str) : bool :=
  startswith needle hay ||
  match hay with
  | [] => false
  | _ :: hay' => py_in needle hay'
  end.

(** [c in s] for a single character. *)
Definition has (c : N) (s : str) : bool := existsb (N.eqb c) s.

(** [s[:n]] and [s[n:]] for [n >= 0] *)
Definition slice_to (n : nat) (s : str) : str := firstn n s.
Definition slice_from (n : nat) (s : str) : str := skipn n s.

(** [s.replace(a, b)] for single characters [a], [b]. *)
Definition replace (a b : N) (s : str) : str :=
  map (fun c => if c =? a then b else c) s.

(** [s.replace(a, '')] *)
Definition remove_char (a : N) (s : str) : str :=
  filter (fun c => negb (c =? a)) s.

(** [s.lstrip(chars)] *)
Fixpoint lstrip (chars : str) (s : str) : str :=
  match s with
  | [] => []
  | c :: r => if has c chars then lstrip chars r else s
  end.

(** [s.partition(sep)] for a single character: [None] when [sep] does not
    occur, otherwise the text before and after its first occurrence. *)
Fixpoint partition (sep : N) (s : str) : option (str * str) :=
  match s with
  | [] => None
  | c :: r =>
      if c =? sep then Some ([], r)
      else match partition sep r with
           | Some (a, b) => Some (c :: a, b)
           | None => None
           end
  end.

(** [s.split(sep)] for a single character. *)
Fixpoint split (sep : N) (s : str) : list str :=
  match s with
  | [] => [[]]
  | c :: r =>
      if c =? sep then [] :: split sep r
      else match split sep r with
           | [] => [[c]]
           | w :: ws => (c :: w) :: ws
           end
  end.

(** [sep.join(parts)] *)
Fixpoint join (sep : str) (parts : list str) : str :=
  match parts with
  | [] => []
  | [p] => p
  | p :: ps => p ++ sep ++ join sep ps
  end.

(** ASCII letters and digits. *)
Definition is_upper (c : N) : bool := (65 <=? c) && (c <=? 90).
Definition is_lower (c : N) : bool := (97 <=? c) && (c <=? 122).
Definition is_digit (c : N) : bool := (48 <=? c) && (c <=? 57).
Definition is_ascii (c : N) : bool := c <? 128.
Definition is_ascii_alpha (c : N) : bool := is_upper c || is_lower c.

Definition ascii_lower (c : N) : N := if is_upper c then c + 32 else c.

(** [str.lower()].  On ASCII code points it is the familiar map.  What it
    does to a code point outside ASCII is given by the Unicode tables (and,
    for the final sigma, by the surrounding text): that is the parameter
    [unicode_lower before after c]. *)
Section Lower.
Variable unicode_lower : str -> str -> N -> str.

Fixpoint lower_from (before s : str) : str :=
  match s with
  | [] => []
  | c :: r =>
      (if is_ascii c then [ascii_lower c] else unicode_lower before r c)
        ++ lower_from (before ++ [c]) r
  end.

Definition lower (s : str) : str := lower_from [] s.
End Lower.

(** The code points for which [str.isspace()] holds; [str.strip()] removes
    them from both ends. *)
Definition is_space (c : N) : bool :=
  ((0x09 <=? c) && (c <=? 0x0D)) || ((0x1C <=? c) && (c <=? 0x20))
  || (c =? 0x85) || (c =? 0xA0) || (c =? 0x1680)
  || ((0x2000 <=? c) && (c <=? 0x200A))
  || (c =? 0x2028) || (c =? 0x2029) || (c =? 0x202F) || (c =? 0x205F)
  || (c =? 0x3000).

Fixpoint lstrip_space (s : str) : str :=
  match s with
  | [] => []
  | c :: r => if is_space c then lstrip_space r else s
  end.

Definition strip (s : str) : str :=
  rev (lstrip_space (rev (lstrip_space s))).

(** Decimal text of an integer, as [str(n)] and [{n}] in an f-string. *)
Definition of_Z (z : Z) : str := py (NilZero.string_of_int (Z.to_int z)).
Definition of_nat (n : nat) : str := of_Z (Z.of_nat n).

(** Hexadecimal digits, for [%02X], [{:04x}]. *)
Definition hex_digit (upper : bool) (d : N) : N :=
  if d <? 10 then 48 + d else (if upper then 55 else 87) + d.

Definition hex2 (upper : bool) (n : N) : str :=
  [hex_digit upper (n / 16 mod 16); hex_digit upper (n mod 16)].

Definition hex4 (upper : bool) (n : N) : str :=
  [hex_digit upper (n / 4096 mod 16); hex_digit upper (n / 256 mod 16);
   hex_digit upper (n / 16 mod 16); hex_digit upper (n mod 16)].

End PyStr.

(* ================================================================== *)
(** * Exceptions *)
(* ================================================================== *)

Module PyExc.
Import PyStr.

(** The exception classes the two programs and their libraries name.  Only
    classes derived from [Exception] are modelled. *)
Inductive pyclass :=
| Exception
| RequestException      (* requests.exceptions.RequestException *)
| HTTPError             (* requests.exceptions.HTTPError *)
| JSONDecodeError       (* json.JSONDecodeError *)
| ValueError
| AttributeError
| UnicodeEncodeError.

Definition pyclass_eqb (a b : pyclass) : bool :=
  match a, b with
  | Exception, Exception | RequestException, RequestException
  | HTTPError, HTTPError | JSONDecodeError, JSONDecodeError
  | ValueError, ValueError | AttributeError, AttributeError
  | UnicodeEncodeError, UnicodeEncodeError => true
  | _, _ => false
  end.

(** An exception object: the classes it is an instance of (besides
    [Exception]) and its text, [str(e)]. *)
Record exn := mkExn { exn_classes : list pyclass; exn_str : str }.

Definition isinstance (e : exn) (c : pyclass) : bool :=
  match c with
  | Exception => true
  | _ => existsb (pyclass_eqb c) (exn_classes e)
  end.

(** A computation that returns or raises. *)
Definition result (A : Type) : Type := (A + exn)%type.

Definition ok {A} (a : A) : result A := inl a.
Definition raise {A} (e : exn) : result A := inr e.

Definition rbind {A B} (m : result A) (k : A -> result B) : result B :=
  match m with
  | inl a => k a
  | inr e => inr e
  end.

End PyExc.

(* ================================================================== *)
(** * The UTF-8 codec *)
(* ================================================================== *)

Module Utf8.
Import PyStr PyExc.
Open Scope N_scope.

Definition is_surrogate (c : N) : bool := (0xD800 <=? c) && (c <=? 0xDFFF).

(** The bytes of one code point that is not a surrogate. *)
Definition encode_cp (c : N) : list N :=
  if c <? 0x80 then [c]
  else if c <? 0x800 then [0xC0 + c / 64; 0x80 + c mod 64]
  else if c <? 0x10000 then
    [0xE0 + c / 4096; 0x80 + c / 64 mod 64; 0x80 + c mod 64]
  else
    [0xF0 + c / 262144; 0x80 + c / 4096 mod 64; 0x80 + c / 64 mod 64;
     0x80 + c mod 64].

(** Length of the run of surrogates at the head of [s]. *)
Fixpoint surrogate_run (s : str) : nat :=
  match s with
  | c :: r => if is_surrogate c then S (surrogate_run r) else O
  | [] => O
  end.

(** The text of the [UnicodeEncodeError] for the surrogates at positions
    [i .. i + n - 1], the first of them being [c]. *)
Definition encode_error (c : N) (i n : nat) : exn :=
  mkExn [UnicodeEncodeError; ValueError]
    (if Nat.eqb n 1 then
       py "'utf-8' codec can't encode character '\u" ++ hex4 false c
         ++ py "' in position " ++ of_nat i ++ py ": surrogates not allowed"
     else
       py "'utf-8' codec can't encode characters in position " ++ of_nat i
         ++ py "-" ++ of_nat (i + n - 1) ++ py ": surrogates not allowed").

(** [s.encode('utf-8', 'strict')], from position [i] on. *)
Fixpoint encode_from (i : nat) (s : str) : result (list N) :=
  match s with
  | [] => ok []
  | c :: r =>
      if is_surrogate c then raise (encode_error c i (surrogate_run s))
      else rbind (encode_from (S i) r) (fun bs => ok (encode_cp c ++ bs))
  end.

Definition encode (s : str) : result (list N) := encode_from 0 s.

Definition is_cont (b : N) : bool := (0x80 <=? b) && (b <=? 0xBF).

(** Whether [b1] may follow the lead byte [b0] of a three- or four-byte
    sequence: a continuation byte that makes the sequence neither overlong,
    nor a surrogate, nor larger than [0x10FFFF]. *)
Definition second_ok (b0 b1 : N) : bool :=
  is_cont b1
  && negb ((b0 =? 0xE0) && (b1 <? 0xA0))
  && negb ((b0 =? 0xED) && (0xA0 <=? b1))
  && negb ((b0 =? 0xF0) && (b1 <? 0x90))
  && negb ((b0 =? 0xF4) && (0x90 <=? b1)).

Definition replacement : N := 0xFFFD.

(** [bs.decode('utf-8', 'replace')]: every maximal ill-formed prefix of a
    sequence becomes one U+FFFD and decoding resumes at the offending
    byte. *)
Fixpoint decode (bs : list N) : str :=
  match bs with
  | [] => []
  | b0 :: r0 =>
      if b0 <? 0x80 then b0 :: decode r0
      else if b0 <? 0xC2 then replacement :: decode r0
      else if b0 <? 0xE0 then
        match r0 with
        | [] => [replacement]
        | b1 :: r1 =>
            if is_cont b1
            then ((b0 - 0xC0) * 64 + (b1 - 0x80)) :: decode r1
            else replacement :: decode r0
        end
      else if b0 <? 0xF0 then
        match r0 with
        | [] => [replacement]
        | b1 :: r1 =>
            if second_ok b0 b1 then
              match r1 with
              | [] => [replacement]
              | b2 :: r2 =>
                  if is_cont b2
                  then ((b0 - 0xE0) * 4096 + (b1 - 0x80) * 64 + (b2 - 0x80))
                         :: decode r2
                  else replacement :: decode r1
              end
            else replacement :: decode r0
        end
      else if b0 <? 0xF5 then
        match r0 with
        | [] => [replacement]
        | b1 :: r1 =>
            if second_ok b0 b1 then
              match r1 with
              | [] => [replacement]
              | b2 :: r2 =>
                  if is_cont b2 then
                    match r2 with
                    | [] => [replacement]
                    | b3 :: r3 =>
                        if is_cont b3
                        then ((b0 - 0xF0) * 262144 + (b1 - 0x80) * 4096
                              + (b2 - 0x80) * 64 + (b3 - 0x80)) :: decode r3
                        else replacement :: decode r2
                    end
                  else replacement :: decode r1
              end
            else replacement :: decode r0
        end
      else replacement :: decode r0
  end.

End Utf8.

(* ================================================================== *)
(** * urllib.parse *)
(* ================================================================== *)

Module Urllib.
Import PyStr PyExc.
Open Scope N_scope.

(** A [dict] with string keys, in insertion order; keys are unique. *)
Definition dict (V : Type) : Type := list (str * V).

Fixpoint dict_get {V} (d : dict V) (k : str) : option V :=
  match d with
  | [] => None
  | (k', v) :: r => if str_eqb k' k then Some v else dict_get r k
  end.

Definition dict_contains {V} (d : dict V) (k : str) : bool :=
  match dict_get d k with Some _ => true | None => false end.

(** [d[k] = v]: an existing key keeps its place, a new one goes last. *)
Fixpoint dict_set {V} (d : dict V) (k : str) (v : V) : dict V :=
  match d with
  | [] => [(k, v)]
  | (k', v') :: r =>
      if str_eqb k' k then (k', v) :: r else (k', v') :: dict_set r k v
  end.

Definition dict_keys {V} (d : dict V) : list str := map fst d.

(** ** Quoting *)

(** [_ALWAYS_SAFE]: letters, digits and [_.-~]. *)
Definition always_safe (b : N) : bool :=
  is_upper b || is_lower b || is_digit b
  || (b =? 95) || (b =? 46) || (b =? 45) || (b =? 126).

Definition is_safe (safe : str) (b : N) : bool :=
  always_safe b || (is_ascii b && has b safe).

(** One byte, as itself when safe and as [%XX] otherwise. *)
Definition quoter (safe : str) (b : N) : str :=
  if is_safe safe b then [b] else 37 :: hex2 true b.

(** [quote_from_bytes(bs, safe)] *)
Definition quote_from_bytes (bs : list N) (safe : str) : str :=
  match bs with
  | [] => []
  | _ =>
      if forallb (is_safe safe) bs then bs
      else flat_map (quoter safe) bs
  end.

(** [quote(string, safe)] for a [str] argument: encoding [utf-8], errors
    [strict]. *)
Definition quote (s : str) (safe : str) : result str :=
  match s with
  | [] => ok s
  | _ => rbind (Utf8.encode s) (fun bs => ok (quote_from_bytes bs safe))
  end.

(** [quote_plus(string, safe)] *)
Definition quote_plus (s : str) (safe : str) : result str :=
  if negb (has 32 s) then quote s safe
  else rbind (quote s (safe ++ [32])) (fun q => ok (replace 32 43 q)).

(** The value of a hexadecimal digit, either case. *)
Definition hex_value (c : N) : option N :=
  if is_digit c then Some (c - 48)
  else if (65 <=? c) && (c <=? 70) then Some (c - 55)
  else if (97 <=? c) && (c <=? 102) then Some (c - 87)
  else None.

(** [unquote_to_bytes] on ASCII text: [%XX] becomes the byte, a [%] not
    followed by two hexadecimal digits stays. *)
Fixpoint unquote_to_bytes (s : list N) : list N :=
  match s with
  | [] => []
  | c :: t =>
      if c =? 37 then
        match t with
        | h1 :: h2 :: rest =>
            match hex_value h1, hex_value h2 with
            | Some a, Some b => (a * 16 + b) :: unquote_to_bytes rest
            | _, _ => c :: unquote_to_bytes t
            end
        | _ => c :: unquote_to_bytes t
        end
      else c :: unquote_to_bytes t
  end.

(** The maximal runs of ASCII and of non-ASCII code points of a string,
    each tagged with whether it is ASCII. *)
Fixpoint runs (s : str) : list (bool * str) :=
  match s with
  | [] => []
  | c :: r =>
      match runs r with
      | (b, w) :: gs =>
          if Bool.eqb b (is_ascii c) then (b, c :: w) :: gs
          else (is_ascii c, [c]) :: (b, w) :: gs
      | [] => [(is_ascii c, [c])]
      end
  end.

(** [unquote(string)]: encoding [utf-8], errors [replace].  The ASCII runs
    are unquoted to bytes and decoded, the others are kept. *)
Definition unquote (s : str) : str :=
  if negb (has 37 s) then s
  else
    List.concat
           (map (fun bw : bool * str =>
                   if fst bw then Utf8.decode (unquote_to_bytes (snd bw))
                   else snd bw)
                (runs s)).

(** ** Query strings *)

(** One field of a query string, in the loop of [parse_qsl]: a field
    without [=] or with a blank value is dropped. *)
Definition parse_field (name_value : str) : list (str * str) :=
  match name_value with
  | [] => []
  | _ =>
      match partition 61 name_value with
      | None => []
      | Some (n, v) =>
          if nonempty v
          then [(unquote (replace 43 32 n), unquote (replace 43 32 v))]
          else []
      end
  end.

(** [parse_qsl(qs)]: fields are separated by [&]. *)
Definition parse_qsl (qs : str) : list (str * str) :=
  flat_map parse_field (split 38 qs).

(** One step of the loop of [parse_qs]. *)
Definition parse_qs_add (parsed_result : dict (list str)) (nv : str * str)
  : dict (list str) :=
  let (name, value) := nv in
  match dict_get parsed_result name with
  | Some vs => dict_set parsed_result name (vs ++ [value])
  | None => dict_set parsed_result name [value]
  end.

(** [parse_qs(qs)] *)
Definition parse_qs (qs : str) : dict (list str) :=
  fold_left parse_qs_add (parse_qsl qs) [].

(** The [k=v] strings of one entry of the mapping. *)
Fixpoint urlencode_values (k : str) (vs : list str) : result (list str) :=
  match vs with
  | [] => ok []
  | elt :: r =>
      rbind (quote_plus elt []) (fun e =>
      rbind (urlencode_values k r) (fun l =>
      ok ((k ++ py "=" ++ e) :: l)))
  end.

Fixpoint urlencode_items (query : dict (list str)) : result (list str) :=
  match query with
  | [] => ok []
  | (k, v) :: r =>
      rbind (quote_plus k []) (fun k' =>
      rbind (urlencode_values k' v) (fun l =>
      rbind (urlencode_items r) (fun l' =>
      ok (l ++ l'))))
  end.

(** [urlencode(query, doseq=True)] for a mapping from names to lists of
    strings. *)
Definition urlencode (query : dict (list str)) : result str :=
  rbind (urlencode_items query) (fun l => ok (join (py "&") l)).

(** ** Splitting and joining URLs *)

Record SplitResult := mkSplit {
  s_scheme : str; s_netloc : str; s_path : str; s_query : str;
  s_fragment : str }.

Record ParseResult := mkParse {
  scheme : str; netloc : str; path : str; params : str; query : str;
  fragment : str }.

(** [parsed._replace(query=q)] *)
Definition replace_query (r : ParseResult) (q : str) : ParseResult :=
  mkParse (scheme r) (netloc r) (path r) (params r) q (fragment r).

Definition uses_netloc : list str :=
  map py [EmptyString; "ftp"; "http"; "gopher"; "nntp"; "telnet"; "imap"; "wais";
          "file"; "mms"; "https"; "shttp"; "snews"; "prospero"; "rtsp";
          "rtspu"; "rsync"; "svn"; "svn+ssh"; "sftp"; "nfs"; "git";
          "git+ssh"; "ws"; "wss"]%string.

Definition uses_params : list str :=
  map py [EmptyString; "ftp"; "hdl"; "prospero"; "http"; "imap"; "https"; "shttp";
          "rtsp"; "rtspu"; "sip"; "sips"; "mms"; "sftp"; "tel"]%string.

Definition str_in_list (s : str) (l : list str) : bool :=
  existsb (str_eqb s) l.

(** [scheme_chars]: letters, digits and [+-.]. *)
Definition scheme_char (c : N) : bool :=
  is_upper c || is_lower c || is_digit c
  || (c =? 43) || (c =? 45) || (c =? 46).

(** [_WHATWG_C0_CONTROL_OR_SPACE] *)
Definition c0_control_or_space (c : N) : bool := c <=? 32.

Fixpoint lstrip_c0 (s : str) : str :=
  match s with
  | [] => []
  | c :: r => if c0_control_or_space c then lstrip_c0 r else s
  end.

(** Tab, carriage return and newline are removed from the whole URL. *)
Definition remove_unsafe (s : str) : str :=
  remove_char 10 (remove_char 13 (remove_char 9 s)).

(** The scheme and the rest, when the text before the first [:] is a
    scheme. *)
Definition split_scheme (url : str) : str * str :=
  match partition 58 url with
  | Some (c :: p, rest) =>
      if is_ascii_alpha c && forallb scheme_char (c :: p)
      then (map ascii_lower (c :: p), rest)
      else ([], url)
  | _ => ([], url)
  end.

(** The text up to the first of [/?#], and the rest. *)
Fixpoint span_netloc (s : str) : str * str :=
  match s with
  | [] => ([], [])
  | c :: r =>
      if (c =? 47) || (c =? 63) || (c =? 35) then ([], s)
      else let (a, b) := span_netloc r in (c :: a, b)
  end.

(** [_splitnetloc(url, 2)] when [url] starts with [//]. *)
Definition split_netloc (url : str) : str * str :=
  match url with
  | c1 :: c2 :: r =>
      if (c1 =? 47) && (c2 =? 47) then span_netloc r else ([], url)
  | _ => ([], url)
  end.

(** [urlsplit] without its checks of the network location. *)
Definition urlsplit_parts (url0 : str) : SplitResult :=
  let url := remove_unsafe (lstrip_c0 url0) in
  let (sch, url) := split_scheme url in
  let (net, url) := split_netloc url in
  let (url, frag) :=
    match partition 35 url with
    | Some (a, b) => (a, b)
    | None => (url, [])
    end in
  let (url, qry) :=
    match partition 63 url with
    | Some (a, b) => (a, b)
    | None => (url, [])
    end in
  mkSplit sch net url qry frag.

Section Split.
(** The checks of a network location that need the IP-address and
    Unicode-normalisation tables: [None] when it is accepted, the text of
    the [ValueError] otherwise. *)
Variable check_netloc : str -> option str.

Definition value_error (msg : str) : exn := mkExn [ValueError] msg.

(** [urlsplit(url)] *)
Definition urlsplit (url : str) : result SplitResult :=
  let r := urlsplit_parts url in
  let n := s_netloc r in
  if (has 91 n && negb (has 93 n)) || (has 93 n && negb (has 91 n))
  then raise (value_error (py "Invalid IPv6 URL"))
  else match check_netloc n with
       | Some msg => raise (value_error msg)
       | None => ok r
       end.

(** The path up to its last [/], and the last segment from that [/]
    on (the whole path when it has no [/]). *)
Fixpoint rsplit_slash (url : str) : str * str :=
  match url with
  | [] => ([], [])
  | c :: r =>
      if has 47 r then let (a, b) := rsplit_slash r in (c :: a, b)
      else ([], url)
  end.

(** [_splitparams(url)] *)
Definition splitparams (url : str) : str * str :=
  let (head, seg) := rsplit_slash url in
  match partition 59 seg with
  | Some (a, b) => (head ++ a, b)
  | None => (url, [])
  end.

(** [urlparse(url)] *)
Definition urlparse (url : str) : result ParseResult :=
  rbind (urlsplit url) (fun r =>
  let (url', prm) :=
    if str_in_list (s_scheme r) uses_params && has 59 (s_path r)
    then splitparams (s_path r)
    else (s_path r, []) in
  ok (mkParse (s_scheme r) (s_netloc r) url' prm (s_query r)
        (s_fragment r))).
End Split.

(** [urlunsplit((scheme, netloc, url, query, fragment))] *)
Definition urlunsplit (r : SplitResult) : str :=
  let url := s_path r in
  let url :=
    if nonempty (s_netloc r)
       || (nonempty (s_scheme r) && str_in_list (s_scheme r) uses_netloc
           && negb (startswith (py "//") url))
    then
      let url :=
        if nonempty url && negb (startswith (py "/") url)
        then py "/" ++ url else url in
      py "//" ++ s_netloc r ++ url
    else url in
  let url := if nonempty (s_scheme r) then s_scheme r ++ py ":" ++ url
             else url in
  let url := if nonempty (s_query r) then url ++ py "?" ++ s_query r
             else url in
  let url := if nonempty (s_fragment r) then url ++ py "#" ++ s_fragment r
             else url in
  url.

(** [urlunparse((scheme, netloc, url, params, query, fragment))] *)
Definition urlunparse (r : ParseResult) : str :=
  let url := if nonempty (params r) then path r ++ py ";" ++ params r
             else path r in
  urlunsplit (mkSplit (scheme r) (netloc r) url (query r) (fragment r)).

End Urllib.

(* ================================================================== *)
(** * json *)
(* ================================================================== *)

Module Json.
Import PyStr PyExc.
Open Scope N_scope.

(** The values [json.loads] builds.  A float is kept as the text
    [json.dumps] writes for it ([float.__repr__], or [NaN], [Infinity],
    [-Infinity]); an object is a [dict] in insertion order. *)
Inductive json :=
| JNull
| JBool (b : bool)
| JInt (z : Z)
| JFloat (text : str)
| JStr (s : str)
| JList (l : list json)
| JDict (d : list (str * json)).

(** [type(v).__name__] *)
Definition type_name (v : json) : str :=
  match v with
  | JNull => py "NoneType"
  | JBool _ => py "bool"
  | JInt _ => py "int"
  | JFloat _ => py "float"
  | JStr _ => py "str"
  | JList _ => py "list"
  | JDict _ => py "dict"
  end.

Definition attribute_error (v : json) (attr : str) : exn :=
  mkExn [AttributeError]
    (py "'" ++ type_name v ++ py "' object has no attribute '" ++ attr
       ++ py "'").

(** [ESCAPE_ASCII]: one character of a string literal, with
    [ensure_ascii]. *)
Definition escape_char (c : N) : str :=
  if c =? 92 then [92; 92]
  else if c =? 34 then [92; 34]
  else if c =? 8 then py "\b"
  else if c =? 12 then py "\f"
  else if c =? 10 then py "\n"
  else if c =? 13 then py "\r"
  else if c =? 9 then py "\t"
  else if (32 <=? c) && (c <=? 126) then [c]
  else if c <? 0x10000 then py "\u" ++ hex4 false c
  else
    let n := c - 0x10000 in
    let s1 := N.lor 0xD800 (N.land (N.shiftr n 10) 0x3FF) in
    let s2 := N.lor 0xDC00 (N.land n 0x3FF) in
    py "\u" ++ hex4 false s1 ++ py "\u" ++ hex4 false s2.

(** [encode_basestring_ascii(s)] *)
Definition encode_basestring_ascii (s : str) : str :=
  [34] ++ flat_map escape_char s ++ [34].

(** A newline followed by [indent * level] spaces. *)
Definition newline_indent (indent level : nat) : str :=
  10 :: repeat 32 (indent * level).

(** [json.dumps(v, indent=indent)], at nesting depth [level]: the item
    separator is [","] and the key separator [": "]. *)
Fixpoint iterencode (indent level : nat) (v : json) : str :=
  match v with
  | JNull => py "null"
  | JBool true => py "true"
  | JBool false => py "false"
  | JInt z => of_Z z
  | JFloat t => t
  | JStr s => encode_basestring_ascii s
  | JList [] => py "[]"
  | JList l =>
      py "[" ++ newline_indent indent (S level)
        ++ join (py "," ++ newline_indent indent (S level))
             (map (iterencode indent (S level)) l)
        ++ newline_indent indent level ++ py "]"
  | JDict [] => py "{}"
  | JDict d =>
      py "{" ++ newline_indent indent (S level)
        ++ join (py "," ++ newline_indent indent (S level))
             (map (fun kv : str * json =>
                     let (k, x) := kv in
                     encode_basestring_ascii k ++ py ": "
                       ++ iterencode indent (S level) x) d)
        ++ newline_indent indent level ++ py "}"
  end.

Definition dumps (v : json) (indent : nat) : str := iterencode indent 0 v.

(** [d.get(key, default)] for a decoded JSON value: only a [dict] has the
    method. *)
Definition get (v : json) (key : str) (default : json) : result json :=
  match v with
  | JDict d =>
      match Urllib.dict_get d key with
      | Some x => ok x
      | None => ok default
      end
  | _ => raise (attribute_error v (py "get"))
  end.

End Json.

(* ================================================================== *)
(** * requests *)
(* ================================================================== *)

Module Requests.
Import PyStr PyExc.

(** A response: what the two programs read of it.  [json] is what calling
    [response.json()] does: return the decoded body or raise. *)
Record Response := mkResponse {
  status_code : Z;
  reason : str;
  url : str;
  text : str;
  json : result Json.json }.

(** The arguments of one [requests.get]. *)
Record Request := mkRequest {
  req_url : str; req_timeout : Z; req_verify : bool }.

(** What [requests.get] does: return a response, or raise.  It decodes no
    JSON, so what it raises is a [RequestException] (connection error,
    timeout, invalid URL, ...) or some other exception, never a
    [json.JSONDecodeError]. *)
Inductive get_outcome :=
| Returned (r : Response)
| Raised (is_request_exception : bool) (msg : str).

Definition network := Request -> get_outcome.

Definition raised_exn (is_request_exception : bool) (msg : str) : exn :=
  mkExn (if is_request_exception then [RequestException] else []) msg.

(** What [response.json()] raises on a body that is no JSON, with
    [requests] 2.27 and later: a [requests.exceptions.JSONDecodeError].
    That class derives from [InvalidJSONError], a [RequestException], and
    from [json.JSONDecodeError], a [ValueError]; its text is the text of
    the [json.JSONDecodeError]. *)
Definition json_decode_error (msg : str) : exn :=
  mkExn [JSONDecodeError; RequestException; ValueError] msg.

(** The state a call runs in: the log of the requests issued so far and
    the local variable [response], unbound until it is assigned. *)
Record frame := mkFrame {
  net_log : list Request;
  local_response : option Response }.

(** A computation over a state [S] that returns or raises. *)
Definition M (S A : Type) : Type := S -> result A * S.

Definition ret {S A} (a : A) : M S A := fun st => (inl a, st).
Definition throw {S A} (e : exn) : M S A := fun st => (inr e, st).
Definition bind {S A B} (m : M S A) (k : A -> M S B) : M S B :=
  fun st =>
    match m st with
    | (inl a, st') => k a st'
    | (inr e, st') => (inr e, st')
    end.
Definition lift {S A} (r : result A) : M S A := fun st => (r, st).

(** [try: body except C1 as e: h1 ... except Cn as e: hn]: the first
    handler whose class the exception is an instance of runs. *)
Definition try_except {S A} (body : M S A)
    (handlers : list (pyclass * (exn -> M S A))) : M S A :=
  fun st =>
    match body st with
    | (inl a, st') => (inl a, st')
    | (inr e, st') =>
        match find (fun h => isinstance e (fst h)) handlers with
        | Some h => snd h e st'
        | None => (inr e, st')
        end
    end.

(** [response = requests.get(url, timeout=t, verify=v)] *)
Definition requests_get (net : network) (u : str) (t : Z) (v : bool)
  : M frame Response :=
  fun st =>
    let rq := mkRequest u t v in
    let log := net_log st ++ [rq] in
    match net rq with
    | Returned r => (inl r, mkFrame log (Some r))
    | Raised b msg => (inr (raised_exn b msg), mkFrame log (local_response st))
    end.

(** Reading the local variable [response]. *)
Definition load_response : M frame Response :=
  fun st =>
    match local_response st with
    | Some r => (inl r, st)
    | None =>
        (inr (mkExn []
                (py "cannot access local variable 'response' where it is not associated with a value")),
         st)
    end.

(** [response.raise_for_status()] *)
Definition raise_for_status (r : Response) : result unit :=
  let s := status_code r in
  if ((400 <=? s) && (s <? 500))%Z then
    raise (mkExn [HTTPError; RequestException]
             (of_Z s ++ py " Client Error: " ++ reason r ++ py " for url: "
                ++ url r))
  else if ((500 <=? s) && (s <? 600))%Z then
    raise (mkExn [HTTPError; RequestException]
             (of_Z s ++ py " Server Error: " ++ reason r ++ py " for url: "
                ++ url r))
  else ok tt.

End Requests.

Declare Scope py_scope.
Delimit Scope py_scope with pyM.
Notation "x <- m ;; k" := (Requests.bind m (fun x => k))
  (at level 61, m at next level, right associativity) : py_scope.
Notation "m ;;; k" := (Requests.bind m (fun _ => k))
  (at level 61, right associativity) : py_scope.

(* ================================================================== *)
(** * main.py: the API key validator *)
(* ================================================================== *)

Module Main.
Import PyStr PyExc Requests.
Local Open Scope py_scope.

(** The outcome of both programs: the success flag and the text shown. *)
Definition outcome : Type := bool * str.

Section Validator.
Variable unicode_lower : str -> str -> N -> str.
Variable net : network.

(** [response_data.get('message', '').lower()] *)
Definition message_of (response_data : Json.json) : result str :=
  rbind (Json.get response_data (py "message") (Json.JStr [])) (fun m =>
  match m with
  | Json.JStr s => ok (lower unicode_lower s)
  | _ => raise (Json.attribute_error m (py "lower"))
  end).

(** The [if]/[elif] chain on the message and the status code. *)
Definition classify (message : str) (status : Z) : outcome :=
  if py_in (py "invalid api key") message then
    (false, py "Invalid API Key: OpenWeatherMap service explicitly says key is invalid.")
  else if py_in (py "city not found") message && (status =? 404)%Z then
    (true, py "API Key is valid. (Test city not found as expected).")
  else if (status =? 200)%Z then
    (true, py "API Key is valid. (Unexpected 200 OK for test city, but key seems active).")
  else
    (false, py "API Key validation failed with unexpected response: "
              ++ (if nonempty message then message else py "Unknown error")).

Definition test_url (api_key : str) : str :=
  py "https://api.openweathermap.org/data/2.5/weather?q=NonExistentCity123&appid="
    ++ api_key.

(** [validate_api_key(api_key)]; the argument is [None] or a string. *)
Definition validate_api_key (api_key : option str) : M frame outcome :=
  match api_key with
  | None | Some [] => ret (false, py "API Key cannot be empty.")
  | Some api_key =>
      try_except
        (response <- requests_get net (test_url api_key) 5 false ;;
         lift (raise_for_status response) ;;;
         response_data <- lift (json response) ;;
         message <- lift (message_of response_data) ;;
         ret (classify message (status_code response)))
        [ (RequestException, fun e =>
             ret (false, py "Network or API communication error: "
                           ++ exn_str e
                           ++ py ". Check internet, API key, or try again later."));
          (JSONDecodeError, fun _ =>
             ret (false, py "API returned unreadable data (not valid JSON format)."));
          (Exception, fun e =>
             ret (false, py "An unexpected internal error occurred: "
                           ++ exn_str e)) ]
  end.
End Validator.

(** ** The window *)

Inductive widget_state := NORMAL | DISABLED.

(** The widgets the callbacks touch, and [root.valid_api_key]. *)
Record gui := mkGui {
  api_key_entry : str;
  status_area : str;
  status_area_state : widget_state;
  validate_button : widget_state;
  valid_api_key : option str }.

(** The window as the script leaves it before the event loop starts. *)
Definition initial_gui : gui := mkGui [] [] DISABLED NORMAL None.

Definition set_api_key_entry (s : str) (g : gui) : gui :=
  mkGui s (status_area g) (status_area_state g) (validate_button g)
    (valid_api_key g).

(** [status_area.config(state=s)] *)
Definition status_area_config (s : widget_state) (g : gui) : gui :=
  mkGui (api_key_entry g) (status_area g) s (validate_button g)
    (valid_api_key g).

(** [status_area.delete("1.0", tk.END)]: a disabled text widget ignores
    it. *)
Definition status_area_delete (g : gui) : gui :=
  match status_area_state g with
  | NORMAL =>
      mkGui (api_key_entry g) [] NORMAL (validate_button g) (valid_api_key g)
  | DISABLED => g
  end.

(** [status_area.insert(tk.END, s)] *)
Definition status_area_insert (s : str) (g : gui) : gui :=
  match status_area_state g with
  | NORMAL =>
      mkGui (api_key_entry g) (status_area g ++ s) NORMAL (validate_button g)
        (valid_api_key g)
  | DISABLED => g
  end.

(** [validate_button.config(state=s)] *)
Definition validate_button_config (s : widget_state) (g : gui) : gui :=
  mkGui (api_key_entry g) (status_area g) (status_area_state g) s
    (valid_api_key g).

(** [root.valid_api_key = v] *)
Definition set_valid_api_key (v : option str) (g : gui) : gui :=
  mkGui (api_key_entry g) (status_area g) (status_area_state g)
    (validate_button g) v.

(** The state of the program between two events: the window and the log of
    the requests issued so far. *)
Definition world : Type := gui * list Request.

Definition update (f : gui -> gui) : M world unit :=
  fun w => (inl tt, (f (fst w), snd w)).

Definition read {A} (f : gui -> A) : M world A :=
  fun w => (inl (f (fst w)), w).

(** A call of a function: it runs in a frame of its own. *)
Definition call {A} (f : M frame A) : M world A :=
  fun w =>
    let (r, fr) := f (mkFrame (snd w) None) in
    (r, (fst w, net_log fr)).

Section Callbacks.
Variable unicode_lower : str -> str -> N -> str.

(** [perform_validation()], with the network as it is when the button is
    pressed. *)
Definition perform_validation (net : network) : M world unit :=
  entered_api_key <- read (fun g => strip (api_key_entry g)) ;;
  update (status_area_config NORMAL) ;;;
  update status_area_delete ;;;
  update (status_area_insert (py "Validating API Key..." ++ [10%N])) ;;;
  update (status_area_config DISABLED) ;;;
  update (validate_button_config DISABLED) ;;;
  r <- call (validate_api_key unicode_lower net (Some entered_api_key)) ;;
  (let (is_valid, message) := r : outcome in
   update (status_area_config NORMAL) ;;;
   update status_area_delete ;;;
   (if is_valid then
      update (status_area_insert
                (py "Validation Successful: " ++ message ++ [10%N; 10%N]
                   ++ py "API Key is considered valid for use.")) ;;;
      update (set_valid_api_key (Some entered_api_key))
    else
      update (status_area_insert
                (py "Validation Failed: " ++ message ++ [10%N; 10%N]
                   ++ py "API Key is NOT valid or a connection/certificate error occurred. It will not be used.")) ;;;
      update (set_valid_api_key None)) ;;;
   update (status_area_config DISABLED) ;;;
   update (validate_button_config NORMAL)).

(** [clear_fields()] *)
Definition clear_fields : M world unit :=
  update (set_api_key_entry []) ;;;
  update (status_area_config NORMAL) ;;;
  update status_area_delete ;;;
  update (status_area_config DISABLED) ;;;
  update (set_valid_api_key None).

(** What the user does: edit the entry, press a button. *)
Inductive event :=
| Edit (s : str)
| ClickValidate (net : network)
| ClickClear.

(** The event loop runs the callback of an event; an exception leaving a
    callback is reported and the loop goes on. *)
Definition handle (ev : event) (w : world) : world :=
  match ev with
  | Edit s => (set_api_key_entry s (fst w), snd w)
  | ClickValidate net => snd (perform_validation net w)
  | ClickClear => snd (clear_fields w)
  end.

Definition run (evs : list event) (w : world) : world :=
  fold_left (fun w ev => handle ev w) evs w.

(** Whether an event is a validation that succeeds in the state it
    happens in. *)
Definition validates (ev : event) (w : world) : bool :=
  match ev with
  | ClickValidate net =>
      match fst (call (validate_api_key unicode_lower net
                         (Some (strip (api_key_entry (fst w))))) w) with
      | inl (true, _) => true
      | _ => false
      end
  | _ => false
  end.

(** No event of the list is a successful validation. *)
Fixpoint no_success (evs : list event) (w : world) : bool :=
  match evs with
  | [] => true
  | ev :: r => negb (validates ev w) && no_success r (handle ev w)
  end.
End Callbacks.

End Main.

(* ================================================================== *)
(** * temp.py: the generic API tester *)
(* ================================================================== *)

Module Temp.
Import PyStr PyExc Requests Urllib.
Local Open Scope py_scope.

Definition outcome : Type := bool * str.

Section Tester.
Variable check_netloc : str -> option str.
Variable net : network.

(** The body of the first [try]: the URL with the key as a query
    parameter. *)
Definition url_with_key (base_url api_key key_param_name : str)
  : result str :=
  rbind (urlparse check_netloc base_url) (fun parsed_url =>
  let query_params := parse_qs (query parsed_url) in
  let query_params := dict_set query_params key_param_name [api_key] in
  rbind (urlencode query_params) (fun new_query =>
  ok (urlunparse (replace_query parsed_url new_query)))).

(** The URL builder: [final_url] when the first [try] is left, or the
    failure its handler returns. *)
Definition build_final_url (base_url : str)
    (api_key key_param_name : option str) : str + outcome :=
  match api_key, key_param_name with
  | Some ((_ :: _) as api_key), Some ((_ :: _) as key_param_name) =>
      match url_with_key base_url api_key key_param_name with
      | inl u => inl u
      | inr e =>
          inr (false,
               py "Error constructing URL with API key: " ++ exn_str e
                 ++ py ". Please check Base URL and Key Parameter Name.")
      end
  | _, _ => inl base_url
  end.

Definition network_error_text (e : exn) (final_url : str) : str :=
  py "Network or HTTP error: " ++ exn_str e ++ [10%N]
    ++ py "Attempted URL: " ++ final_url ++ [10%N; 10%N]
    ++ py "**Troubleshooting:**" ++ [10%N]
    ++ py "- Ensure the URL is correct and accessible." ++ [10%N]
    ++ py "- Check your internet connection." ++ [10%N]
    ++ py "- Verify the API key is correct for the API's endpoint and method (e.g., query parameter name)."
    ++ [10%N]
    ++ py "- The API might require authentication via headers (not supported by this simple tool).".

Definition unreadable_text (final_url snippet : str) : str :=
  py "API returned unreadable data (not valid JSON format)." ++ [10%N]
    ++ py "Attempted URL: " ++ final_url ++ [10%N; 10%N]
    ++ py "**Response Content Snippet:**" ++ [10%N]
    ++ snippet ++ py "..." ++ [10%N; 10%N]
    ++ py "**Troubleshooting:**" ++ [10%N]
    ++ py "- This API might not return JSON, or it returned an error page. Try opening the URL in a browser.".

(** [make_api_request(base_url, api_key, key_param_name)]; each argument
    is [None] or a string. *)
Definition make_api_request (base_url api_key key_param_name : option str)
  : M frame outcome :=
  match base_url with
  | None | Some [] => ret (false, py "API URL cannot be empty.")
  | Some base_url =>
      match build_final_url base_url api_key key_param_name with
      | inr failure => ret failure
      | inl final_url =>
          try_except
            (response <- requests_get net final_url 10 false ;;
             lift (raise_for_status response) ;;;
             response_data <- lift (json response) ;;
             ret (true, Json.dumps response_data 2))
            [ (RequestException, fun e =>
                 ret (false, network_error_text e final_url));
              (JSONDecodeError, fun _ =>
                 response <- load_response ;;
                 ret (false,
                      unreadable_text final_url
                        (slice_to 500 (text response))));
              (Exception, fun e =>
                 ret (false, py "An unexpected internal error occurred: "
                               ++ exn_str e)) ]
      end
  end.
End Tester.

(** ** The window *)

(** The widgets the callbacks touch, and the error dialogs
    [messagebox.showerror] has shown so far, each with its title and its
    text. *)
Record gui := mkGui {
  api_url_entry : str;
  api_key_entry : str;
  key_param_name_entry : str;
  output_area : str;
  output_area_state : Main.widget_state;
  request_button : Main.widget_state;
  clear_button : Main.widget_state;
  error_dialogs : list (str * str) }.

(** The window as the script leaves it before the event loop starts: the
    name of the key parameter is preset to "appid". *)
Definition initial_gui : gui :=
  mkGui [] [] (py "appid") [] Main.DISABLED Main.NORMAL Main.NORMAL [].

Definition set_api_url_entry (s : str) (g : gui) : gui :=
  mkGui s (api_key_entry g) (key_param_name_entry g) (output_area g)
    (output_area_state g) (request_button g) (clear_button g)
    (error_dialogs g).

Definition set_api_key_entry (s : str) (g : gui) : gui :=
  mkGui (api_url_entry g) s (key_param_name_entry g) (output_area g)
    (output_area_state g) (request_button g) (clear_button g)
    (error_dialogs g).

Definition set_key_param_name_entry (s : str) (g : gui) : gui :=
  mkGui (api_url_entry g) (api_key_entry g) s (output_area g)
    (output_area_state g) (request_button g) (clear_button g)
    (error_dialogs g).

(** [output_area.config(state=s)] *)
Definition output_area_config (s : Main.widget_state) (g : gui) : gui :=
  mkGui (api_url_entry g) (api_key_entry g) (key_param_name_entry g)
    (output_area g) s (request_button g) (clear_button g) (error_dialogs g).

(** [output_area.delete("1.0", tk.END)]: a disabled text widget ignores
    it. *)
Definition output_area_delete (g : gui) : gui :=
  match output_area_state g with
  | Main.NORMAL =>
      mkGui (api_url_entry g) (api_key_entry g) (key_param_name_entry g)
        [] Main.NORMAL (request_button g) (clear_button g) (error_dialogs g)
  | Main.DISABLED => g
  end.

(** [output_area.insert(tk.END, s)] *)
Definition output_area_insert (s : str) (g : gui) : gui :=
  match output_area_state g with
  | Main.NORMAL =>
      mkGui (api_url_entry g) (api_key_entry g) (key_param_name_entry g)
        (output_area g ++ s) Main.NORMAL (request_button g) (clear_button g)
        (error_dialogs g)
  | Main.DISABLED => g
  end.

(** [request_button.config(state=s)] *)
Definition request_button_config (s : Main.widget_state) (g : gui) : gui :=
  mkGui (api_url_entry g) (api_key_entry g) (key_param_name_entry g)
    (output_area g) (output_area_state g) s (clear_button g)
    (error_dialogs g).

(** [clear_button.config(state=s)] *)
Definition clear_button_config (s : Main.widget_state) (g : gui) : gui :=
  mkGui (api_url_entry g) (api_key_entry g) (key_param_name_entry g)
    (output_area g) (output_area_state g) (request_button g) s
    (error_dialogs g).

(** [messagebox.showerror(title, message)] *)
Definition showerror (title message : str) (g : gui) : gui :=
  mkGui (api_url_entry g) (api_key_entry g) (key_param_name_entry g)
    (output_area g) (output_area_state g) (request_button g)
    (clear_button g) (error_dialogs g ++ [(title, message)]).

(** The state of the program between two events: the window and the log of
    the requests issued so far. *)
Definition world : Type := gui * list Request.

Definition update (f : gui -> gui) : M world unit :=
  fun w => (inl tt, (f (fst w), snd w)).

Definition read {A} (f : gui -> A) : M world A :=
  fun w => (inl (f (fst w)), w).

(** A call of a function: it runs in a frame of its own. *)
Definition call {A} (f : M frame A) : M world A :=
  fun w =>
    let (r, fr) := f (mkFrame (snd w) None) in
    (r, (fst w, net_log fr)).

Section Callbacks.
Variable check_netloc : str -> option str.

(** [perform_api_request()], with the network as it is when the button is
    pressed. *)
Definition perform_api_request (net : network) : M world unit :=
  api_url <- read (fun g => strip (api_url_entry g)) ;;
  api_key <- read (fun g => strip (api_key_entry g)) ;;
  key_param_name <- read (fun g => strip (key_param_name_entry g)) ;;
  update (output_area_config Main.NORMAL) ;;;
  update output_area_delete ;;;
  update (output_area_insert
            (py "Making API request... Please wait." ++ [10%N])) ;;;
  update (output_area_config Main.DISABLED) ;;;
  update (request_button_config Main.DISABLED) ;;;
  update (clear_button_config Main.DISABLED) ;;;
  r <- call (make_api_request check_netloc net (Some api_url)
               (Some api_key) (Some key_param_name)) ;;
  (let (is_success, result_content) := r : outcome in
   update (output_area_config Main.NORMAL) ;;;
   update output_area_delete ;;;
   (if is_success then
      update (output_area_insert
                (py "API Response (JSON):" ++ [10%N; 10%N])) ;;;
      update (output_area_insert result_content)
    else
      update (output_area_insert
                (py "API Request Failed:" ++ [10%N; 10%N])) ;;;
      update (output_area_insert result_content) ;;;
      update (showerror (py "API Request Error")
                (py "Failed to retrieve API response. See output area for details."))) ;;;
   update (output_area_config Main.DISABLED) ;;;
   update (request_button_config Main.NORMAL) ;;;
   update (clear_button_config Main.NORMAL)).

(** [clear_fields()] *)
Definition clear_fields : M world unit :=
  update (set_api_url_entry []) ;;;
  update (set_api_key_entry []) ;;;
  update (set_key_param_name_entry []) ;;;
  update (output_area_config Main.NORMAL) ;;;
  update output_area_delete ;;;
  update (output_area_config Main.DISABLED).

(** What the user does: edit one of the entries, press a button. *)
Inductive event :=
| EditUrl (s : str)
| EditKey (s : str)
| EditName (s : str)
| ClickRequest (net : network)
| ClickClear.

(** The event loop runs the callback of an event; an exception leaving a
    callback is reported and the loop goes on. *)
Definition handle (ev : event) (w : world) : world :=
  match ev with
  | EditUrl s => (set_api_url_entry s (fst w), snd w)
  | EditKey s => (set_api_key_entry s (fst w), snd w)
  | EditName s => (set_key_param_name_entry s (fst w), snd w)
  | ClickRequest net => snd (perform_api_request net w)
  | ClickClear => snd (clear_fields w)
  end.

Definition run (evs : list event) (w : world) : world :=
  fold_left (fun w ev => handle ev w) evs w.
End Callbacks.

End Temp.

(* ================================================================== *)
(** * Sample inputs and answers of the network *)
(* ================================================================== *)

Module Samples.
Import PyStr PyExc Requests.

(** A case table that leaves the code points outside ASCII alone. *)
Definition keep_case : str -> str -> N -> str := fun _ _ c => [c].

(** A check that accepts every network location. *)
Definition accept_netloc : str -> option str := fun _ => None.

Definition empty_frame : frame := mkFrame [] None.

(** A JSON object with a [cod] and a [message], as OpenWeatherMap
    answers. *)
Definition owm_body (cod : Z) (message : string) : Json.json :=
  Json.JDict [(py "cod", Json.JInt cod);
              (py "message", Json.JStr (py message))].

(** A network that answers every request with the same response. *)
Definition always (r : Response) : network := fun _ => Returned r.

Definition unauthorized : Response :=
  mkResponse 401 (py "Unauthorized") (py "https://api.openweathermap.org/")
    (Json.dumps (owm_body 401 "Invalid API key") 2)
    (inl (owm_body 401 "Invalid API key")).

Definition ok_invalid_key : Response :=
  mkResponse 200 (py "OK") (py "https://api.openweathermap.org/")
    (Json.dumps (owm_body 200 "Invalid API key") 2)
    (inl (owm_body 200 "Invalid API key")).

Definition city_not_found : Response :=
  mkResponse 404 (py "Not Found") (py "https://api.openweathermap.org/")
    (Json.dumps (owm_body 404 "city not found") 2)
    (inl (owm_body 404 "city not found")).

Definition ok_empty_object : Response :=
  mkResponse 200 (py "OK") (py "https://example.org/") (py "{}")
    (inl (Json.JDict [])).

(** A JSON value with an array and an object inside an object. *)
Definition forecast : Json.json :=
  Json.JDict
    [(py "city", Json.JStr (py "Ljubljana"));
     (py "temps",
      Json.JList [Json.JInt 21; Json.JFloat (py "19.5"); Json.JNull]);
     (py "wind", Json.JDict [(py "speed", Json.JInt (-3))]);
     (py "alerts", Json.JList [])].

Definition ok_forecast : Response :=
  mkResponse 200 (py "OK") (py "https://example.org/a")
    (Json.dumps forecast 0) (inl forecast).

(** The exception [response.json()] raises on a body that starts with
    [<]. *)
Definition expecting_value : exn :=
  json_decode_error (py "Expecting value: line 1 column 1 (char 0)").

Definition html_page : Response :=
  mkResponse 200 (py "OK") (py "https://example.org/")
    (py "<html>error</html>") (inr expecting_value).

End Samples.

(* ================================================================== *)
(** * Notions used in the statements *)
(* ================================================================== *)

Module Notions.
Import PyStr PyExc Requests.

(** The statuses [raise_for_status] lets through. *)
Definition status_passes (s : Z) : Prop := (s < 400 \/ 600 <= s)%Z.

(** An argument that counts as missing: [None] or the empty string. *)
Definition missing (a : option str) : Prop := a = None \/ a = Some [].

(** The key the validator's window remembers, if any, is not empty and
    has no white space at either end. *)
Definition remembered_key_ok (g : Main.gui) : Prop :=
  match Main.valid_api_key g with
  | None => True
  | Some k => k <> [] /\ strip k = k
  end.

(** [t] is [needle] up to the case of its ASCII letters. *)
Definition casing_of (needle t : str) : Prop := map ascii_lower t = needle.

(** A Unicode scalar value: a code point that is no surrogate. *)
Definition is_scalar (c : N) : bool :=
  (c <? 0x110000)%N && negb (Utf8.is_surrogate c).

(** Text that UTF-8 can encode: scalar values only. *)
Definition encodable (s : str) : Prop := forallb is_scalar s = true.

(** A byte. *)
Definition is_byte (b : N) : bool := (b <? 256)%N.

(** The characters [urlencode] writes: unreserved ones, [%], [+] and the
    separators [&] and [=]. *)
Definition urlencoded_char (c : N) : bool :=
  Urllib.always_safe c || (c =? 37)%N || (c =? 43)%N || (c =? 38)%N
  || (c =? 61)%N.

(** The characters a quoting with the safe set [safe] writes. *)
Definition written (safe : str) (c : N) : bool :=
  Urllib.is_safe safe c || (c =? 37)%N.

(** The characters of one quoted name or value: no separator. *)
Definition quoted_char (c : N) : bool :=
  Urllib.always_safe c || (c =? 37)%N || (c =? 43)%N.

(** Neither [?] nor [#]. *)
Definition before_query_char (c : N) : bool :=
  negb ((c =? 63)%N || (c =? 35)%N).

(** A URL put together from a part without [?] and [#], the query [q]
    and, maybe, a fragment. *)
Definition assembled (q u : str) : Prop :=
  exists p f,
    u = p ++ 63%N :: q ++ f
    /\ forallb before_query_char p = true
    /\ (f = [] \/ exists f', f = 35%N :: f').

(** The same with the part [f] after the query given. *)
Definition assembled_with (q f u : str) : Prop :=
  exists p, u = p ++ 63%N :: q ++ f /\ forallb before_query_char p = true.

(** What [urlunsplit] writes after the query for the fragment [frag]. *)
Definition fragment_tail (frag : str) : str :=
  if nonempty frag then 35%N :: frag else [].

(** Neither tab, nor newline, nor carriage return. *)
Definition url_safe_char (c : N) : bool :=
  negb ((c =? 9)%N || (c =? 10)%N || (c =? 13)%N).

(** The pairs of a mapping from names to lists of values, in order. *)
Definition pairs_of (d : Urllib.dict (list str)) : list (str * str) :=
  flat_map (fun kv => map (fun v => (fst kv, v)) (snd kv)) d.

(** A value [parse_qs] keeps and [urlencode] can write. *)
Definition value_ok (v : str) : Prop := v <> [] /\ encodable v.

(** A mapping as [parse_qs] builds them: distinct names, no empty list of
    values, no empty value, and text that can be encoded. *)
Definition well_formed_query (d : Urllib.dict (list str)) : Prop :=
  NoDup (Urllib.dict_keys d)
  /\ Forall (fun kv : str * list str =>
               encodable (fst kv) /\ snd kv <> []
               /\ Forall value_ok (snd kv)) d.

(** One field of a query string read with its blank value kept, as the
    loop of [parse_qsl] does with [keep_blank_values=True]: a field
    without [=] is a name with a blank value. *)
Definition field_kept (name_value : str) : list (str * str) :=
  match name_value with
  | [] => []
  | _ =>
      match partition 61 name_value with
      | None => [(Urllib.unquote (replace 43 32 name_value), [])]
      | Some (n, v) =>
          [(Urllib.unquote (replace 43 32 n),
            Urllib.unquote (replace 43 32 v))]
      end
  end.

(** The parameters of a query string, those with a blank value
    included. *)
Definition parameters (qs : str) : list (str * str) :=
  flat_map field_kept (split 38 qs).

(** The field [f] of a query string is the pair [nv] written by
    [urlencode]: a quoted name, [=] and a quoted value that is not
    blank. *)
Definition reads_as (nv : str * str) (f : str) : Prop :=
  exists k' v',
    f = k' ++ [61%N] ++ v'
    /\ forallb quoted_char k' = true /\ forallb quoted_char v' = true
    /\ v' <> []
    /\ Urllib.unquote (replace 43 32 k') = fst nv
    /\ Urllib.unquote (replace 43 32 v') = snd nv.

End Notions.

(* ================================================================== *)
(** * Reading pretty-printed JSON *)
(* ================================================================== *)

(** What "the JSON value [v], pretty-printed with an indentation of [n]"
    means for a text, stated by a reader and not by a writer: the text is
    read as JSON in the layout of a pretty-printer, every item of an array
    and every member of an object on a line of its own, [n] spaces deeper
    than the line of the bracket that opens it, the closing bracket on a
    line of its own under the opening line, [": "] after a key, an empty
    array as [[]] and an empty object as [{}].  Any other layout is
    refused. *)
Module JsonText.
Import PyStr PyExc Json.
Open Scope N_scope.

(** [s] without its prefix [p], when it starts with [p]. *)
Fixpoint strip_prefix (p s : str) : option str :=
  match p with
  | [] => Some s
  | a :: p' =>
      match s with
      | [] => None
      | b :: s' => if a =? b then strip_prefix p' s' else None
      end
  end.

(** The longest prefix of characters with [f], and the rest. *)
Fixpoint span (f : N -> bool) (s : str) : str * str :=
  match s with
  | [] => ([], [])
  | c :: r =>
      if f c then let (a, b) := span f r in (c :: a, b) else ([], s)
  end.

(** ** String literals *)

Definition is_high_surrogate (c : N) : bool :=
  (0xD800 <=? c) && (c <=? 0xDBFF).

Definition is_low_surrogate (c : N) : bool :=
  (0xDC00 <=? c) && (c <=? 0xDFFF).

(** The value of a hexadecimal digit, of either case. *)
Definition hex_digit_value (c : N) : option N :=
  if (48 <=? c) && (c <=? 57) then Some (c - 48)
  else if (97 <=? c) && (c <=? 102) then Some (c - 87)
  else if (65 <=? c) && (c <=? 70) then Some (c - 55)
  else None.

(** Four hexadecimal digits. *)
Definition read_hex4 (s : str) : option (N * str) :=
  match s with
  | a :: b :: c :: d :: r =>
      match hex_digit_value a, hex_digit_value b,
            hex_digit_value c, hex_digit_value d with
      | Some x3, Some x2, Some x1, Some x0 =>
          Some (((x3 * 16 + x2) * 16 + x1) * 16 + x0, r)
      | _, _, _, _ => None
      end
  | _ => None
  end.

(** The character a backslash and [e] stand for. *)
Definition simple_escape (e : N) : option N :=
  if e =? 34 then Some 34
  else if e =? 92 then Some 92
  else if e =? 47 then Some 47
  else if e =? 98 then Some 8
  else if e =? 102 then Some 12
  else if e =? 110 then Some 10
  else if e =? 114 then Some 13
  else if e =? 116 then Some 9
  else None.

(** A [\uXXXX] of a low surrogate at the start of [s]. *)
Definition low_surrogate_escape (s : str) : option (N * str) :=
  match s with
  | a :: b :: r =>
      if (a =? 92) && (b =? 117) then
        match read_hex4 r with
        | Some (u, r') => if is_low_surrogate u then Some (u, r') else None
        | None => None
        end
      else None
  | _ => None
  end.

Definition push (c : N) (k : option (str * str)) : option (str * str) :=
  match k with
  | Some (t, r) => Some (c :: t, r)
  | None => None
  end.

(** The characters of a string literal after its opening quote, up to the
    closing quote, and the text after it.  A control character must be
    escaped; the escapes of a high and of a low surrogate in a row stand
    for one character. *)
Fixpoint read_string (fuel : nat) (s : str) : option (str * str) :=
  match fuel with
  | O => None
  | S fuel' =>
      match s with
      | [] => None
      | c :: r =>
          if c =? 34 then Some ([], r)
          else if c =? 92 then
            match r with
            | [] => None
            | e :: r' =>
                if e =? 117 then
                  match read_hex4 r' with
                  | Some (u1, r1) =>
                      match (if is_high_surrogate u1
                             then low_surrogate_escape r1 else None) with
                      | Some (u2, r2) =>
                          push (0x10000 + (u1 - 0xD800) * 1024
                                  + (u2 - 0xDC00))
                            (read_string fuel' r2)
                      | None => push u1 (read_string fuel' r1)
                      end
                  | None => None
                  end
                else
                  match simple_escape e with
                  | Some ch => push ch (read_string fuel' r')
                  | None => None
                  end
            end
          else if c <? 32 then None
          else push c (read_string fuel' r)
      end
  end.

Definition string_literal (s : str) : option (str * str) :=
  read_string (S (List.length s)) s.

(** ** Numbers *)

Definition number_char (c : N) : bool :=
  is_digit c || (c =? 45) || (c =? 43) || (c =? 46) || (c =? 101)
  || (c =? 69).

(** One digit or more. *)
Definition digits1 (s : str) : option str :=
  match span is_digit s with
  | ([], _) => None
  | (_, r) => Some r
  end.

(** [0], or a digit that is not [0] and more digits. *)
Definition int_part (s : str) : option str :=
  match s with
  | [] => None
  | c :: r =>
      if c =? 48 then Some r
      else if is_digit c then Some (snd (span is_digit r))
      else None
  end.

(** A fraction, if there is one. *)
Definition frac_part (s : str) : option (bool * str) :=
  match s with
  | [] => Some (false, [])
  | c :: r =>
      if c =? 46 then option_map (pair true) (digits1 r)
      else Some (false, s)
  end.

(** An exponent, if there is one. *)
Definition exp_part (s : str) : option (bool * str) :=
  match s with
  | [] => Some (false, [])
  | c :: r =>
      if (c =? 101) || (c =? 69) then
        let r' := match r with
                  | [] => r
                  | g :: r2 => if (g =? 43) || (g =? 45) then r2 else r
                  end in
        option_map (pair true) (digits1 r')
      else Some (false, s)
  end.

(** Whether [tok] is a number of JSON, and then whether it has a
    fraction or an exponent. *)
Definition number_shape (tok : str) : option bool :=
  let body := match tok with
              | [] => tok
              | c :: r => if c =? 45 then r else tok
              end in
  match int_part body with
  | None => None
  | Some r1 =>
      match frac_part r1 with
      | None => None
      | Some (f, r2) =>
          match exp_part r2 with
          | Some (e, []) => Some (f || e)
          | _ => None
          end
      end
  end.

Fixpoint to_string (s : str) : string :=
  match s with
  | [] => EmptyString
  | c :: r => String (ascii_of_N c) (to_string r)
  end.

(** The integer a decimal token stands for. *)
Definition int_value (tok : str) : option Z :=
  option_map Z.of_int (NilZero.int_of_string (to_string tok)).

(** A number: an integer, or a float, which is kept as its text. *)
Definition read_number (s : str) : option (json * str) :=
  let (tok, rest) := span number_char s in
  match number_shape tok with
  | Some true => Some (JFloat tok, rest)
  | Some false =>
      match int_value tok with
      | Some z => Some (JInt z, rest)
      | None => None
      end
  | None => None
  end.

(** The text of a float: a number with a fraction or an exponent, or one
    of [NaN], [Infinity] and [-Infinity]. *)
Definition is_float_text (t : str) : bool :=
  str_eqb t (py "NaN") || str_eqb t (py "Infinity")
  || str_eqb t (py "-Infinity")
  || (forallb number_char t
      && match number_shape t with Some true => true | _ => false end).

(** ** Values *)

Definition literal (rest_of_word : string) (v : json) (r : str)
  : option (json * str) :=
  match strip_prefix (py rest_of_word) r with
  | Some r' => Some (v, r')
  | None => None
  end.

(** [k] spaces at the start of [s]. *)
Fixpoint strip_spaces (k : nat) (s : str) : option str :=
  match k with
  | O => Some s
  | S k' =>
      match s with
      | [] => None
      | c :: r => if c =? 32 then strip_spaces k' r else None
      end
  end.

Section Reader.
Variable indent : nat.

(** The start of a line at [level]: a line break and [indent * level]
    spaces. *)
Definition strip_line_start (level : nat) (s : str) : option str :=
  match s with
  | [] => None
  | c :: r => if c =? 10 then strip_spaces (indent * level) r else None
  end.

(** [read_value fuel level s]: the value at the start of [s], on a line
    that is indented [level] times, and the text after it;
    [read_items] and [read_members] read what is between the brackets of
    an array and of an object that is not empty, closing bracket
    included. *)
Fixpoint read_value (fuel level : nat) (s : str) : option (json * str) :=
  match fuel with
  | O => None
  | S fuel' =>
      match s with
      | [] => None
      | c :: r =>
          if c =? 34 then
            match string_literal r with
            | Some (t, r') => Some (JStr t, r')
            | None => None
            end
          else if c =? 91 then
            match strip_prefix [93] r with
            | Some r' => Some (JList [], r')
            | None =>
                match strip_line_start (S level) r with
                | Some r1 =>
                    match read_items fuel' level r1 with
                    | Some (l, r2) => Some (JList l, r2)
                    | None => None
                    end
                | None => None
                end
            end
          else if c =? 123 then
            match strip_prefix [125] r with
            | Some r' => Some (JDict [], r')
            | None =>
                match strip_line_start (S level) r with
                | Some r1 =>
                    match read_members fuel' level r1 with
                    | Some (d, r2) => Some (JDict d, r2)
                    | None => None
                    end
                | None => None
                end
            end
          else if c =? 110 then literal "ull" JNull r
          else if c =? 116 then literal "rue" (JBool true) r
          else if c =? 102 then literal "alse" (JBool false) r
          else if c =? 78 then literal "aN" (JFloat (py "NaN")) r
          else if c =? 73 then literal "nfinity" (JFloat (py "Infinity")) r
          else
            match strip_prefix (py "-Infinity") s with
            | Some r' => Some (JFloat (py "-Infinity"), r')
            | None => read_number s
            end
      end
  end

with read_items (fuel level : nat) (s : str) : option (list json * str) :=
  match fuel with
  | O => None
  | S fuel' =>
      match read_value fuel' (S level) s with
      | None => None
      | Some (x, r) =>
          match strip_prefix [44] r with
          | Some r0 =>
              match strip_line_start (S level) r0 with
              | Some r1 =>
                  match read_items fuel' level r1 with
                  | Some (l, r2) => Some (x :: l, r2)
                  | None => None
                  end
              | None => None
              end
          | None =>
              match strip_line_start level r with
              | Some r1 =>
                  match strip_prefix [93] r1 with
                  | Some r2 => Some ([x], r2)
                  | None => None
                  end
              | None => None
              end
          end
      end
  end

with read_members (fuel level : nat) (s : str)
  : option (list (str * json) * str) :=
  match fuel with
  | O => None
  | S fuel' =>
      match strip_prefix [34] s with
      | None => None
      | Some s1 =>
          match string_literal s1 with
          | None => None
          | Some (k, s2) =>
              match strip_prefix [58; 32] s2 with
              | None => None
              | Some s3 =>
                  match read_value fuel' (S level) s3 with
                  | None => None
                  | Some (x, r) =>
                      match strip_prefix [44] r with
                      | Some r0 =>
                          match strip_line_start (S level) r0 with
                          | Some r1 =>
                              match read_members fuel' level r1 with
                              | Some (d, r2) => Some ((k, x) :: d, r2)
                              | None => None
                              end
                          | None => None
                          end
                      | None =>
                          match strip_line_start level r with
                          | Some r1 =>
                              match strip_prefix [125] r1 with
                              | Some r2 => Some ([(k, x)], r2)
                              | None => None
                              end
                          | None => None
                          end
                      end
                  end
              end
          end
      end
  end.

(** The value the whole text [s] stands for, when [s] is JSON
    pretty-printed with an indentation of [indent]. *)
Definition read_pretty (s : str) : option json :=
  match read_value (S (List.length s)) 0 s with
  | Some (v, []) => Some v
  | _ => None
  end.
End Reader.

(** Text as a string of a decoded JSON value holds it: code points below
    [0x110000], and no high surrogate right before a low one (the reader
    joins the escapes of such a pair into one character). *)
Fixpoint text_ok (s : str) : bool :=
  match s with
  | [] => true
  | c :: r =>
      (c <? 0x110000)
      && negb (is_high_surrogate c
               && match r with
                  | [] => false
                  | c2 :: _ => is_low_surrogate c2
                  end)
      && text_ok r
  end.

(** A value as reading JSON builds it: floats with the text of a float,
    strings and keys as above. *)
Fixpoint loadable (v : json) : bool :=
  match v with
  | JNull | JBool _ | JInt _ => true
  | JFloat t => is_float_text t
  | JStr s => text_ok s
  | JList l => forallb loadable l
  | JDict d =>
      forallb (fun kv : str * json => text_ok (fst kv) && loadable (snd kv))
        d
  end.

(** The number of values in [v], each item of an array and each member
    of an object counted once more: what the reader needs of fuel. *)
Fixpoint size (v : json) : nat :=
  match v with
  | JList l => S (list_sum (map (fun x => S (size x)) l))
  | JDict d =>
      S (list_sum (map (fun kv : str * json => S (size (snd kv))) d))
  | _ => 1
  end.

(** A decimal numeral without sign: [0], or digits that do not start with
    [0]. *)
Definition numeral (t : str) : Prop :=
  t = [48]
  \/ exists c r, t = c :: r /\ is_digit c = true /\ c <> 48
                 /\ forallb is_digit r = true.

(** How a number begins: with a digit, or with [-] and a digit. *)
Definition number_start (t : str) : Prop :=
  match t with
  | [] => False
  | c :: r =>
      is_digit c = true
      \/ (c = 45 /\ match r with
                    | [] => False
                    | c1 :: _ => is_digit c1 = true
                    end)
  end.

(** What follows a value: nothing, or a character that is not of a
    number. *)
Definition ends_token (rest : str) : Prop :=
  match rest with
  | [] => True
  | c :: _ => number_char c = false
  end.

(** The reader gives back [v] from the text written for it with the
    indentation [indent], at every level and whatever follows, once it
    has fuel for the values of [v]. *)
Definition reads_back (indent : nat) (v : json) : Prop :=
  forall fuel level rest,
    (size v <= fuel)%nat -> ends_token rest ->
    read_value indent fuel level (iterencode indent level v ++ rest)
    = Some (v, rest).

End JsonText.

(* ================================================================== *)
(** * Properties of the two request functions *)
(* ================================================================== *)

Module RequestFacts.
Import PyStr PyExc Requests Notions.

Lemma raise_for_status_passes (r : Response) :
  status_passes (status_code r) -> raise_for_status r = inl tt.
Proof.
  unfold status_passes, raise_for_status; intros H.
  destruct (400 <=? status_code r)%Z eqn:E1;
    destruct (status_code r <? 500)%Z eqn:E2;
    destruct (500 <=? status_code r)%Z eqn:E3;
    destruct (status_code r <? 600)%Z eqn:E4; simpl; try reflexivity; lia.
Qed.

Lemma raise_for_status_raises (r : Response) :
  ~ status_passes (status_code r) ->
  exists e, raise_for_status r = inr e
            /\ isinstance e RequestException = true.
Proof.
  unfold status_passes, raise_for_status; intros H.
  destruct ((400 <=? status_code r) && (status_code r <? 500))%Z eqn:E1.
  - eexists; split; reflexivity.
  - destruct ((500 <=? status_code r) && (status_code r <? 600))%Z eqn:E2.
    + eexists; split; reflexivity.
    + exfalso; apply H.
      apply andb_false_iff in E1, E2. lia.
Qed.

(** What [requests.get] raises is never a [json.JSONDecodeError]. *)
Lemma raised_exn_not_json (b : bool) (msg : str) :
  isinstance (raised_exn b msg) JSONDecodeError = false.
Proof. destruct b; reflexivity. Qed.

Ltac run_body :=
  unfold Main.validate_api_key, Temp.make_api_request, try_except, bind,
    requests_get, lift, ret, load_response; cbn [fst snd net_log local_response].

(** Choosing the handler: a case analysis on the classes of the
    exception. *)
Ltac dispatch :=
  cbn;
  repeat match goal with
         | |- context [if ?c then _ else _] => destruct c eqn:?; cbn
         end.

End RequestFacts.

Module Totality.
Import PyStr PyExc Requests Notions RequestFacts.

(** The three handlers of both functions catch every exception: whatever
    the body of the [try] does, the handlers return. *)
Lemma validate_api_key_returns ul net api st :
  exists b s st', Main.validate_api_key ul net api st = (inl (b, s), st').
Proof.
  destruct api as [[|c k]|]; [do 3 eexists; reflexivity | | do 3 eexists; reflexivity].
  run_body.
  destruct (net _) as [r | rb msg].
  - destruct (raise_for_status r) as [[]|e].
    + destruct (json r) as [v|e].
      * destruct (Main.message_of ul v) as [m|e]; cbn.
        -- destruct (Main.classify m (status_code r)); do 3 eexists; reflexivity.
        -- dispatch; do 3 eexists; reflexivity.
      * dispatch; do 3 eexists; reflexivity.
    + dispatch; do 3 eexists; reflexivity.
  - cbn. destruct rb; do 3 eexists; reflexivity.
Qed.

Lemma make_api_request_returns chk net base api name st :
  exists b s st',
    Temp.make_api_request chk net base api name st = (inl (b, s), st').
Proof.
  destruct base as [[|c u]|]; [do 3 eexists; reflexivity | | do 3 eexists; reflexivity].
  unfold Temp.make_api_request.
  destruct (Temp.build_final_url chk (c :: u) api name) as [final | [b s]];
    [| do 3 eexists; reflexivity].
  run_body.
  destruct (net _) as [r | rb msg].
  - destruct (raise_for_status r) as [[]|e].
    + destruct (json r) as [v|e]; cbn.
      * do 3 eexists; reflexivity.
      * dispatch; do 3 eexists; reflexivity.
    + dispatch; do 3 eexists; reflexivity.
  - cbn. destruct rb; do 3 eexists; reflexivity.
Qed.

(** C9: [validate_api_key] and [make_api_request] never raise: for every
    argument, every answer of the network and every exception raised on
    the way, each returns a pair of a success flag and a text. *)
Theorem request_functions_never_raise :
  forall ul chk net st,
    (forall api, exists b s st',
        Main.validate_api_key ul net api st = (inl (b, s), st'))
    /\ (forall base api name, exists b s st',
           Temp.make_api_request chk net base api name st
           = (inl (b, s), st')).
Proof.
  intros; split; intros.
  - apply validate_api_key_returns.
  - apply make_api_request_returns.
Qed.

End Totality.

(* ================================================================== *)
(** * Substrings and letter case *)
(* ================================================================== *)

Module StrFacts.
Import PyStr.
Open Scope N_scope.

Lemma startswith_app (p s : str) : startswith p (p ++ s) = true.
Proof.
  induction p as [|a p IH]; simpl; [reflexivity|].
  now rewrite N.eqb_refl, IH.
Qed.

Lemma py_in_startswith (needle hay : str) :
  startswith needle hay = true -> py_in needle hay = true.
Proof. destruct hay; simpl; intros ->; reflexivity. Qed.

Lemma py_in_app (needle a b : str) : py_in needle (a ++ needle ++ b) = true.
Proof.
  induction a as [|c a IH]; simpl.
  - apply py_in_startswith, startswith_app.
  - rewrite IH. apply orb_true_r.
Qed.

Lemma py_in_skip (needle a s : str) :
  py_in needle s = true -> py_in needle (a ++ s) = true.
Proof.
  intros H. induction a as [|c a IH]; simpl; [exact H|].
  rewrite IH. apply orb_true_r.
Qed.

Lemma startswith_split (p s : str) :
  startswith p s = true -> exists r, s = p ++ r.
Proof.
  revert s; induction p as [|a p IH]; intros s H; simpl in *.
  - now exists s.
  - destruct s as [|b s]; [discriminate|].
    apply andb_true_iff in H as [Hab Hp]. apply N.eqb_eq in Hab; subst b.
    destruct (IH _ Hp) as [r ->]. now exists r.
Qed.

(** [needle in hay] holds exactly when [hay] has [needle] as a contiguous
    part. *)
Lemma py_in_spec (needle hay : str) :
  py_in needle hay = true <-> exists a b, hay = a ++ needle ++ b.
Proof.
  split.
  - induction hay as [|c hay IH]; simpl; intros H.
    + rewrite orb_false_r in H. destruct (startswith_split _ _ H) as [r Hr].
      exists [], r. exact Hr.
    + apply orb_true_iff in H as [H|H].
      * destruct (startswith_split _ _ H) as [r Hr]. exists [], r. exact Hr.
      * destruct (IH H) as (a & b & ->). now exists (c :: a), b.
  - intros (a & b & ->). apply py_in_app.
Qed.

Lemma ascii_lower_ascii (c : N) :
  is_ascii (ascii_lower c) = true -> is_ascii c = true.
Proof.
  unfold is_ascii, ascii_lower, is_upper.
  destruct ((65 <=? c) && (c <=? 90)) eqn:E; intros H; [|exact H].
  apply andb_true_iff in E as [_ E]. apply N.leb_le in E.
  apply N.ltb_lt. lia.
Qed.

(** A casing of an ASCII text is ASCII. *)
Lemma casing_is_ascii (t : str) :
  forallb is_ascii (map ascii_lower t) = true -> forallb is_ascii t = true.
Proof.
  induction t as [|c t IH]; simpl; [reflexivity|].
  intros H. apply andb_true_iff in H as [Hc Ht].
  now rewrite (ascii_lower_ascii _ Hc), IH.
Qed.

Section LowerFacts.
Variable unicode_lower : str -> str -> N -> str.

Lemma lower_from_ascii (t : str) :
  forallb is_ascii t = true ->
  forall before rest,
    lower_from unicode_lower before (t ++ rest)
    = map ascii_lower t
        ++ lower_from unicode_lower (before ++ t) rest.
Proof.
  induction t as [|c t IH]; simpl; intros H before rest.
  - now rewrite app_nil_r.
  - apply andb_true_iff in H as [Hc Ht]. rewrite Hc. simpl.
    rewrite (IH Ht). f_equal. f_equal. now rewrite <- app_assoc.
Qed.

Lemma lower_from_prefix (a : str) :
  forall before rest,
    exists x,
      lower_from unicode_lower before (a ++ rest)
      = x ++ lower_from unicode_lower (before ++ a) rest.
Proof.
  induction a as [|c a IH]; simpl; intros before rest.
  - exists []. now rewrite app_nil_r.
  - destruct (IH (before ++ [c]) rest) as [x Hx]. rewrite Hx.
    eexists. rewrite <- app_assoc. rewrite app_assoc. reflexivity.
Qed.

(** Lower-casing a text turns every ASCII casing of [needle] in it into
    [needle]. *)
Lemma lower_contains_casing (needle a t b : str) :
  forallb is_ascii needle = true ->
  map ascii_lower t = needle ->
  py_in needle (lower unicode_lower (a ++ t ++ b)) = true.
Proof.
  intros Hn Ht. unfold lower.
  destruct (lower_from_prefix a [] (t ++ b)) as [x ->].
  rewrite lower_from_ascii by (apply casing_is_ascii; now rewrite Ht).
  rewrite Ht. apply py_in_app.
Qed.
End LowerFacts.

End StrFacts.

(* ================================================================== *)
(** * The reader of pretty-printed JSON reads what [json.dumps] writes *)
(* ================================================================== *)

Module JsonTextFacts.
Import PyStr PyExc Json JsonText.
Open Scope N_scope.

(** ** Prefixes and spans *)

Lemma str_eqb_true (a b : str) : str_eqb a b = true <-> a = b.
Proof.
  unfold str_eqb. destruct (list_eq_dec N.eq_dec a b); split; congruence.
Qed.

Lemma strip_prefix_app (p s : str) : strip_prefix p (p ++ s) = Some s.
Proof.
  induction p as [|a p IH]; [reflexivity|].
  cbn. now rewrite N.eqb_refl.
Qed.

Lemma strip_prefix_head (a : N) (p : str) (b : N) (s : str) :
  a <> b -> strip_prefix (a :: p) (b :: s) = None.
Proof. intros H. cbn. now rewrite (proj2 (N.eqb_neq _ _) H). Qed.

Lemma span_all (f : N -> bool) (t rest : str) :
  forallb f t = true ->
  match rest with [] => True | c :: _ => f c = false end ->
  span f (t ++ rest) = (t, rest).
Proof.
  intros Ht Hr. induction t as [|c t IH]; cbn in *.
  - destruct rest as [|c r]; [reflexivity|]. cbn. now rewrite Hr.
  - apply andb_true_iff in Ht. destruct Ht as [Hc Ht].
    now rewrite Hc, IH.
Qed.

(** ** String literals *)

Lemma hex_value_digit (d : N) :
  d < 16 -> hex_digit_value (hex_digit false d) = Some d.
Proof.
  intros Hd. unfold hex_digit_value, hex_digit.
  destruct (d <? 10) eqn:E.
  - apply N.ltb_lt in E.
    replace ((48 <=? 48 + d) && (48 + d <=? 57)) with true
      by (symmetry; apply andb_true_iff; split; apply N.leb_le; lia).
    f_equal. lia.
  - apply N.ltb_ge in E.
    replace ((48 <=? 87 + d) && (87 + d <=? 57)) with false
      by (symmetry; apply andb_false_iff; right; apply N.leb_gt; lia).
    replace ((97 <=? 87 + d) && (87 + d <=? 102)) with true
      by (symmetry; apply andb_true_iff; split; apply N.leb_le; lia).
    f_equal. lia.
Qed.

Lemma strip_spaces_written (k : nat) (x : str) :
  strip_spaces k (repeat 32 k ++ x) = Some x.
Proof. induction k as [|k IH]; [reflexivity | exact IH]. Qed.

Lemma read_hex4_written (n : N) (r : str) :
  n < 65536 -> read_hex4 (hex4 false n ++ r) = Some (n, r).
Proof.
  intros Hn. unfold hex4, read_hex4. cbn [app].
  rewrite !hex_value_digit by (apply N.mod_lt; discriminate).
  do 2 f_equal. lia.
Qed.


Lemma lor_small (a : N) :
  a < 1024 ->
  N.lor 0xD800 a = 0xD800 + a /\ N.lor 0xDC00 a = 0xDC00 + a.
Proof.
  intros Ha.
  assert (Hall : forallb (fun a => (N.lor 0xD800 a =? 0xD800 + a)
                                   && (N.lor 0xDC00 a =? 0xDC00 + a))
                   (map N.of_nat (seq 0 1024)) = true)
    by (vm_compute; reflexivity).
  rewrite forallb_forall in Hall.
  specialize (Hall a). rewrite andb_true_iff, !N.eqb_eq in Hall.
  apply Hall. apply in_map_iff. exists (N.to_nat a). split.
  - apply N2Nat.id.
  - apply in_seq. lia.
Qed.

Lemma surrogates_of (n : N) :
  n < 0x100000 ->
  N.lor 0xD800 (N.land (N.shiftr n 10) 0x3FF) = 0xD800 + n / 1024
  /\ N.lor 0xDC00 (N.land n 0x3FF) = 0xDC00 + n mod 1024.
Proof.
  intros Hn.
  change 0x3FF with (N.ones 10). rewrite !N.land_ones, N.shiftr_div_pow2.
  change (2 ^ 10) with 1024.
  rewrite (N.mod_small (n / 1024)) by lia.
  split; apply lor_small; lia.
Qed.

Ltac decide_eqb c k :=
  let E := fresh "E" in
  destruct (c =? k) eqn:E;
  [apply N.eqb_eq in E | apply N.eqb_neq in E].

Ltac neq_false :=
  repeat match goal with
         | |- context [?a =? ?b] =>
             replace (a =? b) with false
               by (symmetry; apply N.eqb_neq; lia)
         end.

(** What the reader makes of one escaped character. *)
Lemma read_string_escape (c : N) (fuel : nat) (X : str) :
  c < 0x110000 ->
  (is_high_surrogate c = true -> low_surrogate_escape X = None) ->
  read_string (S fuel) (escape_char c ++ X) = push c (read_string fuel X).
Proof.
  intros Hc Hnext. unfold escape_char.
  decide_eqb c 92; [subst; reflexivity|].
  decide_eqb c 34; [subst; reflexivity|].
  decide_eqb c 8; [subst; reflexivity|].
  decide_eqb c 12; [subst; reflexivity|].
  decide_eqb c 10; [subst; reflexivity|].
  decide_eqb c 13; [subst; reflexivity|].
  decide_eqb c 9; [subst; reflexivity|].
  destruct ((32 <=? c) && (c <=? 126)) eqn:Hp.
  - apply andb_true_iff in Hp. destruct Hp as [Hlo Hhi].
    apply N.leb_le in Hlo. cbn [app read_string].
    neq_false.
    replace (c <? 32) with false by (symmetry; apply N.ltb_ge; lia).
    reflexivity.
  - destruct (c <? 65536) eqn:Hb.
    + apply N.ltb_lt in Hb. change (py "\u") with [92; 117].
      cbn [app read_string]. cbn [N.eqb Pos.eqb].
      rewrite (read_hex4_written c X Hb).
      destruct (is_high_surrogate c); [|reflexivity].
      now rewrite Hnext.
    + apply N.ltb_ge in Hb. change (py "\u") with [92; 117].
      destruct (surrogates_of (c - 65536)) as [H1 H2]; [lia|].
      cbv zeta. rewrite H1, H2.
      cbn [app read_string]. cbn [N.eqb Pos.eqb].
      rewrite <- app_assoc.
      rewrite (read_hex4_written (55296 + (c - 65536) / 1024)) by lia.
      replace (is_high_surrogate (55296 + (c - 65536) / 1024)) with true
        by (symmetry; unfold is_high_surrogate; apply andb_true_iff;
            split; apply N.leb_le; lia).
      unfold low_surrogate_escape. cbn [app N.eqb Pos.eqb andb].
      rewrite (read_hex4_written (56320 + (c - 65536) mod 1024)) by lia.
      replace (is_low_surrogate (56320 + (c - 65536) mod 1024)) with true
        by (symmetry; unfold is_low_surrogate; apply andb_true_iff;
            split; apply N.leb_le; lia).
      f_equal. lia.
Qed.


(** After a character that is no low surrogate, the reader finds no
    escape of a low surrogate. *)
Lemma low_surrogate_escape_char (c : N) (Y : str) :
  c < 0x110000 -> is_low_surrogate c = false ->
  low_surrogate_escape (escape_char c ++ Y) = None.
Proof.
  intros Hc Hlow. unfold escape_char.
  decide_eqb c 92; [reflexivity|].
  decide_eqb c 34; [reflexivity|].
  decide_eqb c 8; [reflexivity|].
  decide_eqb c 12; [reflexivity|].
  decide_eqb c 10; [reflexivity|].
  decide_eqb c 13; [reflexivity|].
  decide_eqb c 9; [reflexivity|].
  destruct ((32 <=? c) && (c <=? 126)) eqn:Hp.
  - cbn [app]. unfold low_surrogate_escape. destruct Y as [|y Y];
      [reflexivity|].
    now rewrite (proj2 (N.eqb_neq _ _) E).
  - destruct (c <? 65536) eqn:Hb.
    + apply N.ltb_lt in Hb. change (py "\u") with [92; 117].
      unfold low_surrogate_escape. cbn [app N.eqb Pos.eqb andb].
      rewrite (read_hex4_written c Y Hb). now rewrite Hlow.
    + apply N.ltb_ge in Hb. change (py "\u") with [92; 117].
      destruct (surrogates_of (c - 65536)) as [H1 H2]; [lia|].
      cbv zeta. rewrite H1.
      unfold low_surrogate_escape. cbn [app N.eqb Pos.eqb andb].
      rewrite <- app_assoc.
      rewrite (read_hex4_written (55296 + (c - 65536) / 1024)) by lia.
      replace (is_low_surrogate (55296 + (c - 65536) / 1024)) with false;
        [reflexivity|].
      symmetry. unfold is_low_surrogate. apply andb_false_iff. left.
      apply N.leb_gt. lia.
Qed.

Lemma text_ok_cons (c : N) (r : str) :
  text_ok (c :: r) = true ->
  c < 0x110000
  /\ (is_high_surrogate c = true ->
      match r with [] => True | c2 :: _ => is_low_surrogate c2 = false end)
  /\ text_ok r = true.
Proof.
  cbn [text_ok]. rewrite !andb_true_iff, negb_true_iff, N.ltb_lt.
  intros [[Hc Hp] Hr]. repeat split; try assumption.
  intros Hh. rewrite Hh in Hp. destruct r; [exact I | exact Hp].
Qed.

(** The reader gives back the string a literal was written from. *)
Lemma read_string_written (s : str) :
  text_ok s = true ->
  forall fuel rest,
    (List.length s < fuel)%nat ->
    read_string fuel (flat_map escape_char s ++ 34 :: rest)
    = Some (s, rest).
Proof.
  induction s as [|c r IH]; intros Hs fuel rest Hf.
  - destruct fuel; [cbn in Hf; lia | reflexivity].
  - destruct (text_ok_cons _ _ Hs) as (Hc & Hp & Hr).
    destruct fuel as [|fuel]; [cbn in Hf; lia|].
    cbn [flat_map]. rewrite <- app_assoc.
    rewrite read_string_escape.
    + rewrite IH; [reflexivity | exact Hr | cbn in Hf; lia].
    + exact Hc.
    + intros Hh. specialize (Hp Hh). destruct r as [|c2 r'].
      * cbn [flat_map app]. unfold low_surrogate_escape.
        destruct rest; reflexivity.
      * cbn [flat_map]. rewrite <- app_assoc.
        apply low_surrogate_escape_char; [|exact Hp].
        now destruct (text_ok_cons _ _ Hr).
Qed.

Lemma escape_char_length (c : N) : (1 <= List.length (escape_char c))%nat.
Proof.
  unfold escape_char.
  repeat match goal with
         | |- context [if ?b then _ else _] => destruct b
         end; cbv [List.length app py hex4]; lia.
Qed.

Lemma escaped_length (s : str) :
  (List.length s <= List.length (flat_map escape_char s))%nat.
Proof.
  induction s as [|c r IH]; [reflexivity|].
  cbn [flat_map]. rewrite length_app. cbn [List.length].
  pose proof (escape_char_length c). lia.
Qed.

(** The literal [encode_basestring_ascii] writes, without its opening
    quote. *)
Lemma string_literal_written (s rest : str) :
  text_ok s = true ->
  string_literal (flat_map escape_char s ++ 34 :: rest) = Some (s, rest).
Proof.
  intros Hs. unfold string_literal. apply read_string_written; [exact Hs|].
  rewrite length_app. pose proof (escaped_length s). cbn [List.length]. lia.
Qed.


(** ** Numbers *)

Lemma py_cons (a : ascii) (r : string) :
  py (String a r) = N_of_ascii a :: py r.
Proof. reflexivity. Qed.

Lemma to_string_py (s : string) : to_string (py s) = s.
Proof.
  induction s as [|a r IH]; [reflexivity|].
  rewrite py_cons. cbn [to_string]. now rewrite ascii_N_embedding, IH.
Qed.

Lemma digits_of_uint (d : Decimal.uint) :
  forallb is_digit (py (NilEmpty.string_of_uint d)) = true.
Proof.
  induction d; cbn [NilEmpty.string_of_uint]; [reflexivity|..];
    rewrite py_cons; cbn [forallb]; rewrite IHd; reflexivity.
Qed.

(** The decimal digits of a positive number do not start with [0]. *)
Lemma to_uint_head (p : positive) :
  match Pos.to_uint p with
  | Decimal.Nil | Decimal.D0 _ => False
  | _ => True
  end.
Proof.
  pose proof (DecimalPos.Unsigned.to_of (Pos.to_uint p)) as Hn.
  rewrite DecimalPos.Unsigned.of_to in Hn. cbn [N.to_uint] in Hn.
  pose proof (DecimalPos.Unsigned.to_uint_nonnil p) as Hnil.
  pose proof (DecimalPos.Unsigned.to_uint_nonzero p) as Hz.
  destruct (Pos.to_uint p) as [|u|u|u|u|u|u|u|u|u|u]; try exact I.
  - now apply Hnil.
  - rewrite DecimalFacts.unorm_D0 in Hn. unfold Decimal.unorm in Hn.
    destruct (Decimal.nzhead u) eqn:Hu.
    + injection Hn as Hn. subst u. now apply Hz.
    + now apply (DecimalFacts.nzhead_nonzero _ _ Hu).
    + discriminate Hn.
    + discriminate Hn.
    + discriminate Hn.
    + discriminate Hn.
    + discriminate Hn.
    + discriminate Hn.
    + discriminate Hn.
    + discriminate Hn.
    + discriminate Hn.
Qed.

Lemma numeral_of_pos (p : positive) :
  numeral (py (NilZero.string_of_uint (Pos.to_uint p))).
Proof.
  right. pose proof (to_uint_head p) as Hh.
  pose proof (digits_of_uint (Pos.to_uint p)) as Hd.
  destruct (Pos.to_uint p) as [|u|u|u|u|u|u|u|u|u|u]; try contradiction;
    cbn [NilZero.string_of_uint NilEmpty.string_of_uint] in *;
    rewrite py_cons in *; cbn [forallb] in Hd;
    apply andb_true_iff in Hd; destruct Hd as [Hc Hr];
    (eexists; eexists; split; [reflexivity|]; split; [exact Hc|];
     split; [discriminate | exact Hr]).
Qed.

Lemma of_Z_numeral (z : Z) :
  exists t, numeral t /\ (of_Z z = t \/ of_Z z = 45 :: t).
Proof.
  unfold of_Z. destruct z as [|p|p]; cbn [Z.to_int NilZero.string_of_int].
  - exists [48]. split; [now left | now left].
  - eexists. split; [apply numeral_of_pos | now left].
  - eexists. split; [apply numeral_of_pos|]. right.
    now rewrite py_cons.
Qed.

Lemma digit_is_number_char (t : str) :
  forallb is_digit t = true -> forallb number_char t = true.
Proof.
  intros H. rewrite forallb_forall in *. intros c Hc.
  unfold number_char. now rewrite (H c Hc).
Qed.

Lemma numeral_chars (t : str) : numeral t -> forallb is_digit t = true.
Proof.
  intros [->|(c & r & -> & Hc & _ & Hr)]; [reflexivity|].
  cbn [forallb]. now rewrite Hc, Hr.
Qed.

Lemma numeral_int_part (t : str) : numeral t -> int_part t = Some [].
Proof.
  intros [->|(c & r & -> & Hc & Hz & Hr)]; [reflexivity|].
  unfold int_part. rewrite (proj2 (N.eqb_neq _ _) Hz), Hc.
  pose proof (span_all is_digit r [] Hr I) as Hs.
  rewrite app_nil_r in Hs. now rewrite Hs.
Qed.

Lemma numeral_head (t : str) :
  numeral t -> exists c r, t = c :: r /\ is_digit c = true.
Proof.
  intros [->|(c & r & -> & Hc & _)].
  - now exists 48, [].
  - now exists c, r.
Qed.

Lemma is_digit_not (c k : N) :
  is_digit c = true -> k < 48 \/ 57 < k -> (c =? k) = false.
Proof.
  unfold is_digit. rewrite andb_true_iff, !N.leb_le. intros [H1 H2] Hk.
  apply N.eqb_neq. lia.
Qed.

(** The text of an integer is a number of JSON without fraction and
    exponent. *)
Lemma of_Z_shape (z : Z) :
  forallb number_char (of_Z z) = true
  /\ number_shape (of_Z z) = Some false.
Proof.
  destruct (of_Z_numeral z) as (t & Ht & [-> | ->]).
  - split; [apply digit_is_number_char, numeral_chars, Ht|].
    unfold number_shape.
    destruct (numeral_head t Ht) as (c & r & -> & Hc).
    rewrite (is_digit_not c 45 Hc) by lia.
    now rewrite (numeral_int_part _ Ht).
  - split.
    + cbn [forallb]. now rewrite (digit_is_number_char t (numeral_chars t Ht)).
    + unfold number_shape. cbn [N.eqb Pos.eqb].
      now rewrite (numeral_int_part _ Ht).
Qed.

Lemma of_Z_value (z : Z) : int_value (of_Z z) = Some z.
Proof.
  unfold int_value, of_Z. rewrite to_string_py, NilZero.isi.
  - cbn [option_map]. now rewrite DecimalZ.of_to.
  - destruct z; cbn [Z.to_int]; try discriminate.
    intros H. injection H as H.
    now apply (DecimalPos.Unsigned.to_uint_nonnil p).
  - destruct z; cbn [Z.to_int]; try discriminate.
    intros H. injection H as H.
    now apply (DecimalPos.Unsigned.to_uint_nonnil p).
Qed.

Lemma int_part_start (t r : str) :
  int_part t = Some r ->
  match t with [] => False | c :: _ => is_digit c = true end.
Proof.
  unfold int_part. destruct t as [|c t]; [discriminate|].
  decide_eqb c 48; [now subst|].
  destruct (is_digit c); [reflexivity | discriminate].
Qed.

Lemma number_shape_start (t : str) (b : bool) :
  number_shape t = Some b -> number_start t.
Proof.
  unfold number_shape, number_start. destruct t as [|c t]; [discriminate|].
  decide_eqb c 45.
  - destruct (int_part t) as [r|] eqn:Hi; [|discriminate].
    intros _. right. split; [exact E|]. exact (int_part_start _ _ Hi).
  - destruct (int_part (c :: t)) as [r|] eqn:Hi; [|discriminate].
    intros _. left. exact (int_part_start _ _ Hi).
Qed.

Lemma read_number_token (t rest : str) :
  forallb number_char t = true -> ends_token rest ->
  read_number (t ++ rest)
  = match number_shape t with
    | Some true => Some (JFloat t, rest)
    | Some false =>
        match int_value t with
        | Some z => Some (JInt z, rest)
        | None => None
        end
    | None => None
    end.
Proof.
  intros Ht Hr. unfold read_number. now rewrite (span_all _ _ _ Ht Hr).
Qed.

End JsonTextFacts.

(** ** Values *)

Module JsonValueFacts.
Import PyStr PyExc Json JsonText JsonTextFacts.
Open Scope N_scope.

(** Induction on a value, with the items of an array and the members of
    an object. *)
Lemma json_nested_ind (P : json -> Prop) :
  P JNull -> (forall b, P (JBool b)) -> (forall z, P (JInt z)) ->
  (forall t, P (JFloat t)) -> (forall s, P (JStr s)) ->
  (forall l, Forall P l -> P (JList l)) ->
  (forall d, Forall (fun kv : str * json => P (snd kv)) d -> P (JDict d)) ->
  forall v, P v.
Proof.
  intros Hnull Hbool Hint Hfloat Hstr Hlist Hdict.
  fix IH 1. intros [ |b|z|t|s|l|d].
  - exact Hnull.
  - apply Hbool.
  - apply Hint.
  - apply Hfloat.
  - apply Hstr.
  - apply Hlist. induction l as [|x l IHl]; constructor.
    + apply IH.
    + exact IHl.
  - apply Hdict. induction d as [|[k x] d IHd]; constructor.
    + apply IH.
    + exact IHd.
Qed.

Section Reading.
Variable indent : nat.

Lemma read_value_eq (fuel level : nat) (c : N) (r : str) :
  read_value indent (S fuel) level (c :: r)
  = if c =? 34 then
      match string_literal r with
      | Some (t, r') => Some (JStr t, r')
      | None => None
      end
    else if c =? 91 then
      match strip_prefix [93] r with
      | Some r' => Some (JList [], r')
      | None =>
          match strip_line_start indent (S level) r with
          | Some r1 =>
              match read_items indent fuel level r1 with
              | Some (l, r2) => Some (JList l, r2)
              | None => None
              end
          | None => None
          end
      end
    else if c =? 123 then
      match strip_prefix [125] r with
      | Some r' => Some (JDict [], r')
      | None =>
          match strip_line_start indent (S level) r with
          | Some r1 =>
              match read_members indent fuel level r1 with
              | Some (d, r2) => Some (JDict d, r2)
              | None => None
              end
          | None => None
          end
      end
    else if c =? 110 then literal "ull" JNull r
    else if c =? 116 then literal "rue" (JBool true) r
    else if c =? 102 then literal "alse" (JBool false) r
    else if c =? 78 then literal "aN" (JFloat (py "NaN")) r
    else if c =? 73 then literal "nfinity" (JFloat (py "Infinity")) r
    else
      match strip_prefix (py "-Infinity") (c :: r) with
      | Some r' => Some (JFloat (py "-Infinity"), r')
      | None => read_number (c :: r)
      end.
Proof. reflexivity. Qed.

Lemma read_items_eq (fuel level : nat) (s : str) :
  read_items indent (S fuel) level s
  = match read_value indent fuel (S level) s with
    | None => None
    | Some (x, r) =>
        match strip_prefix [44] r with
        | Some r0 =>
            match strip_line_start indent (S level) r0 with
            | Some r1 =>
                match read_items indent fuel level r1 with
                | Some (l, r2) => Some (x :: l, r2)
                | None => None
                end
            | None => None
            end
        | None =>
            match strip_line_start indent level r with
            | Some r1 =>
                match strip_prefix [93] r1 with
                | Some r2 => Some ([x], r2)
                | None => None
                end
            | None => None
            end
        end
    end.
Proof. reflexivity. Qed.

Lemma read_members_eq (fuel level : nat) (s : str) :
  read_members indent (S fuel) level s
  = match strip_prefix [34] s with
    | None => None
    | Some s1 =>
        match string_literal s1 with
        | None => None
        | Some (k, s2) =>
            match strip_prefix [58; 32] s2 with
            | None => None
            | Some s3 =>
                match read_value indent fuel (S level) s3 with
                | None => None
                | Some (x, r) =>
                    match strip_prefix [44] r with
                    | Some r0 =>
                        match strip_line_start indent (S level) r0 with
                        | Some r1 =>
                            match read_members indent fuel level r1 with
                            | Some (d, r2) => Some ((k, x) :: d, r2)
                            | None => None
                            end
                        | None => None
                        end
                    | None =>
                        match strip_line_start indent level r with
                        | Some r1 =>
                            match strip_prefix [125] r1 with
                            | Some r2 => Some ([(k, x)], r2)
                            | None => None
                            end
                        | None => None
                        end
                    end
                end
            end
        end
    end.
Proof. reflexivity. Qed.

(** A text that begins as a number is read as a number. *)
Lemma read_value_number (fuel level : nat) (t rest : str) :
  number_start t ->
  read_value indent (S fuel) level (t ++ rest) = read_number (t ++ rest).
Proof.
  destruct t as [|c r]; [contradiction|].
  intros [Hd | [-> Hr]]; cbn [app]; rewrite read_value_eq.
  - rewrite !(is_digit_not c _ Hd) by lia.
    change (py "-Infinity") with (45 :: py "Infinity").
    rewrite strip_prefix_head; [reflexivity|].
    apply (is_digit_not c 45) in Hd; [|lia].
    apply N.eqb_neq in Hd. congruence.
  - cbn [N.eqb Pos.eqb].
    destruct r as [|c1 r]; [contradiction|].
    change (py "-Infinity") with (45 :: 73 :: py "nfinity").
    cbn [app strip_prefix]. rewrite N.eqb_refl.
    apply (is_digit_not c1 73) in Hr; [|lia].
    rewrite N.eqb_sym in Hr. now rewrite Hr.
Qed.

Lemma reads_back_null : reads_back indent JNull.
Proof.
  intros [|fuel] level rest Hf _; [cbn in Hf; lia | reflexivity].
Qed.

Lemma reads_back_bool (b : bool) : reads_back indent (JBool b).
Proof.
  intros [|fuel] level rest Hf _; [cbn in Hf; lia|].
  destruct b; reflexivity.
Qed.

Lemma reads_back_int (z : Z) : reads_back indent (JInt z).
Proof.
  intros [|fuel] level rest Hf Hr; [cbn in Hf; lia|].
  cbn [iterencode]. destruct (of_Z_shape z) as [Hc Hs].
  rewrite read_value_number by exact (number_shape_start _ _ Hs).
  rewrite (read_number_token _ _ Hc Hr), Hs, of_Z_value. reflexivity.
Qed.

Lemma reads_back_float (t : str) :
  is_float_text t = true -> reads_back indent (JFloat t).
Proof.
  intros Ht [|fuel] level rest Hf Hr; [cbn in Hf; lia|].
  cbn [iterencode]. unfold is_float_text in Ht.
  rewrite !orb_true_iff, !str_eqb_true, andb_true_iff in Ht.
  destruct Ht as [[[-> | ->] | ->] | [Hc Hs]]; try reflexivity.
  destruct (number_shape t) as [[|]|] eqn:Hn; try discriminate.
  rewrite read_value_number by exact (number_shape_start _ _ Hn).
  now rewrite (read_number_token _ _ Hc Hr), Hn.
Qed.

Lemma reads_back_str (s : str) :
  text_ok s = true -> reads_back indent (JStr s).
Proof.
  intros Hs [|fuel] level rest Hf _; [cbn in Hf; lia|].
  cbn [iterencode]. unfold encode_basestring_ascii.
  rewrite <- !app_assoc. cbn [app]. rewrite read_value_eq.
  cbn [N.eqb Pos.eqb]. now rewrite (string_literal_written s rest Hs).
Qed.


Lemma ends_token_newline (level : nat) (x : str) :
  ends_token (newline_indent indent level ++ x).
Proof. reflexivity. Qed.

Lemma ends_token_comma (x : str) : ends_token (44 :: x).
Proof. reflexivity. Qed.

(** What is written at the start of a line is what the reader takes
    there. *)
Lemma strip_line_start_written (level : nat) (x : str) :
  strip_line_start indent level (newline_indent indent level ++ x)
  = Some x.
Proof.
  unfold strip_line_start, newline_indent. cbn [app]. rewrite N.eqb_refl.
  apply strip_spaces_written.
Qed.

Lemma strip_comma_line (level : nat) (x : str) :
  strip_prefix [44] ((44 :: newline_indent indent level) ++ x)
  = Some (newline_indent indent level ++ x).
Proof. reflexivity. Qed.

Lemma strip_char_newline (c : N) (level : nat) (x : str) :
  c <> 10 -> strip_prefix [c] (newline_indent indent level ++ x) = None.
Proof. intros H. now apply strip_prefix_head. Qed.

(** The items of an array that is not empty. *)
Lemma read_items_written (l : list json) :
  l <> [] -> Forall (reads_back indent) l ->
  forall fuel level rest,
    (list_sum (map (fun x => S (size x)) l) <= fuel)%nat ->
    read_items indent fuel level
      (join (py "," ++ newline_indent indent (S level))
         (map (iterencode indent (S level)) l)
       ++ newline_indent indent level ++ py "]" ++ rest)
    = Some (l, rest).
Proof.
  change (py "," ++ newline_indent indent ?k)
    with (44 :: newline_indent indent k).
  induction l as [|x l IH]; [congruence|].
  intros _ Hall fuel level rest Hf.
  inversion Hall as [|? ? Hx Hl]; subst.
  cbn [map] in Hf.
  change (list_sum (?a :: ?m)) with (a + list_sum m)%nat in Hf.
  destruct fuel as [|fuel]; [lia|]. rewrite read_items_eq.
  destruct l as [|y l].
  - cbn [map join].
    rewrite (Hx fuel (S level)); [|lia | apply ends_token_newline].
    rewrite strip_char_newline by discriminate.
    rewrite strip_line_start_written.
    change (py "]" ++ rest) with ([93] ++ rest).
    rewrite strip_prefix_app. reflexivity.
  - change (join ?sep (map ?f (x :: y :: l)))
      with (f x ++ sep ++ join sep (map f (y :: l))).
    rewrite <- !app_assoc.
    rewrite (Hx fuel (S level)); [|lia | apply ends_token_comma].
    rewrite strip_comma_line, strip_line_start_written.
    rewrite IH; [reflexivity | discriminate | exact Hl | lia].
Qed.

Lemma reads_back_list (l : list json) :
  Forall (reads_back indent) l -> reads_back indent (JList l).
Proof.
  intros Hall [|fuel] level rest Hf _; [cbn in Hf; lia|].
  destruct l as [|x l]; [reflexivity|].
  cbn [iterencode]. rewrite <- !app_assoc.
  change (py "[" ++ ?z) with (91 :: z). rewrite read_value_eq.
  cbn [N.eqb Pos.eqb]. rewrite strip_char_newline by discriminate.
  rewrite strip_line_start_written.
  rewrite (read_items_written (x :: l)); [reflexivity | discriminate
                                          | exact Hall |].
  cbn [size] in Hf. lia.
Qed.

(** The members of an object that is not empty. *)
Lemma read_members_written (d : list (str * json)) :
  d <> [] ->
  Forall (fun kv : str * json =>
            text_ok (fst kv) = true /\ reads_back indent (snd kv)) d ->
  forall fuel level rest,
    (list_sum (map (fun kv : str * json => S (size (snd kv))) d) <= fuel)%nat ->
    read_members indent fuel level
      (join (py "," ++ newline_indent indent (S level))
         (map (fun kv : str * json =>
                 let (k, x) := kv in
                 encode_basestring_ascii k ++ py ": "
                   ++ iterencode indent (S level) x) d)
       ++ newline_indent indent level ++ py "}" ++ rest)
    = Some (d, rest).
Proof.
  change (py "," ++ newline_indent indent ?k)
    with (44 :: newline_indent indent k).
  induction d as [|[k x] d IH]; [congruence|].
  intros _ Hall fuel level rest Hf.
  inversion Hall as [|? ? [Hk Hx] Hd]; subst. cbn [fst snd] in Hk, Hx.
  cbn [map snd] in Hf.
  change (list_sum (?a :: ?m)) with (a + list_sum m)%nat in Hf.
  destruct fuel as [|fuel]; [lia|]. rewrite read_members_eq.
  destruct d as [|y d].
  - cbn [map join]. unfold encode_basestring_ascii.
    rewrite <- !app_assoc. rewrite strip_prefix_app.
    change ([34] ++ ?z) with (34 :: z).
    rewrite (string_literal_written k _ Hk).
    change (py ": " ++ ?z) with ([58; 32] ++ z). rewrite strip_prefix_app.
    rewrite (Hx fuel (S level)); [|lia | apply ends_token_newline].
    rewrite strip_char_newline by discriminate.
    rewrite strip_line_start_written.
    change (py "}" ++ rest) with ([125] ++ rest).
    rewrite strip_prefix_app. reflexivity.
  - change (join ?sep (map ?f ((k, x) :: y :: d)))
      with (f (k, x) ++ sep ++ join sep (map f (y :: d))).
    cbv beta iota. unfold encode_basestring_ascii at 1.
    rewrite <- !app_assoc. rewrite strip_prefix_app.
    change ([34] ++ ?z) with (34 :: z).
    rewrite (string_literal_written k _ Hk).
    change (py ": " ++ ?z) with ([58; 32] ++ z). rewrite strip_prefix_app.
    rewrite (Hx fuel (S level)); [|lia | apply ends_token_comma].
    rewrite strip_comma_line, strip_line_start_written.
    rewrite IH; [reflexivity | discriminate | exact Hd | lia].
Qed.

Lemma reads_back_dict (d : list (str * json)) :
  Forall (fun kv : str * json =>
            text_ok (fst kv) = true /\ reads_back indent (snd kv)) d ->
  reads_back indent (JDict d).
Proof.
  intros Hall [|fuel] level rest Hf _; [cbn in Hf; lia|].
  destruct d as [|kx d]; [reflexivity|].
  cbn [iterencode]. rewrite <- !app_assoc.
  change (py "{" ++ ?z) with (123 :: z). rewrite read_value_eq.
  cbn [N.eqb Pos.eqb]. rewrite strip_char_newline by discriminate.
  rewrite strip_line_start_written.
  rewrite (read_members_written (kx :: d)); [reflexivity | discriminate
                                             | exact Hall |].
  cbn [size] in Hf. lia.
Qed.

(** Every value that reading JSON can build is read back from the text
    written for it. *)
Lemma loadable_reads_back (v : json) :
  loadable v = true -> reads_back indent v.
Proof.
  induction v as [ |b|z|t|s|l IH|d IH] using json_nested_ind; intros Hv.
  - apply reads_back_null.
  - apply reads_back_bool.
  - apply reads_back_int.
  - now apply reads_back_float.
  - now apply reads_back_str.
  - apply reads_back_list. cbn [loadable] in Hv.
    rewrite forallb_forall in Hv. rewrite Forall_forall in *.
    intros x Hx. apply IH; [exact Hx | now apply Hv].
  - apply reads_back_dict. cbn [loadable] in Hv.
    rewrite forallb_forall in Hv. rewrite Forall_forall in *.
    intros kv Hkv. specialize (Hv kv Hkv). apply andb_true_iff in Hv.
    split; [apply Hv | apply IH; [exact Hkv | apply Hv]].
Qed.


(** ** Enough fuel *)

Lemma join_items_length (A : Type) (m : A -> nat) (f : A -> str) (sep : str)
      (l : list A) :
  (1 <= List.length sep)%nat ->
  Forall (fun a => (m a <= List.length (f a))%nat) l ->
  (list_sum (map (fun a => S (m a)) l)
   <= List.length (join sep (map f l)) + 1)%nat.
Proof.
  intros Hsep. induction 1 as [|a l Ha Hl IH]; [cbn; lia|].
  cbn [map]. change (list_sum (?a :: ?m)) with (a + list_sum m)%nat.
  destruct l as [|b l].
  - cbn [map join]. change (list_sum []) with 0%nat. lia.
  - change (join sep (f a :: map f (b :: l)))
      with (f a ++ sep ++ join sep (map f (b :: l))).
    rewrite !length_app. lia.
Qed.

Lemma between_brackets (a b j : nat) :
  (1 <= a -> 1 <= b -> S (j + 1) <= 1 + (a + (j + (b + 1))))%nat.
Proof. lia. Qed.

Lemma newline_indent_length (level : nat) :
  (1 <= List.length (newline_indent indent level))%nat.
Proof. unfold newline_indent. cbn [List.length]. lia. Qed.

Lemma float_text_nonempty (t : str) : is_float_text t = true -> t <> [].
Proof. intros H ->. discriminate H. Qed.

Lemma size_le_length (v : json) :
  loadable v = true ->
  forall level,
    (size v <= List.length (iterencode indent level v))%nat.
Proof.
  induction v as [ |b|z|t|s|l IH|d IH] using json_nested_ind;
    intros Hv level.
  - cbv. lia.
  - destruct b; cbv; lia.
  - cbn [size iterencode].
    destruct (of_Z_numeral z) as (t & Ht & [-> | ->]).
    + destruct (numeral_head t Ht) as (c & r & -> & _). cbn. lia.
    + cbn. lia.
  - cbn [size iterencode]. apply float_text_nonempty in Hv.
    destruct t; [congruence | cbn; lia].
  - cbn [size iterencode]. unfold encode_basestring_ascii.
    rewrite !length_app. cbn [List.length]. lia.
  - destruct l as [|x l]; [cbv; lia|].
    cbn [loadable] in Hv. rewrite forallb_forall in Hv.
    assert (Hall : Forall (fun a => (size a
                     <= List.length (iterencode indent (S level) a))%nat)
                     (x :: l)).
    { rewrite Forall_forall in *. intros a Ha.
      apply IH; [exact Ha | now apply Hv]. }
    pose proof (join_items_length json size (iterencode indent (S level))
                  (py "," ++ newline_indent indent (S level)) (x :: l))
      as Hj.
    cbn [size iterencode]. rewrite !length_app.
    pose proof (newline_indent_length (S level)).
    pose proof (newline_indent_length level).
    change (List.length (py "[")) with 1%nat.
    change (List.length (py "]")) with 1%nat.
    rewrite length_app in Hj. change (List.length (py ",")) with 1%nat in Hj.
    specialize (Hj ltac:(lia) Hall). lia.
  - destruct d as [|kx d]; [cbv; lia|].
    cbn [loadable] in Hv. rewrite forallb_forall in Hv.
    set (f := fun kv : str * json =>
                let (k, x) := kv in
                encode_basestring_ascii k ++ py ": "
                  ++ iterencode indent (S level) x).
    assert (Hall : Forall (fun a : str * json =>
                     (size (snd a) <= List.length (f a))%nat) (kx :: d)).
    { rewrite Forall_forall in *. intros [k a] Ha. cbn [snd]. unfold f.
      rewrite !length_app.
      specialize (IH (k, a) Ha). cbn [snd] in IH.
      specialize (Hv (k, a) Ha). apply andb_true_iff in Hv.
      specialize (IH (proj2 Hv) (S level)). lia. }
    pose proof (join_items_length (str * json) (fun kv => size (snd kv)) f
                  (py "," ++ newline_indent indent (S level)) (kx :: d))
      as Hj.
    cbn [size iterencode]. fold f. rewrite !length_app.
    pose proof (newline_indent_length (S level)).
    pose proof (newline_indent_length level).
    change (List.length (py "{")) with 1%nat.
    change (List.length (py "}")) with 1%nat.
    rewrite length_app in Hj. change (List.length (py ",")) with 1%nat in Hj.
    specialize (Hj ltac:(lia) Hall). apply le_n_S in Hj.
    eapply Nat.le_trans; [exact Hj|]. now apply between_brackets.
Qed.

(** The text [json.dumps] writes with an indentation is the value,
    pretty-printed with that indentation. *)
Lemma read_pretty_dumps (v : json) :
  loadable v = true -> read_pretty indent (dumps v indent) = Some v.
Proof.
  intros Hv. unfold read_pretty, dumps.
  pose proof (loadable_reads_back v Hv
                (S (List.length (iterencode indent 0 v))) 0%nat [])
    as Hr.
  rewrite List.app_nil_r in Hr. rewrite Hr; [reflexivity| |exact I].
  pose proof (size_le_length v Hv 0%nat). lia.
Qed.

End Reading.
End JsonValueFacts.

(* ================================================================== *)
(** * The generic tester: inputs, requests and results *)
(* ================================================================== *)

Module TesterFacts.
Import PyStr PyExc Requests Notions RequestFacts.

Section Tester.
Variable check_netloc : str -> option str.
Variable net : network.

Let make_api_request := Temp.make_api_request check_netloc net.
Let build_final_url := Temp.build_final_url check_netloc.

(** Once the URL is built, exactly one request is issued, against it. *)
Lemma make_api_request_log base api name final st :
  base <> [] ->
  build_final_url base api name = inl final ->
  net_log (snd (make_api_request (Some base) api name st))
  = net_log st ++ [mkRequest final 10 false].
Proof.
  intros Hb Hf. destruct base as [|c u]; [congruence|].
  unfold make_api_request, Temp.make_api_request.
  fold build_final_url. rewrite Hf. run_body.
  destruct (net _) as [r | rb msg].
  - destruct (raise_for_status r) as [[]|e].
    + destruct (json r) as [v|e]; dispatch; reflexivity.
    + dispatch; reflexivity.
  - destruct rb; reflexivity.
Qed.

Lemma build_final_url_missing base api name :
  missing api \/ missing name -> build_final_url base api name = inl base.
Proof.
  unfold missing, build_final_url, Temp.build_final_url.
  intros [[->| ->]|[->| ->]]; try reflexivity;
    destruct api as [[|? ?]|]; reflexivity.
Qed.

(** The result when the response passes [raise_for_status]. *)
Lemma make_api_request_passed base api name final st r :
  base <> [] ->
  build_final_url base api name = inl final ->
  net (mkRequest final 10 false) = Returned r ->
  status_passes (status_code r) ->
  fst (make_api_request (Some base) api name st)
  = match json r with
    | inl v => inl (true, Json.dumps v 2)
    | inr e =>
        if isinstance e RequestException
        then inl (false, Temp.network_error_text e final)
        else if isinstance e JSONDecodeError
        then inl (false,
                  Temp.unreadable_text final (slice_to 500 (text r)))
        else inl (false, py "An unexpected internal error occurred: "
                           ++ exn_str e)
    end.
Proof.
  intros Hb Hf Hn Hs. destruct base as [|c u]; [congruence|].
  unfold make_api_request, Temp.make_api_request.
  fold build_final_url. rewrite Hf. run_body. rewrite Hn.
  rewrite (raise_for_status_passes _ Hs).
  destruct (json r) as [v|e]; [reflexivity|].
  cbn. unfold isinstance.
  destruct (existsb (pyclass_eqb RequestException) (exn_classes e));
    [reflexivity|].
  destruct (existsb (pyclass_eqb JSONDecodeError) (exn_classes e));
    reflexivity.
Qed.
End Tester.

(** C7: with an empty (or missing) base URL [make_api_request] returns the
    failure "API URL cannot be empty." and with an empty (or missing) key
    [validate_api_key] returns the failure "API Key cannot be empty."; in
    both cases the state is left as it was: no request is logged, whatever
    the other arguments and the network are. *)
Theorem empty_input_fails_without_request :
  forall ul chk net api name st,
    Temp.make_api_request chk net (Some []) api name st
    = (inl (false, py "API URL cannot be empty."), st)
    /\ Temp.make_api_request chk net None api name st
       = (inl (false, py "API URL cannot be empty."), st)
    /\ Main.validate_api_key ul net (Some []) st
       = (inl (false, py "API Key cannot be empty."), st)
    /\ Main.validate_api_key ul net None st
       = (inl (false, py "API Key cannot be empty."), st).
Proof. intros; repeat split; reflexivity. Qed.

(** C4: when the API key or the name of the key parameter is empty or
    missing, the URL builder returns the base URL as it is, and the one
    request [make_api_request] issues goes to the base URL itself (none is
    issued when the base URL is empty). *)
Theorem builder_identity_without_key :
  forall chk net base api name st,
    missing api \/ missing name ->
    Temp.build_final_url chk base api name = inl base
    /\ net_log (snd (Temp.make_api_request chk net (Some base) api name st))
       = net_log st
           ++ (if nonempty base then [mkRequest base 10 false] else []).
Proof.
  intros chk net base api name st H.
  pose proof (build_final_url_missing chk base api name H) as Hb.
  split; [exact Hb|].
  destruct base as [|c u].
  - cbn. now rewrite app_nil_r.
  - apply make_api_request_log; [discriminate | exact Hb].
Qed.

Lemma builder_identity_without_key_witness :
  Temp.build_final_url Samples.accept_netloc
    (py "https://example.org/a?x=1") (Some []) (Some (py "appid"))
  = inl (py "https://example.org/a?x=1")
  /\ net_log (snd (Temp.make_api_request Samples.accept_netloc
                     (Samples.always Samples.ok_empty_object)
                     (Some (py "https://example.org/a?x=1")) (Some [])
                     (Some (py "appid")) Samples.empty_frame))
     = [mkRequest (py "https://example.org/a?x=1") 10 false].
Proof.
  apply (builder_identity_without_key Samples.accept_netloc
           (Samples.always Samples.ok_empty_object)
           (py "https://example.org/a?x=1") (Some []) (Some (py "appid"))
           Samples.empty_frame).
  left; right; reflexivity.
Defined.

(** C6: when the response passes [raise_for_status] and its body decodes
    as JSON, [make_api_request] returns success with a text [s], whatever
    the decoded value [v] is.  The text is what [json.dumps] writes for
    [v] with an indentation of two, and it is [v] pretty-printed with
    2-space indentation: read as JSON in that layout (every item and every
    member on a line of its own, two spaces deeper at each level) it gives
    [v] back, for every value that decoding JSON can build. *)
Theorem any_json_is_success :
  forall chk net base api name final st r v,
    base <> [] ->
    Temp.build_final_url chk base api name = inl final ->
    net (mkRequest final 10 false) = Returned r ->
    status_passes (status_code r) ->
    json r = inl v ->
    exists s,
      fst (Temp.make_api_request chk net (Some base) api name st)
      = inl (true, s)
      /\ s = Json.dumps v 2
      /\ (JsonText.loadable v = true -> JsonText.read_pretty 2 s = Some v).
Proof.
  intros chk net base api name final st r v Hb Hf Hn Hs Hj.
  exists (Json.dumps v 2). split; [|split].
  - rewrite (make_api_request_passed chk net base api name final st r)
      by assumption.
    now rewrite Hj.
  - reflexivity.
  - apply JsonValueFacts.read_pretty_dumps.
Qed.

Lemma any_json_is_success_witness :
  exists s,
    fst (Temp.make_api_request Samples.accept_netloc
           (Samples.always Samples.ok_forecast)
           (Some (py "https://example.org/a")) None None
           Samples.empty_frame)
    = inl (true, s)
    /\ s = Json.dumps Samples.forecast 2
    /\ JsonText.read_pretty 2 s = Some Samples.forecast.
Proof.
  destruct (any_json_is_success Samples.accept_netloc
              (Samples.always Samples.ok_forecast)
              (py "https://example.org/a") None None
              (py "https://example.org/a") Samples.empty_frame
              Samples.ok_forecast Samples.forecast)
    as (s & Hres & Hs & Hread).
  - discriminate.
  - reflexivity.
  - reflexivity.
  - left. vm_compute. reflexivity.
  - reflexivity.
  - exists s. split; [exact Hres|]. split; [exact Hs|].
    apply Hread. reflexivity.
Defined.

(** What [json.dumps] with an indentation of two writes for
    [{"a": [1, null], "b": {}}]: one member or item a line, two more
    spaces at each level, and empty containers on one line. *)
Example dumps_indent_two :
  Json.dumps
    (Json.JDict [(py "a", Json.JList [Json.JInt 1; Json.JNull]);
                 (py "b", Json.JDict [])]) 2
  = py "{" ++ [10%N]
      ++ py "  " ++ [34%N] ++ py "a" ++ [34%N] ++ py ": [" ++ [10%N]
      ++ py "    1," ++ [10%N]
      ++ py "    null" ++ [10%N]
      ++ py "  ]," ++ [10%N]
      ++ py "  " ++ [34%N] ++ py "b" ++ [34%N] ++ py ": {}" ++ [10%N]
      ++ py "}".
Proof. vm_compute. reflexivity. Qed.

(** The reader takes the layout with two spaces only: the same value
    written on one line, or with an indentation of four or of none, is
    refused, and so is a text that is no JSON. *)
Example read_pretty_layout :
  JsonText.read_pretty 2
    (py "{" ++ [10%N]
       ++ py "  " ++ [34%N] ++ py "a" ++ [34%N] ++ py ": [" ++ [10%N]
       ++ py "    1," ++ [10%N]
       ++ py "    null" ++ [10%N]
       ++ py "  ]" ++ [10%N]
       ++ py "}")
  = Some (Json.JDict [(py "a", Json.JList [Json.JInt 1; Json.JNull])])
  /\ JsonText.read_pretty 2
       (py "{" ++ [34%N] ++ py "a" ++ [34%N] ++ py ": [1, null]}") = None
  /\ JsonText.read_pretty 2
       (py "{" ++ [10%N]
          ++ py "    " ++ [34%N] ++ py "a" ++ [34%N] ++ py ": [" ++ [10%N]
          ++ py "        1," ++ [10%N]
          ++ py "        null" ++ [10%N]
          ++ py "    ]" ++ [10%N]
          ++ py "}") = None
  /\ JsonText.read_pretty 2
       (py "{" ++ [10%N]
          ++ [34%N] ++ py "a" ++ [34%N] ++ py ": [" ++ [10%N]
          ++ py "1," ++ [10%N]
          ++ py "null" ++ [10%N]
          ++ py "]" ++ [10%N]
          ++ py "}") = None
  /\ JsonText.read_pretty 2 (Json.dumps Samples.forecast 4) = None
  /\ JsonText.read_pretty 2 (Json.dumps Samples.forecast 0) = None
  /\ JsonText.read_pretty 2 (py "<html>error</html>") = None
  /\ JsonText.read_pretty 2 [] = None.
Proof. repeat split; vm_compute; reflexivity. Qed.

End TesterFacts.

(* ================================================================== *)
(** * The validator: how a response is classified *)
(* ================================================================== *)

Module ValidatorFacts.
Import PyStr PyExc Requests Notions RequestFacts StrFacts.

Section Validator.
Variable unicode_lower : str -> str -> N -> str.
Variable net : network.

Let validate_api_key := Main.validate_api_key unicode_lower net.
Let message_of := Main.message_of unicode_lower.

(** A status of 4xx or 5xx ends in the handler of [RequestException],
    whatever the body says. *)
Lemma validate_api_key_http_error key st r :
  key <> [] ->
  net (mkRequest (Main.test_url key) 5 false) = Returned r ->
  ~ status_passes (status_code r) ->
  exists e,
    raise_for_status r = inr e
    /\ fst (validate_api_key (Some key) st)
       = inl (false,
              py "Network or API communication error: " ++ exn_str e
                ++ py ". Check internet, API key, or try again later.").
Proof.
  intros Hk Hn Hs. destruct key as [|c k]; [congruence|].
  destruct (raise_for_status_raises r Hs) as (e & He & Hi).
  exists e; split; [exact He|].
  unfold validate_api_key. run_body. rewrite Hn, He.
  cbn. unfold isinstance in Hi. rewrite Hi. reflexivity.
Qed.

(** A response that passes [raise_for_status] and decodes to a value with
    a message is classified by [classify]. *)
Lemma validate_api_key_classified key st r v m :
  key <> [] ->
  net (mkRequest (Main.test_url key) 5 false) = Returned r ->
  status_passes (status_code r) ->
  json r = inl v ->
  message_of v = inl m ->
  fst (validate_api_key (Some key) st)
  = inl (Main.classify m (status_code r)).
Proof.
  intros Hk Hn Hs Hj Hm. destruct key as [|c k]; [congruence|].
  unfold validate_api_key. run_body.
  rewrite Hn, (raise_for_status_passes _ Hs), Hj.
  fold message_of. rewrite Hm. reflexivity.
Qed.

(** A body that does not decode. *)
Lemma validate_api_key_undecoded key st r e :
  key <> [] ->
  net (mkRequest (Main.test_url key) 5 false) = Returned r ->
  status_passes (status_code r) ->
  json r = inr e ->
  fst (validate_api_key (Some key) st)
  = if isinstance e RequestException
    then inl (false,
              py "Network or API communication error: " ++ exn_str e
                ++ py ". Check internet, API key, or try again later.")
    else if isinstance e JSONDecodeError
    then inl (false,
              py "API returned unreadable data (not valid JSON format).")
    else inl (false, py "An unexpected internal error occurred: "
                       ++ exn_str e).
Proof.
  intros Hk Hn Hs Hj. destruct key as [|c k]; [congruence|].
  unfold validate_api_key. run_body.
  rewrite Hn, (raise_for_status_passes _ Hs), Hj.
  cbn. unfold isinstance.
  destruct (existsb (pyclass_eqb RequestException) (exn_classes e));
    [reflexivity|].
  destruct (existsb (pyclass_eqb JSONDecodeError) (exn_classes e));
    reflexivity.
Qed.

Lemma message_of_str d m :
  Urllib.dict_get d (py "message") = Some (Json.JStr m) ->
  message_of (Json.JDict d) = inl (lower unicode_lower m).
Proof.
  intros H. unfold message_of, Main.message_of, Json.get. now rewrite H.
Qed.

(** The branch of the expected "city not found" answer is never taken:
    its status, 404, does not pass [raise_for_status]. *)
Lemma city_not_found_branch_unreachable api st :
  fst (validate_api_key api st)
  <> inl (true, py "API Key is valid. (Test city not found as expected).").
Proof.
  destruct api as [[|c k]|]; [discriminate | | discriminate].
  unfold validate_api_key. run_body.
  destruct (net _) as [r | rb msg].
  - destruct (raise_for_status r) as [[]|e] eqn:Er.
    + destruct (json r) as [v|e].
      * destruct (Main.message_of unicode_lower v) as [m|e].
        -- cbn. unfold Main.classify.
           destruct (py_in _ m); [discriminate|].
           destruct (py_in _ m); cbn.
           ++ destruct (status_code r =? 404)%Z eqn:E404.
              ** apply Z.eqb_eq in E404. unfold raise_for_status in Er.
                 rewrite E404 in Er. discriminate.
              ** destruct (status_code r =? 200)%Z; discriminate.
           ++ destruct (status_code r =? 200)%Z; discriminate.
        -- dispatch; discriminate.
      * dispatch; discriminate.
    + dispatch; discriminate.
  - destruct rb; discriminate.
Qed.
End Validator.

(** C1 (as the code has it): a response with status 401 never reaches the
    inspection of its body: [raise_for_status] raises and the result is the
    failure "Network or API communication error: 401 Client Error: ...".
    A response that passes [raise_for_status] and whose message contains
    "invalid api key" once lower-cased yields the failure "Invalid API
    Key: ...", whatever its status is. *)
Theorem invalid_key_message_before_status :
  forall ul net key st r,
    key <> [] ->
    net (mkRequest (Main.test_url key) 5 false) = Returned r ->
    (status_code r = 401%Z ->
     fst (Main.validate_api_key ul net (Some key) st)
     = inl (false,
            py "Network or API communication error: "
              ++ (py "401 Client Error: " ++ reason r ++ py " for url: "
                    ++ url r)
              ++ py ". Check internet, API key, or try again later."))
    /\ (status_passes (status_code r) ->
        forall d m,
          json r = inl (Json.JDict d) ->
          Urllib.dict_get d (py "message") = Some (Json.JStr m) ->
          py_in (py "invalid api key") (lower ul m) = true ->
          fst (Main.validate_api_key ul net (Some key) st)
          = inl (false,
                 py "Invalid API Key: OpenWeatherMap service explicitly says key is invalid.")).
Proof.
  intros ul net key st r Hk Hn; split.
  - intros H401.
    destruct (validate_api_key_http_error ul net key st r Hk Hn)
      as (e & He & ->).
    { unfold status_passes; lia. }
    unfold raise_for_status in He. rewrite H401 in He. cbn in He.
    injection He as <-. reflexivity.
  - intros Hs d m Hj Hd Hin.
    rewrite (validate_api_key_classified ul net key st r (Json.JDict d)
               (lower ul m)); try assumption.
    + unfold Main.classify. now rewrite Hin.
    + now apply message_of_str.
Qed.

Lemma invalid_key_message_before_status_witness :
  fst (Main.validate_api_key Samples.keep_case
         (Samples.always Samples.unauthorized) (Some (py "abc"))
         Samples.empty_frame)
  = inl (false,
         py "Network or API communication error: 401 Client Error: Unauthorized for url: https://api.openweathermap.org/. Check internet, API key, or try again later.")
  /\ fst (Main.validate_api_key Samples.keep_case
            (Samples.always Samples.ok_invalid_key) (Some (py "abc"))
            Samples.empty_frame)
     = inl (false,
            py "Invalid API Key: OpenWeatherMap service explicitly says key is invalid.").
Proof.
  split.
  - apply (invalid_key_message_before_status Samples.keep_case
             (Samples.always Samples.unauthorized) (py "abc")
             Samples.empty_frame Samples.unauthorized);
      [discriminate | reflexivity | reflexivity].
  - apply (invalid_key_message_before_status Samples.keep_case
             (Samples.always Samples.ok_invalid_key) (py "abc")
             Samples.empty_frame Samples.ok_invalid_key)
      with (d := [(py "cod", Json.JInt 200);
                  (py "message", Json.JStr (py "Invalid API key"))])
           (m := py "Invalid API key");
      [discriminate | reflexivity | left; vm_compute; reflexivity
       | reflexivity | reflexivity | reflexivity].
Defined.

(** C1, as stated, fails: the body says "Invalid API key" and the status
    is 401, yet the result is not the invalid-key failure. *)
Lemma unauthorized_is_not_invalid_key :
  status_code Samples.unauthorized = 401%Z
  /\ Main.message_of Samples.keep_case
       (Samples.owm_body 401 "Invalid API key")
     = inl (py "invalid api key")
  /\ json Samples.unauthorized
     = inl (Samples.owm_body 401 "Invalid API key")
  /\ exists s,
       fst (Main.validate_api_key Samples.keep_case
              (Samples.always Samples.unauthorized) (Some (py "abc"))
              Samples.empty_frame) = inl (false, s)
       /\ startswith (py "Invalid API Key:") s = false
       /\ startswith (py "Network or API communication error:") s = true.
Proof.
  repeat split; try reflexivity.
  eexists; repeat split; vm_compute; reflexivity.
Qed.

(** C2, at the answer OpenWeatherMap gives for an unknown city with a
    valid key: the status is 404, the message is "city not found", and the
    validator reports a communication error instead of a valid key. *)
Theorem city_not_found_is_reported_as_failure :
  status_code Samples.city_not_found = 404%Z
  /\ Main.message_of Samples.keep_case
       (Samples.owm_body 404 "city not found")
     = inl (py "city not found")
  /\ fst (Main.validate_api_key Samples.keep_case
            (Samples.always Samples.city_not_found) (Some (py "abc"))
            Samples.empty_frame)
     = inl (false,
            py "Network or API communication error: 404 Client Error: Not Found for url: https://api.openweathermap.org/. Check internet, API key, or try again later.").
Proof. repeat split; vm_compute; reflexivity. Qed.

End ValidatorFacts.

(* ================================================================== *)
(** * Bodies that are no JSON, and the case of the message *)
(* ================================================================== *)

Module BodyFacts.
Import PyStr PyExc Requests Notions RequestFacts StrFacts.
Import TesterFacts ValidatorFacts.

(** With a [requests] whose [response.json()] raises an exception that is
    both a [RequestException] and a [json.JSONDecodeError], the first
    handler of either function answers. *)
Lemma decode_error_as_request_exception ul chk net key base api name final
      st r1 r2 e1 e2 :
  key <> [] -> base <> [] ->
  Temp.build_final_url chk base api name = inl final ->
  net (mkRequest (Main.test_url key) 5 false) = Returned r1 ->
  net (mkRequest final 10 false) = Returned r2 ->
  status_passes (status_code r1) -> status_passes (status_code r2) ->
  json r1 = inr e1 -> json r2 = inr e2 ->
  isinstance e1 RequestException = true ->
  isinstance e2 RequestException = true ->
  fst (Main.validate_api_key ul net (Some key) st)
  = inl (false,
         py "Network or API communication error: " ++ exn_str e1
           ++ py ". Check internet, API key, or try again later.")
  /\ fst (Temp.make_api_request chk net (Some base) api name st)
     = inl (false, Temp.network_error_text e2 final).
Proof.
  intros Hk Hb Hf Hn1 Hn2 Hs1 Hs2 Hj1 Hj2 Hi1 Hi2; split.
  - rewrite (validate_api_key_undecoded ul net key st r1 e1) by assumption.
    now rewrite Hi1.
  - rewrite (make_api_request_passed chk net base api name final st r2)
      by assumption.
    now rewrite Hj2, Hi2.
Qed.

(** C5 (what the code does): when the response passes
    [raise_for_status] and its body is no JSON, [response.json()] raises
    the [JSONDecodeError] of [requests], which is a [RequestException].
    In both functions the handler of [RequestException] is listed first,
    so both return the failure of a network error, with the text of the
    exception: neither result is the "API returned unreadable data"
    failure of the [json.JSONDecodeError] handler, and the body of the
    response is not looked at. *)
Theorem non_json_body_is_reported_as_network_error :
  forall ul chk net key base api name final st r1 r2 m1 m2,
    key <> [] -> base <> [] ->
    Temp.build_final_url chk base api name = inl final ->
    net (mkRequest (Main.test_url key) 5 false) = Returned r1 ->
    net (mkRequest final 10 false) = Returned r2 ->
    status_passes (status_code r1) -> status_passes (status_code r2) ->
    json r1 = inr (json_decode_error m1) ->
    json r2 = inr (json_decode_error m2) ->
    exists s1 s2,
      fst (Main.validate_api_key ul net (Some key) st) = inl (false, s1)
      /\ fst (Temp.make_api_request chk net (Some base) api name st)
         = inl (false, s2)
      /\ s1 = py "Network or API communication error: " ++ m1
               ++ py ". Check internet, API key, or try again later."
      /\ s2 = Temp.network_error_text (json_decode_error m2) final
      /\ startswith (py "Network or HTTP error: " ++ m2) s2 = true
      /\ startswith (py "API returned unreadable data") s1 = false
      /\ startswith (py "API returned unreadable data") s2 = false
      /\ s2 <> Temp.unreadable_text final (slice_to 500 (text r2)).
Proof.
  intros ul chk net key base api name final st r1 r2 m1 m2
         Hk Hb Hf Hn1 Hn2 Hs1 Hs2 Hj1 Hj2.
  destruct (decode_error_as_request_exception ul chk net key base api name
              final st r1 r2 _ _ Hk Hb Hf Hn1 Hn2 Hs1 Hs2 Hj1 Hj2
              eq_refl eq_refl) as [H1 H2].
  do 2 eexists. split; [exact H1|]. split; [exact H2|].
  split; [reflexivity|]. split; [reflexivity|].
  split; [|split; [|split]].
  - unfold Temp.network_error_text. cbn [exn_str json_decode_error].
    rewrite (app_assoc _ m2). apply startswith_app.
  - reflexivity.
  - reflexivity.
  - intros H.
    apply (f_equal (startswith (py "API returned unreadable data"))) in H.
    discriminate H.
Qed.

Lemma non_json_body_is_reported_as_network_error_witness :
  exists s1 s2,
    fst (Main.validate_api_key Samples.keep_case
           (Samples.always Samples.html_page) (Some (py "abc"))
           Samples.empty_frame) = inl (false, s1)
    /\ fst (Temp.make_api_request Samples.accept_netloc
              (Samples.always Samples.html_page)
              (Some (py "https://example.org/")) None None
              Samples.empty_frame) = inl (false, s2)
    /\ s1 = py "Network or API communication error: "
             ++ py "Expecting value: line 1 column 1 (char 0)"
             ++ py ". Check internet, API key, or try again later."
    /\ s2 = Temp.network_error_text Samples.expecting_value
              (py "https://example.org/")
    /\ startswith (py "Network or HTTP error: "
                     ++ py "Expecting value: line 1 column 1 (char 0)") s2
       = true
    /\ startswith (py "API returned unreadable data") s1 = false
    /\ startswith (py "API returned unreadable data") s2 = false
    /\ s2 <> Temp.unreadable_text (py "https://example.org/")
               (slice_to 500 (text Samples.html_page)).
Proof.
  apply (non_json_body_is_reported_as_network_error Samples.keep_case
           Samples.accept_netloc (Samples.always Samples.html_page)
           (py "abc") (py "https://example.org/") None None
           (py "https://example.org/") Samples.empty_frame
           Samples.html_page Samples.html_page);
    try discriminate; try reflexivity;
    left; vm_compute; reflexivity.
Defined.

(** At the page of the claim, HTTP 200 with the body
    [<html>error</html>], neither answer holds anything of the body. *)
Example html_page_is_not_quoted :
  status_code Samples.html_page = 200%Z
  /\ text Samples.html_page = py "<html>error</html>"
  /\ exists s1 s2,
       fst (Main.validate_api_key Samples.keep_case
              (Samples.always Samples.html_page) (Some (py "abc"))
              Samples.empty_frame) = inl (false, s1)
       /\ fst (Temp.make_api_request Samples.accept_netloc
                 (Samples.always Samples.html_page)
                 (Some (py "https://example.org/")) None None
                 Samples.empty_frame) = inl (false, s2)
       /\ py_in (py "<html>") s1 = false
       /\ py_in (py "<html>") s2 = false
       /\ py_in (py "unreadable data") s1 = false
       /\ py_in (py "unreadable data") s2 = false.
Proof.
  repeat split.
  do 2 eexists; repeat split; vm_compute; reflexivity.
Qed.

(** C10: the message is lower-cased before the two substring tests.  In a
    response that passes [raise_for_status], a message that holds
    "invalid api key" in any casing yields the invalid-key failure, and a
    message that holds "city not found" in any casing makes the test
    ["city not found" in message] true. *)
Theorem message_tests_ignore_case :
  forall ul net key st r d m a t b,
    key <> [] ->
    net (mkRequest (Main.test_url key) 5 false) = Returned r ->
    status_passes (status_code r) ->
    json r = inl (Json.JDict d) ->
    Urllib.dict_get d (py "message") = Some (Json.JStr m) ->
    m = a ++ t ++ b ->
    (casing_of (py "invalid api key") t ->
     fst (Main.validate_api_key ul net (Some key) st)
     = inl (false,
            py "Invalid API Key: OpenWeatherMap service explicitly says key is invalid."))
    /\ (casing_of (py "city not found") t ->
        exists message,
          Main.message_of ul (Json.JDict d) = inl message
          /\ py_in (py "city not found") message = true).
Proof.
  intros ul net key st r d m a t b Hk Hn Hs Hj Hd ->; split; intros Ht.
  - rewrite (validate_api_key_classified ul net key st r (Json.JDict d)
               (lower ul (a ++ t ++ b))); try assumption.
    + unfold Main.classify.
      rewrite (lower_contains_casing ul (py "invalid api key") a t b);
        [reflexivity | reflexivity | exact Ht].
    + now apply message_of_str.
  - exists (lower ul (a ++ t ++ b)). split.
    + now apply message_of_str.
    + apply lower_contains_casing; [reflexivity | exact Ht].
Qed.

Lemma message_tests_ignore_case_witness :
  fst (Main.validate_api_key Samples.keep_case
         (Samples.always Samples.ok_invalid_key) (Some (py "abc"))
         Samples.empty_frame)
  = inl (false,
         py "Invalid API Key: OpenWeatherMap service explicitly says key is invalid.")
  /\ exists message,
       Main.message_of Samples.keep_case
         (Json.JDict [(py "message", Json.JStr (py "City Not Found!"))])
       = inl message
       /\ py_in (py "city not found") message = true.
Proof.
  split.
  - apply (message_tests_ignore_case Samples.keep_case
             (Samples.always Samples.ok_invalid_key) (py "abc")
             Samples.empty_frame Samples.ok_invalid_key
             [(py "cod", Json.JInt 200);
              (py "message", Json.JStr (py "Invalid API key"))]
             (py "Invalid API key") [] (py "Invalid API key") []);
      try discriminate; try reflexivity.
    left; vm_compute; reflexivity.
  - apply (message_tests_ignore_case Samples.keep_case
             (Samples.always
                (mkResponse 200 (py "OK") [] []
                   (inl (Json.JDict
                           [(py "message",
                             Json.JStr (py "City Not Found!"))]))))
             (py "abc") Samples.empty_frame
             (mkResponse 200 (py "OK") [] []
                (inl (Json.JDict
                        [(py "message", Json.JStr (py "City Not Found!"))])))
             [(py "message", Json.JStr (py "City Not Found!"))]
             (py "City Not Found!") [] (py "City Not Found") (py "!"));
      try discriminate; try reflexivity.
    left; vm_compute; reflexivity.
Defined.

End BodyFacts.

(* ================================================================== *)
(** * The window of the validator: the remembered key *)
(* ================================================================== *)

Module WindowFacts.
Import PyStr PyExc Requests.

Section Window.
Variable unicode_lower : str -> str -> N -> str.

Let handle := Main.handle unicode_lower.
Let run := Main.run unicode_lower.
Let validates := Main.validates unicode_lower.
Let no_success := Main.no_success unicode_lower.

(** [clear_fields] leaves no remembered key, whatever the window held. *)
Lemma clear_fields_forgets (w : Main.world) :
  Main.valid_api_key (fst (snd (Main.clear_fields w))) = None.
Proof. reflexivity. Qed.

(** [clear_fields] returns: it raises nothing. *)
Lemma clear_fields_returns (w : Main.world) :
  fst (Main.clear_fields w) = inl tt.
Proof. reflexivity. Qed.

(** An event that is no successful validation leaves an absent key
    absent. *)
Lemma handle_keeps_absent ev (w : Main.world) :
  Main.valid_api_key (fst w) = None ->
  validates ev w = false ->
  Main.valid_api_key (fst (handle ev w)) = None.
Proof.
  destruct w as [g log]. intros Hnone Hval.
  destruct ev as [s | net |].
  - exact Hnone.
  - unfold handle, Main.handle, Main.perform_validation, bind,
      Main.read, Main.update, Main.call.
    unfold validates, Main.validates, Main.call in Hval.
    cbn [fst snd] in *.
    destruct (Main.validate_api_key unicode_lower net
                (Some (strip (Main.api_key_entry g)))
                (mkFrame log None)) as [[[b s] | e] fr].
    + destruct b; [discriminate|]. reflexivity.
    + cbn. exact Hnone.
  - reflexivity.
Qed.

Lemma run_keeps_absent evs :
  forall w : Main.world,
    Main.valid_api_key (fst w) = None ->
    no_success evs w = true ->
    Main.valid_api_key (fst (run evs w)) = None.
Proof.
  induction evs as [|ev evs IH]; intros w Hnone Hno.
  - exact Hnone.
  - cbn in Hno. apply andb_true_iff in Hno as [Hv Hr].
    apply negb_true_iff in Hv.
    unfold run, Main.run. cbn [fold_left].
    apply IH.
    + now apply handle_keeps_absent.
    + exact Hr.
Qed.
End Window.

(** C8: once [clear_fields] has run, in whatever state and so also after
    a validation that stored a key, the remembered key is [None], and it
    stays [None] through every later sequence of events that holds no
    successful validation. *)
Theorem clear_forgets_valid_key :
  forall ul (w : Main.world) (evs : list Main.event),
    Main.no_success ul evs (snd (Main.clear_fields w)) = true ->
    Main.valid_api_key (fst (snd (Main.clear_fields w))) = None
    /\ Main.valid_api_key
         (fst (Main.run ul evs (snd (Main.clear_fields w)))) = None.
Proof.
  intros ul w evs H; split.
  - apply clear_fields_forgets.
  - apply run_keeps_absent; [apply clear_fields_forgets | exact H].
Qed.

Lemma clear_forgets_valid_key_witness :
  let validated :=
    Main.run Samples.keep_case
      [Main.Edit (py " abc ");
       Main.ClickValidate (Samples.always Samples.ok_empty_object)]
      (Main.initial_gui, []) in
  Main.valid_api_key (fst validated) = Some (py "abc")
  /\ Main.valid_api_key (fst (snd (Main.clear_fields validated))) = None
  /\ Main.valid_api_key
       (fst (Main.run Samples.keep_case
               [Main.Edit (py "xyz");
                Main.ClickValidate (Samples.always Samples.unauthorized)]
               (snd (Main.clear_fields validated)))) = None.
Proof.
  intros validated. split; [vm_compute; reflexivity|].
  apply (clear_forgets_valid_key Samples.keep_case validated
           [Main.Edit (py "xyz");
            Main.ClickValidate (Samples.always Samples.unauthorized)]).
  vm_compute. reflexivity.
Defined.

End WindowFacts.

(* ================================================================== *)
(** * UTF-8: decoding what was encoded *)
(* ================================================================== *)

Module Utf8Facts.
Import PyStr PyExc Notions Utf8.
Open Scope N_scope.

(** Settles the comparisons of a goal by arithmetic. *)
Ltac settle :=
  repeat match goal with
         | |- context [?a <? ?b] =>
             first [ replace (a <? b) with true
                       by (symmetry; apply N.ltb_lt; lia)
                   | replace (a <? b) with false
                       by (symmetry; apply N.ltb_ge; lia) ]
         | |- context [?a <=? ?b] =>
             first [ replace (a <=? b) with true
                       by (symmetry; apply N.leb_le; lia)
                   | replace (a <=? b) with false
                       by (symmetry; apply N.leb_gt; lia) ]
         | |- context [?a =? ?b] =>
             first [ replace (a =? b) with true
                       by (symmetry; apply N.eqb_eq; lia)
                   | replace (a =? b) with false
                       by (symmetry; apply N.eqb_neq; lia) ]
         end.

(** Turns the boolean facts of the context into arithmetic ones. *)
Ltac bounds :=
  repeat match goal with
         | H : _ && _ = true |- _ => apply andb_true_iff in H as [? ?]
         | H : negb _ = true |- _ => apply negb_true_iff in H
         | H : _ || _ = false |- _ => apply orb_false_iff in H as [? ?]
         | H : (_ <? _) = true |- _ => apply N.ltb_lt in H
         | H : (_ <? _) = false |- _ => apply N.ltb_ge in H
         | H : (_ <=? _) = true |- _ => apply N.leb_le in H
         | H : (_ <=? _) = false |- _ => apply N.leb_gt in H
         | H : (_ =? _) = true |- _ => apply N.eqb_eq in H
         | H : (_ =? _) = false |- _ => apply N.eqb_neq in H
         end.

(** Splits the goal on the comparisons left in it. *)
Ltac split_cmp :=
  repeat match goal with
         | |- context [?a =? ?b] => destruct (a =? b) eqn:?
         | |- context [?a <? ?b] => destruct (a <? b) eqn:?
         | |- context [?a <=? ?b] => destruct (a <=? b) eqn:?
         end;
  bounds; cbn [andb negb orb].

Lemma scalar_bounds (c : N) :
  is_scalar c = true -> c < 0x110000 /\ (c < 0xD800 \/ 0xDFFF < c).
Proof.
  unfold is_scalar, is_surrogate. intros H.
  apply andb_true_iff in H as [H1 H2]. apply N.ltb_lt in H1.
  apply negb_true_iff, andb_false_iff in H2 as [H2|H2]; bounds; lia.
Qed.

Lemma scalar_not_surrogate (c : N) :
  is_scalar c = true -> is_surrogate c = false.
Proof.
  unfold is_scalar. intros H. apply andb_true_iff in H as [_ H].
  now apply negb_true_iff.
Qed.

(** Decoding the bytes of a scalar value gives it back. *)
Lemma decode_encode_cp (c : N) (rest : list N) :
  is_scalar c = true -> decode (encode_cp c ++ rest) = c :: decode rest.
Proof.
  intros H. apply scalar_bounds in H as [Hmax Hsur].
  unfold encode_cp.
  destruct (c <? 0x80) eqn:E1; [|destruct (c <? 0x800) eqn:E2;
    [|destruct (c <? 0x10000) eqn:E3]]; bounds;
    cbn [app decode]; unfold second_ok, is_cont; settle;
    cbn [andb negb]; split_cmp; first [f_equal; lia | exfalso; lia].
Qed.

Lemma decode_encode (s : str) :
  encodable s -> decode (flat_map encode_cp s) = s.
Proof.
  unfold encodable. induction s as [|c s IH]; cbn [forallb flat_map]; intros H.
  - reflexivity.
  - apply andb_true_iff in H as [Hc Hs].
    rewrite decode_encode_cp by exact Hc. now rewrite IH.
Qed.

(** Encodable text is encoded, code point by code point. *)
Lemma encode_from_encodable (s : str) :
  encodable s -> forall i, encode_from i s = inl (flat_map encode_cp s).
Proof.
  unfold encodable. induction s as [|c s IH]; cbn [forallb]; intros H i.
  - reflexivity.
  - apply andb_true_iff in H as [Hc Hs]. cbn [encode_from flat_map].
    rewrite (scalar_not_surrogate _ Hc), (IH Hs). reflexivity.
Qed.

Lemma encode_cp_bytes (c : N) :
  is_scalar c = true -> forallb is_byte (encode_cp c) = true.
Proof.
  intros H. apply scalar_bounds in H as [Hmax _].
  unfold encode_cp, is_byte.
  destruct (c <? 0x80) eqn:E1; [|destruct (c <? 0x800) eqn:E2;
    [|destruct (c <? 0x10000) eqn:E3]]; bounds; cbn [forallb]; settle;
    reflexivity.
Qed.

Lemma encode_cp_nonempty (c : N) : encode_cp c <> [].
Proof.
  unfold encode_cp.
  destruct (c <? 0x80); [|destruct (c <? 0x800); [|destruct (c <? 0x10000)]];
    discriminate.
Qed.

Lemma encode_bytes (s : str) :
  encodable s -> forallb is_byte (flat_map encode_cp s) = true.
Proof.
  unfold encodable. induction s as [|c s IH]; cbn [forallb flat_map]; intros H.
  - reflexivity.
  - apply andb_true_iff in H as [Hc Hs].
    rewrite forallb_app, (encode_cp_bytes _ Hc), (IH Hs). reflexivity.
Qed.

(** What [decode] writes is scalar values, whatever the bytes are. *)
Lemma decode_scalar (bs : list N) : encodable (decode bs).
Proof.
  unfold encodable.
  assert (Hgen : forall n bs, (List.length bs <= n)%nat ->
                              forallb is_scalar (decode bs) = true).
  { clear bs. induction n as [|n IH]; intros bs Hlen.
    - destruct bs; [reflexivity | cbn in Hlen; lia].
    - destruct bs as [|b0 r0]; [reflexivity|].
      cbn [List.length] in Hlen.
      assert (H0 : forallb is_scalar (decode r0) = true)
        by (apply IH; lia).
      cbn [decode].
      destruct (b0 <? 0x80) eqn:E0.
      { cbn [forallb]. rewrite H0. unfold is_scalar, is_surrogate.
        bounds. settle. reflexivity. }
      destruct (b0 <? 0xC2) eqn:E1; [cbn [forallb]; now rewrite H0|].
      destruct r0 as [|b1 r1].
      { destruct (b0 <? 0xE0); [reflexivity|].
        destruct (b0 <? 0xF0); [reflexivity|].
        destruct (b0 <? 0xF5); reflexivity. }
      cbn [List.length] in Hlen.
      assert (H1 : forallb is_scalar (decode r1) = true)
        by (apply IH; lia).
      destruct (b0 <? 0xE0) eqn:E2.
      { destruct (is_cont b1) eqn:C1; [|cbn [forallb]; now rewrite H0].
        cbn [forallb]. rewrite H1. unfold is_cont in C1.
        unfold is_scalar, is_surrogate. bounds. settle. reflexivity. }
      destruct (b0 <? 0xF0) eqn:E3.
      { destruct (second_ok b0 b1) eqn:S1; [|cbn [forallb]; now rewrite H0].
        destruct r1 as [|b2 r2]; [reflexivity|].
        cbn [List.length] in Hlen.
        destruct (is_cont b2) eqn:C2; [|cbn [forallb]; now rewrite H1].
        cbn [forallb]. rewrite (IH r2) by lia.
        unfold second_ok, is_cont in *. unfold is_scalar, is_surrogate.
        rewrite andb_true_r. bounds.
        destruct (N.eq_dec b0 0xE0) as [->|]; [|destruct (N.eq_dec b0 0xED) as [->|]].
        - rewrite N.eqb_refl in *. cbn [andb] in *. bounds.
          settle. reflexivity.
        - rewrite N.eqb_refl in *. cbn [andb] in *. bounds.
          settle. reflexivity.
        - assert (b0 < 0xED \/ 0xED < b0) as [?|?] by lia; settle; reflexivity. }
      destruct (b0 <? 0xF5) eqn:E4; [|cbn [forallb]; now rewrite H0].
      destruct (second_ok b0 b1) eqn:S1; [|cbn [forallb]; now rewrite H0].
      destruct r1 as [|b2 r2]; [reflexivity|].
      cbn [List.length] in Hlen.
      destruct (is_cont b2) eqn:C2; [|cbn [forallb]; now rewrite H1].
      assert (H2 : forallb is_scalar (decode r2) = true)
        by (apply IH; lia).
      destruct r2 as [|b3 r3]; [reflexivity|].
      cbn [List.length] in Hlen.
      destruct (is_cont b3) eqn:C3; [|cbn [forallb]; now rewrite H2].
      cbn [forallb]. rewrite (IH r3) by lia.
      unfold second_ok, is_cont in *. unfold is_scalar, is_surrogate.
      rewrite andb_true_r. bounds.
      destruct (N.eq_dec b0 0xF0) as [->|]; [|destruct (N.eq_dec b0 0xF4) as [->|]].
      + rewrite N.eqb_refl in *. cbn [andb] in *. bounds. settle. reflexivity.
      + rewrite N.eqb_refl in *. cbn [andb] in *. bounds. settle. reflexivity.
      + settle. reflexivity. }
  exact (Hgen (List.length bs) bs (le_n _)).
Qed.

Lemma decode_nonempty (bs : list N) : bs <> [] -> decode bs <> [].
Proof.
  destruct bs as [|b0 r0]; [congruence|]. intros _. cbn [decode].
  repeat match goal with
         | |- (if ?c then _ else _) <> [] => destruct c
         | |- match ?l with [] => _ | _ :: _ => _ end <> [] => destruct l
         end; discriminate.
Qed.

(** ASCII bytes decode to themselves. *)
Lemma decode_ascii (bs : list N) :
  forallb is_ascii bs = true -> decode bs = bs.
Proof.
  induction bs as [|b r IH]; cbn [forallb]; intros H; [reflexivity|].
  apply andb_true_iff in H as [Hb Hr]. unfold is_ascii in Hb.
  cbn [decode]. rewrite Hb. now rewrite IH.
Qed.

End Utf8Facts.

(* ================================================================== *)
(** * Quoting and unquoting *)
(* ================================================================== *)

Module QuoteFacts.
Import PyStr PyExc Notions Urllib Utf8Facts.
Open Scope N_scope.

Lemma hex_value_hex_digit (d : N) :
  d < 16 -> hex_value (hex_digit true d) = Some d.
Proof.
  intros H. unfold hex_value, hex_digit, is_digit.
  destruct (d <? 10) eqn:E; bounds; settle; cbn [andb]; f_equal; lia.
Qed.

Lemma hex_digit_safe (d : N) :
  d < 16 -> always_safe (hex_digit true d) = true.
Proof.
  intros H. unfold always_safe, hex_digit, is_upper, is_lower, is_digit.
  destruct (d <? 10) eqn:E; bounds; settle; reflexivity.
Qed.

Lemma always_safe_ascii (c : N) : always_safe c = true -> is_ascii c = true.
Proof.
  unfold always_safe, is_upper, is_lower, is_digit, is_ascii. intros H.
  apply N.ltb_lt.
  repeat (apply orb_true_iff in H as [H|H]); bounds; lia.
Qed.

Lemma is_safe_nil (c : N) : is_safe [] c = always_safe c.
Proof. unfold is_safe. cbn. now rewrite andb_false_r, orb_false_r. Qed.

Lemma is_safe_ascii (safe : str) (c : N) :
  is_safe safe c = true -> is_ascii c = true.
Proof.
  unfold is_safe. intros H. apply orb_true_iff in H as [H|H].
  - now apply always_safe_ascii.
  - now apply andb_true_iff in H as [H _].
Qed.

Lemma written_ascii (safe : str) (c : N) :
  written safe c = true -> is_ascii c = true.
Proof.
  unfold written. intros H. apply orb_true_iff in H as [H|H].
  - now apply is_safe_ascii in H.
  - apply N.eqb_eq in H; subst; reflexivity.
Qed.

Lemma quoter_written (safe : str) (b : N) :
  forallb (written safe) (quoter safe b) = true.
Proof.
  unfold quoter. destruct (is_safe safe b) eqn:E.
  - cbn. unfold written. now rewrite E.
  - unfold hex2. cbn [forallb]. unfold written at 1. cbn [N.eqb Pos.eqb].
    rewrite orb_true_r. unfold written, is_safe.
    rewrite !hex_digit_safe by (apply N.mod_lt; discriminate).
    reflexivity.
Qed.

Lemma flat_map_quoter_written (safe : str) (bs : list N) :
  forallb (written safe) (flat_map (quoter safe) bs) = true.
Proof.
  induction bs as [|b bs IH]; cbn [flat_map]; [reflexivity|].
  now rewrite forallb_app, quoter_written, IH.
Qed.

(** Safe bytes are written as they are. *)
Lemma flat_map_quoter_safe (safe : str) (bs : list N) :
  forallb (is_safe safe) bs = true -> flat_map (quoter safe) bs = bs.
Proof.
  induction bs as [|b bs IH]; cbn [forallb flat_map]; intros H; [reflexivity|].
  apply andb_true_iff in H as [Hb Hbs]. rewrite (IH Hbs).
  unfold quoter. now rewrite Hb.
Qed.

Lemma quote_from_bytes_eq (bs : list N) (safe : str) :
  quote_from_bytes bs safe = flat_map (quoter safe) bs.
Proof.
  unfold quote_from_bytes. destruct bs as [|b bs]; [reflexivity|].
  destruct (forallb (is_safe safe) (b :: bs)) eqn:E; [|reflexivity].
  symmetry. now apply flat_map_quoter_safe.
Qed.

(** Unquoting what was quoted gives the bytes back. *)
Lemma unquote_quoter (safe : str) (b : N) (rest : list N) :
  is_safe safe 37 = false -> is_byte b = true ->
  unquote_to_bytes (quoter safe b ++ rest) = b :: unquote_to_bytes rest.
Proof.
  intros H37 Hb. unfold is_byte in Hb. apply N.ltb_lt in Hb.
  unfold quoter. destruct (is_safe safe b) eqn:E.
  - cbn [app unquote_to_bytes].
    destruct (b =? 37) eqn:E37; [|reflexivity].
    apply N.eqb_eq in E37; subst. congruence.
  - unfold hex2. cbn [app unquote_to_bytes]. cbn [N.eqb Pos.eqb].
    rewrite !hex_value_hex_digit by (apply N.mod_lt; discriminate).
    f_equal. lia.
Qed.

Lemma unquote_flat_map_quoter (safe : str) (bs : list N) :
  is_safe safe 37 = false -> forallb is_byte bs = true ->
  unquote_to_bytes (flat_map (quoter safe) bs) = bs.
Proof.
  intros H37. induction bs as [|b bs IH]; cbn [forallb flat_map]; intros H.
  - reflexivity.
  - apply andb_true_iff in H as [Hb Hbs].
    rewrite unquote_quoter by assumption. now rewrite IH.
Qed.

Lemma unquote_to_bytes_plain (x : list N) :
  has 37 x = false -> unquote_to_bytes x = x.
Proof.
  unfold has. induction x as [|c x IH]; cbn [existsb]; intros H.
  - reflexivity.
  - apply orb_false_iff in H as [Hc Hx]. cbn [unquote_to_bytes].
    rewrite N.eqb_sym, Hc. now rewrite IH.
Qed.

Lemma unquote_to_bytes_nonempty (x : list N) :
  x <> [] -> unquote_to_bytes x <> [].
Proof.
  destruct x as [|c t]; [congruence|]. intros _. cbn [unquote_to_bytes].
  destruct (c =? 37); [|discriminate].
  destruct t as [|h1 [|h2 r]]; try discriminate.
  destruct (hex_value h1); [|discriminate].
  destruct (hex_value h2); discriminate.
Qed.

(** The runs of ASCII text are one run. *)
Lemma runs_ascii (x : str) :
  x <> [] -> forallb is_ascii x = true -> runs x = [(true, x)].
Proof.
  induction x as [|c x IH]; [congruence|]. intros _ H.
  cbn [forallb] in H. apply andb_true_iff in H as [Hc Hx].
  cbn [runs]. destruct x as [|c' x'].
  - cbn [runs]. now rewrite Hc.
  - rewrite IH by (try discriminate; exact Hx). now rewrite Hc.
Qed.

(** On ASCII text [unquote] unquotes and decodes the whole. *)
Lemma unquote_ascii (x : str) :
  forallb is_ascii x = true -> unquote x = Utf8.decode (unquote_to_bytes x).
Proof.
  intros H. unfold unquote. destruct (has 37 x) eqn:E; cbn [negb].
  - destruct x as [|c x]; [discriminate|].
    rewrite runs_ascii by (try discriminate; exact H).
    cbn [map fst snd List.concat]. now rewrite app_nil_r.
  - rewrite unquote_to_bytes_plain by exact E.
    symmetry. now apply decode_ascii.
Qed.

Lemma replace_absent (a b : N) (x : str) :
  has a x = false -> replace a b x = x.
Proof.
  unfold has, replace. induction x as [|c x IH]; cbn [existsb map]; intros H.
  - reflexivity.
  - apply orb_false_iff in H as [Hc Hx].
    rewrite N.eqb_sym, Hc. now rewrite IH.
Qed.

Lemma replace_back (a b : N) (x : str) :
  has b x = false -> replace b a (replace a b x) = x.
Proof.
  unfold has, replace. induction x as [|c x IH]; cbn [existsb map]; intros H.
  - reflexivity.
  - apply orb_false_iff in H as [Hc Hx]. rewrite (IH Hx).
    destruct (c =? a) eqn:E.
    + rewrite N.eqb_refl. apply N.eqb_eq in E. now subst.
    + rewrite N.eqb_sym, Hc. reflexivity.
Qed.

Lemma has_false_forallb (P : N -> bool) (a : N) (x : str) :
  P a = false -> forallb P x = true -> has a x = false.
Proof.
  intros Ha. unfold has.
  induction x as [|c x IH]; cbn [forallb existsb]; intros H; [reflexivity|].
  apply andb_true_iff in H as [Hc Hx]. rewrite (IH Hx), orb_false_r.
  destruct (a =? c) eqn:E; [|reflexivity].
  apply N.eqb_eq in E; subst. congruence.
Qed.

Lemma forallb_impl (P Q : N -> bool) (x : str) :
  (forall c, P c = true -> Q c = true) ->
  forallb P x = true -> forallb Q x = true.
Proof.
  intros HPQ. induction x as [|c x IH]; cbn [forallb]; intros H; [reflexivity|].
  apply andb_true_iff in H as [Hc Hx]. now rewrite (HPQ _ Hc), IH.
Qed.

Lemma quoted_char_ascii (c : N) : quoted_char c = true -> is_ascii c = true.
Proof.
  unfold quoted_char. intros H.
  apply orb_true_iff in H as [H|H]; [apply orb_true_iff in H as [H|H]|].
  - now apply always_safe_ascii.
  - apply N.eqb_eq in H; subst; reflexivity.
  - apply N.eqb_eq in H; subst; reflexivity.
Qed.

Lemma flat_map_quoter_nonempty (safe : str) (bs : list N) :
  bs <> [] -> flat_map (quoter safe) bs <> [].
Proof.
  destruct bs as [|b bs]; [congruence|]. intros _. cbn [flat_map].
  unfold quoter. destruct (is_safe safe b); discriminate.
Qed.

Lemma flat_map_encode_nonempty (s : str) :
  s <> [] -> flat_map Utf8.encode_cp s <> [].
Proof.
  destruct s as [|c s]; [congruence|]. intros _. cbn [flat_map].
  pose proof (encode_cp_nonempty c). destruct (Utf8.encode_cp c); [congruence|].
  discriminate.
Qed.

Lemma written_space_replaced (x : str) :
  forallb (written [32]) x = true ->
  forallb quoted_char (replace 32 43 x) = true.
Proof.
  unfold replace. induction x as [|c x IH]; cbn [forallb map]; intros H.
  - reflexivity.
  - apply andb_true_iff in H as [Hc Hx]. rewrite (IH Hx), andb_true_r.
    destruct (c =? 32) eqn:E; [reflexivity|].
    unfold written, is_safe in Hc. unfold quoted_char.
    cbn [has existsb] in Hc. rewrite E in Hc. cbn [orb] in Hc.
    rewrite andb_false_r, orb_false_r in Hc. now rewrite Hc.
Qed.

Lemma written_nil_quoted (x : str) :
  forallb (written []) x = true -> forallb quoted_char x = true.
Proof.
  apply forallb_impl. intros c H. unfold written in H. unfold quoted_char.
  rewrite is_safe_nil in H. now rewrite H.
Qed.

Lemma quote_encodable (s safe : str) :
  encodable s ->
  quote s safe = inl (flat_map (quoter safe) (flat_map Utf8.encode_cp s)).
Proof.
  intros Hs. unfold quote. destruct s as [|c s]; [reflexivity|].
  unfold Utf8.encode. rewrite encode_from_encodable by exact Hs.
  cbn [rbind ok]. now rewrite quote_from_bytes_eq.
Qed.

Lemma map_nonempty {A B} (f : A -> B) (l : list A) :
  l <> [] -> map f l <> [].
Proof. destruct l; [congruence | discriminate]. Qed.

(** What one quoting writes is read back by unquoting it. *)
Lemma unquote_written (safe : str) (s : str) :
  is_safe safe 37 = false -> encodable s ->
  unquote (flat_map (quoter safe) (flat_map Utf8.encode_cp s)) = s.
Proof.
  intros H37 Hs. rewrite unquote_ascii.
  - rewrite unquote_flat_map_quoter by (try exact H37; now apply encode_bytes).
    now apply decode_encode.
  - apply forallb_impl with (P := written safe);
      [apply written_ascii | apply flat_map_quoter_written].
Qed.

(** [quote_plus] of encodable text returns ASCII text without separators,
    from which [parse_qsl] reads the text back. *)
Lemma quote_plus_unquote (s : str) :
  encodable s ->
  exists q,
    quote_plus s [] = inl q
    /\ forallb quoted_char q = true
    /\ unquote (replace 43 32 q) = s
    /\ (s <> [] -> q <> []).
Proof.
  intros Hs. unfold quote_plus.
  rewrite !quote_encodable by exact Hs. cbn [app rbind ok].
  set (bs := flat_map Utf8.encode_cp s).
  destruct (has 32 s) eqn:E; cbn [negb].
  - exists (replace 32 43 (flat_map (quoter [32]) bs)). repeat split.
    + apply written_space_replaced, flat_map_quoter_written.
    + rewrite replace_back.
      * now apply unquote_written.
      * apply has_false_forallb with (P := written [32]);
          [reflexivity | apply flat_map_quoter_written].
    + intros Hne. apply map_nonempty, flat_map_quoter_nonempty.
      now apply flat_map_encode_nonempty.
  - exists (flat_map (quoter []) bs). repeat split.
    + apply written_nil_quoted, flat_map_quoter_written.
    + rewrite replace_absent.
      * now apply unquote_written.
      * apply has_false_forallb with (P := written []);
          [reflexivity | apply flat_map_quoter_written].
    + intros Hne. apply flat_map_quoter_nonempty.
      now apply flat_map_encode_nonempty.
Qed.

End QuoteFacts.

(* ================================================================== *)
(** * Mappings and query strings *)
(* ================================================================== *)

Module QueryFacts.
Import PyStr PyExc Notions Urllib Utf8Facts QuoteFacts.
Open Scope N_scope.

Lemma str_eqb_eq (a b : str) : str_eqb a b = true <-> a = b.
Proof.
  unfold str_eqb. destruct (list_eq_dec N.eq_dec a b); split; congruence.
Qed.

Lemma str_eqb_refl (a : str) : str_eqb a a = true.
Proof. now apply str_eqb_eq. Qed.

Lemma str_eqb_neq (a b : str) : a <> b -> str_eqb a b = false.
Proof.
  intros H. destruct (str_eqb a b) eqn:E; [|reflexivity].
  apply str_eqb_eq in E. congruence.
Qed.

(** ** Reading and writing a mapping *)

Section Dict.
Context {V : Type}.
Implicit Types (d : dict V) (k : str) (v : V).

Lemma dict_get_set_same d k v : dict_get (dict_set d k v) k = Some v.
Proof.
  induction d as [|[k' v'] d IH]; cbn [dict_set dict_get].
  - now rewrite str_eqb_refl.
  - destruct (str_eqb k' k) eqn:E; cbn [dict_get]; rewrite E;
      [reflexivity | exact IH].
Qed.

Lemma dict_get_set_other d k k2 v :
  k2 <> k -> dict_get (dict_set d k v) k2 = dict_get d k2.
Proof.
  intros Hne. induction d as [|[k' v'] d IH]; cbn [dict_set dict_get].
  - now rewrite str_eqb_neq by congruence.
  - destruct (str_eqb k' k) eqn:E; cbn [dict_get].
    + apply str_eqb_eq in E; subst k'.
      now rewrite str_eqb_neq by congruence.
    + now rewrite IH.
Qed.

Lemma dict_get_absent d k : ~ In k (dict_keys d) -> dict_get d k = None.
Proof.
  induction d as [|[k' v'] d IH]; cbn [dict_keys map fst In dict_get];
    intros H; [reflexivity|].
  rewrite str_eqb_neq by tauto. apply IH. tauto.
Qed.

Lemma dict_get_present d k v : dict_get d k = Some v -> In (k, v) d.
Proof.
  induction d as [|[k' v'] d IH]; cbn [dict_get]; [discriminate|].
  destruct (str_eqb k' k) eqn:E.
  - apply str_eqb_eq in E; subst. intros [= ->]. now left.
  - intros H. right. now apply IH.
Qed.

Lemma dict_set_absent d k v :
  ~ In k (dict_keys d) -> dict_set d k v = d ++ [(k, v)].
Proof.
  induction d as [|[k' v'] d IH]; cbn [dict_keys map fst In dict_set];
    intros H; [reflexivity|].
  rewrite str_eqb_neq by tauto. cbn [app]. f_equal. apply IH. tauto.
Qed.

Lemma dict_set_last d k v v2 :
  ~ In k (dict_keys d) -> dict_set (d ++ [(k, v)]) k v2 = d ++ [(k, v2)].
Proof.
  induction d as [|[k' v'] d IH]; cbn [dict_keys map fst In dict_set app];
    intros H.
  - now rewrite str_eqb_refl.
  - rewrite str_eqb_neq by tauto. f_equal. apply IH. tauto.
Qed.

Lemma dict_get_last d k v :
  ~ In k (dict_keys d) -> dict_get (d ++ [(k, v)]) k = Some v.
Proof.
  induction d as [|[k' v'] d IH]; cbn [dict_keys map fst In dict_get app];
    intros H.
  - now rewrite str_eqb_refl.
  - rewrite str_eqb_neq by tauto. apply IH. tauto.
Qed.

(** Writing keeps the names, or adds the new one last. *)
Lemma dict_keys_set d k v :
  dict_keys (dict_set d k v)
  = if dict_contains d k then dict_keys d else dict_keys d ++ [k].
Proof.
  unfold dict_contains.
  induction d as [|[k' v'] d IH]; cbn [dict_set dict_get dict_keys map fst];
    [reflexivity|].
  destruct (str_eqb k' k) eqn:E; cbn [dict_keys map fst]; [reflexivity|].
  fold (dict_keys (dict_set d k v)). rewrite IH. fold (dict_keys d).
  destruct (dict_get d k); reflexivity.
Qed.

Lemma dict_contains_in d k : dict_contains d k = true -> In k (dict_keys d).
Proof.
  unfold dict_contains. destruct (dict_get d k) eqn:E; [|discriminate].
  intros _. apply dict_get_present in E.
  apply (in_map fst) in E. exact E.
Qed.

Lemma dict_contains_not_in d k :
  dict_contains d k = false -> ~ In k (dict_keys d).
Proof.
  unfold dict_contains.
  induction d as [|[k' v'] d IH]; cbn [dict_get dict_keys map fst In];
    [tauto|].
  destruct (str_eqb k' k) eqn:E; [discriminate|].
  intros H [Hk|Hk].
  - subst. rewrite str_eqb_refl in E. discriminate.
  - now apply IH.
Qed.

Lemma dict_keys_set_nodup d k v :
  NoDup (dict_keys d) -> NoDup (dict_keys (dict_set d k v)).
Proof.
  intros H. rewrite dict_keys_set.
  destruct (dict_contains d k) eqn:E; [exact H|].
  apply dict_contains_not_in in E.
  apply NoDup_rev in H. rewrite <- (rev_involutive (dict_keys d ++ [k])).
  apply NoDup_rev. rewrite rev_app_distr. cbn [rev app].
  constructor; [|exact H]. now rewrite <- in_rev.
Qed.

(** Writing an entry that has a property into a mapping whose entries have
    it. *)
Lemma dict_set_forall (P : str * V -> Prop) d k v :
  Forall P d -> (forall k', P (k', v)) -> Forall P (dict_set d k v).
Proof.
  intros Hd Hv. induction d as [|[k' v'] d IH]; cbn [dict_set].
  - constructor; [apply Hv | constructor].
  - inversion Hd as [|? ? Hh Ht]; subst.
    destruct (str_eqb k' k); constructor; auto.
Qed.
End Dict.

(** ** Well-formed queries *)

Lemma well_formed_set (d : dict (list str)) (k : str) (vs : list str) :
  well_formed_query d -> encodable k -> vs <> [] -> Forall value_ok vs ->
  well_formed_query (dict_set d k vs).
Proof.
  intros [Hnd Hall] Hk Hne Hvs. split.
  - now apply dict_keys_set_nodup.
  - induction d as [|[k' v'] d IH]; cbn [dict_set].
    + constructor; [|constructor]. cbn [fst snd]. auto.
    + inversion Hall as [|? ? Hh Ht]; subst.
      cbn [dict_keys map fst] in Hnd. inversion Hnd; subst.
      destruct (str_eqb k' k) eqn:E.
      * constructor; [|exact Ht]. cbn [fst snd] in *. tauto.
      * constructor; [exact Hh|]. now apply IH.
Qed.

Lemma well_formed_get (d : dict (list str)) (k : str) (vs : list str) :
  well_formed_query d -> dict_get d k = Some vs ->
  encodable k /\ Forall value_ok vs.
Proof.
  intros [_ Hall] Hg. apply dict_get_present in Hg.
  rewrite Forall_forall in Hall. specialize (Hall _ Hg).
  cbn [fst snd] in Hall. tauto.
Qed.

Lemma well_formed_add (d : dict (list str)) (n v : str) :
  well_formed_query d -> encodable n -> value_ok v ->
  well_formed_query (parse_qs_add d (n, v)).
Proof.
  intros Hd Hn Hv. unfold parse_qs_add.
  destruct (dict_get d n) as [vs|] eqn:E.
  - destruct (well_formed_get d n vs Hd E) as [_ Hvs].
    apply well_formed_set; try assumption.
    + destruct vs; discriminate.
    + apply Forall_app; split; [exact Hvs | now constructor].
  - apply well_formed_set; try assumption.
    + discriminate.
    + now constructor.
Qed.

Lemma well_formed_fold (ps : list (str * str)) :
  Forall (fun nv => encodable (fst nv) /\ value_ok (snd nv)) ps ->
  forall d, well_formed_query d ->
            well_formed_query (fold_left parse_qs_add ps d).
Proof.
  induction ps as [|[n v] ps IH]; intros Hps d Hd; cbn [fold_left].
  - exact Hd.
  - inversion Hps as [|? ? [Hn Hv] Ht]; subst. cbn [fst snd] in *.
    apply IH; [exact Ht|]. now apply well_formed_add.
Qed.

(** ** The loop of [parse_qs] rebuilds a mapping from its pairs *)

Lemma fold_add_more (k : str) (vs vs0 : list str) (acc : dict (list str)) :
  ~ In k (dict_keys acc) ->
  fold_left parse_qs_add (map (fun v => (k, v)) vs) (acc ++ [(k, vs0)])
  = acc ++ [(k, vs0 ++ vs)].
Proof.
  intros Hk. revert vs0.
  induction vs as [|v vs IH]; intros vs0; cbn [map fold_left].
  - now rewrite app_nil_r.
  - unfold parse_qs_add at 2. rewrite dict_get_last by exact Hk.
    rewrite dict_set_last by exact Hk. rewrite IH.
    now rewrite <- app_assoc.
Qed.

Lemma fold_add_first (k : str) (vs : list str) (acc : dict (list str)) :
  ~ In k (dict_keys acc) -> vs <> [] ->
  fold_left parse_qs_add (map (fun v => (k, v)) vs) acc = acc ++ [(k, vs)].
Proof.
  intros Hk Hne. destruct vs as [|v vs]; [congruence|].
  cbn [map fold_left]. unfold parse_qs_add at 2.
  rewrite dict_get_absent by exact Hk. rewrite dict_set_absent by exact Hk.
  now rewrite fold_add_more.
Qed.

Lemma fold_pairs_of (d : dict (list str)) :
  NoDup (dict_keys d) -> Forall (fun kv => snd kv <> []) d ->
  forall acc,
    (forall k, In k (dict_keys d) -> ~ In k (dict_keys acc)) ->
    fold_left parse_qs_add (pairs_of d) acc = acc ++ d.
Proof.
  unfold pairs_of.
  induction d as [|[k vs] d IH]; intros Hnd Hne acc Hdis; cbn [flat_map].
  - now rewrite app_nil_r.
  - cbn [dict_keys map fst] in Hnd, Hdis. inversion Hnd as [|? ? Hk Hnd']; subst.
    inversion Hne as [|? ? Hvs Hne']; subst. cbn [fst snd] in *.
    rewrite fold_left_app.
    rewrite fold_add_first; [|apply Hdis; now left|exact Hvs].
    rewrite IH; [now rewrite <- app_assoc | exact Hnd' | exact Hne' |].
    intros k' Hk'. unfold dict_keys. rewrite map_app. cbn [map fst].
    rewrite in_app_iff. cbn [In]. intros [Hin|[<-|[]]].
    + apply (Hdis k'); [now right | exact Hin].
    + now apply Hk.
Qed.

Lemma parse_pairs_of (d : dict (list str)) :
  well_formed_query d -> fold_left parse_qs_add (pairs_of d) [] = d.
Proof.
  intros [Hnd Hall]. rewrite fold_pairs_of; [reflexivity | exact Hnd | | tauto].
  eapply Forall_impl; [|exact Hall]. cbn. tauto.
Qed.

End QueryFacts.

(* ================================================================== *)
(** * Fields of a query string *)
(* ================================================================== *)

Module FieldFacts.
Import PyStr PyExc Notions Urllib Utf8Facts QuoteFacts QueryFacts.
Open Scope N_scope.

(** ** Splitting *)

Lemma split_plain (sep : N) (x : str) :
  has sep x = false -> split sep x = [x].
Proof.
  unfold has. induction x as [|c x IH]; cbn [existsb split]; intros H.
  - reflexivity.
  - apply orb_false_iff in H as [Hc Hx]. rewrite N.eqb_sym, Hc.
    now rewrite (IH Hx).
Qed.

Lemma split_app (sep : N) (x y : str) :
  has sep x = false -> split sep (x ++ sep :: y) = x :: split sep y.
Proof.
  unfold has. induction x as [|c x IH]; cbn [existsb split app]; intros H.
  - now rewrite N.eqb_refl.
  - apply orb_false_iff in H as [Hc Hx]. rewrite N.eqb_sym, Hc.
    now rewrite (IH Hx).
Qed.

Lemma partition_app (sep : N) (a b : str) :
  has sep a = false -> partition sep (a ++ sep :: b) = Some (a, b).
Proof.
  unfold has. induction a as [|c a IH]; cbn [existsb partition app]; intros H.
  - now rewrite N.eqb_refl.
  - apply orb_false_iff in H as [Hc Ha]. rewrite N.eqb_sym, Hc.
    now rewrite (IH Ha).
Qed.

Lemma partition_none (sep : N) (a : str) :
  has sep a = false -> partition sep a = None.
Proof.
  unfold has. induction a as [|c a IH]; cbn [existsb partition]; intros H.
  - reflexivity.
  - apply orb_false_iff in H as [Hc Ha]. rewrite N.eqb_sym, Hc.
    now rewrite (IH Ha).
Qed.

Lemma partition_some (sep : N) (s a b : str) :
  partition sep s = Some (a, b) -> s = a ++ sep :: b /\ has sep a = false.
Proof.
  unfold has. revert a b.
  induction s as [|c s IH]; cbn [partition]; intros a b H; [discriminate|].
  destruct (c =? sep) eqn:E.
  - injection H as <- <-. apply N.eqb_eq in E; subst. now split.
  - destruct (partition sep s) as [[a' b']|]; [|discriminate].
    injection H as <- <-. destruct (IH a' b' eq_refl) as [-> Ha].
    split; [reflexivity|]. cbn [existsb]. now rewrite N.eqb_sym, E, Ha.
Qed.

Lemma has_app (c : N) (x y : str) : has c (x ++ y) = has c x || has c y.
Proof. unfold has. apply existsb_app. Qed.

(** ** One field *)

Lemma quoted_no_separator (x : str) (sep : N) :
  quoted_char sep = false -> forallb quoted_char x = true ->
  has sep x = false.
Proof. apply has_false_forallb. Qed.

Lemma field_no_ampersand (nv : str * str) (f : str) :
  reads_as nv f -> has 38 f = false.
Proof.
  intros (k' & v' & -> & Hk & Hv & _).
  rewrite !has_app, (quoted_no_separator k' 38), (quoted_no_separator v' 38)
    by (try reflexivity; assumption).
  reflexivity.
Qed.

Lemma field_nonempty (nv : str * str) (f : str) : reads_as nv f -> f <> [].
Proof. intros (k' & v' & -> & _). destruct k'; discriminate. Qed.

Lemma field_parsed (nv : str * str) (f : str) :
  reads_as nv f -> parse_field f = [nv].
Proof.
  intros Hf. pose proof (field_nonempty _ _ Hf) as Hne.
  destruct Hf as (k' & v' & -> & Hk & Hv & Hv' & Hkn & Hvn).
  unfold parse_field.
  destruct (k' ++ [61] ++ v') as [|c r] eqn:E; [congruence|].
  rewrite <- E. cbn [app].
  rewrite partition_app by (apply quoted_no_separator; [reflexivity|exact Hk]).
  destruct v' as [|c' v'']; [congruence|]. cbn [nonempty].
  rewrite Hkn, Hvn. now destruct nv.
Qed.

Lemma field_chars (nv : str * str) (f : str) :
  reads_as nv f -> forallb urlencoded_char f = true.
Proof.
  intros (k' & v' & -> & Hk & Hv & _).
  assert (Hq : forall c, quoted_char c = true -> urlencoded_char c = true).
  { intros c H. unfold urlencoded_char. unfold quoted_char in H.
    rewrite H. reflexivity. }
  rewrite !forallb_app, (forallb_impl _ _ _ Hq Hk), (forallb_impl _ _ _ Hq Hv).
  reflexivity.
Qed.

(** ** The fields [urlencode] writes are read back by [parse_qsl] *)

Lemma parse_qsl_fields (ps : list (str * str)) (l : list str) :
  Forall2 reads_as ps l -> parse_qsl (join [38] l) = ps.
Proof.
  unfold parse_qsl. induction 1 as [|nv f ps l Hf Hrest IH]; [reflexivity|].
  destruct l as [|g l].
  - inversion Hrest; subst. cbn [join].
    rewrite split_plain by (now apply field_no_ampersand in Hf).
    cbn [flat_map]. now rewrite (field_parsed _ _ Hf).
  - change (join [38] (f :: g :: l)) with (f ++ 38 :: join [38] (g :: l)).
    rewrite split_app by (now apply field_no_ampersand in Hf).
    cbn [flat_map]. now rewrite (field_parsed _ _ Hf), IH.
Qed.

Lemma join_fields_chars (ps : list (str * str)) (l : list str) :
  Forall2 reads_as ps l -> forallb urlencoded_char (join [38] l) = true.
Proof.
  induction 1 as [|nv f ps l Hf Hrest IH]; [reflexivity|].
  destruct l as [|g l].
  - cbn [join]. now apply field_chars in Hf.
  - change (join [38] (f :: g :: l)) with (f ++ 38 :: join [38] (g :: l)).
    rewrite forallb_app. cbn [forallb]. rewrite IH.
    now rewrite (field_chars _ _ Hf).
Qed.

Lemma join_fields_nonempty (ps : list (str * str)) (l : list str) :
  Forall2 reads_as ps l -> ps <> [] -> join [38] l <> [].
Proof.
  intros H Hne. destruct H as [|nv f ps l Hf Hrest]; [congruence|].
  apply field_nonempty in Hf. destruct f as [|c f]; [congruence|].
  destruct l; discriminate.
Qed.

Lemma urlencode_values_fields (k k' : str) (vs : list str) :
  forallb quoted_char k' = true ->
  unquote (replace 43 32 k') = k ->
  Forall value_ok vs ->
  exists l, urlencode_values k' vs = inl l
            /\ Forall2 reads_as (map (fun v => (k, v)) vs) l.
Proof.
  intros Hk Hkn. induction 1 as [|v vs [Hne Henc] Hvs IH].
  - exists []. split; [reflexivity | constructor].
  - destruct IH as (l & Hl & Hfields).
    destruct (quote_plus_unquote v Henc) as (q & Hq & Hqc & Hqn & Hqne).
    exists ((k' ++ py "=" ++ q) :: l). split.
    + cbn [urlencode_values]. rewrite Hq. cbn [rbind ok]. rewrite Hl.
      reflexivity.
    + cbn [map]. constructor; [|exact Hfields].
      exists k', q. repeat split; auto.
Qed.

Lemma urlencode_items_fields (d : dict (list str)) :
  Forall (fun kv : str * list str =>
            encodable (fst kv) /\ snd kv <> [] /\ Forall value_ok (snd kv)) d ->
  exists l, urlencode_items d = inl l /\ Forall2 reads_as (pairs_of d) l.
Proof.
  induction 1 as [|[k vs] d (Hk & Hne & Hvs) Hd IH].
  - exists []. split; [reflexivity | constructor].
  - cbn [fst snd] in *. destruct IH as (l2 & Hl2 & Hf2).
    destruct (quote_plus_unquote k Hk) as (k' & Hq & Hqc & Hqn & _).
    destruct (urlencode_values_fields k k' vs Hqc Hqn Hvs) as (l1 & Hl1 & Hf1).
    exists (l1 ++ l2). split.
    + cbn [urlencode_items]. rewrite Hq. cbn [rbind ok]. rewrite Hl1, Hl2.
      reflexivity.
    + unfold pairs_of. cbn [flat_map fst snd]. now apply Forall2_app.
Qed.

Lemma pairs_of_nonempty (d : dict (list str)) :
  well_formed_query d -> d <> [] -> pairs_of d <> [].
Proof.
  intros [_ Hall] Hne. destruct d as [|[k vs] d]; [congruence|].
  inversion Hall as [|? ? (_ & Hvs & _) _]; subst. cbn [snd] in Hvs.
  unfold pairs_of. cbn [flat_map fst snd].
  destruct vs; [congruence | discriminate].
Qed.

(** [urlencode] writes a well-formed mapping as a query string that
    [parse_qs] reads back as the same mapping. *)
Lemma urlencode_parse_qs (d : dict (list str)) :
  well_formed_query d ->
  exists q,
    urlencode d = inl q
    /\ parse_qs q = d
    /\ forallb urlencoded_char q = true
    /\ (d <> [] -> q <> []).
Proof.
  intros Hd. destruct (urlencode_items_fields d (proj2 Hd)) as (l & Hl & Hf).
  exists (join [38] l). repeat split.
  - unfold urlencode. rewrite Hl. reflexivity.
  - unfold parse_qs. rewrite (parse_qsl_fields _ _ Hf).
    now apply parse_pairs_of.
  - now apply join_fields_chars in Hf.
  - intros Hne. apply (join_fields_nonempty _ _ Hf).
    now apply pairs_of_nonempty.
Qed.

(** ** What [parse_qs] reads is well formed *)

Lemma runs_concat (x : str) : List.concat (map snd (runs x)) = x.
Proof.
  induction x as [|c x IH]; [reflexivity|]. cbn [runs].
  destruct (runs x) as [|[b w] gs].
  - cbn in IH. subst. reflexivity.
  - cbn [map snd List.concat] in IH.
    destruct (Bool.eqb b (is_ascii c)); cbn [map snd List.concat app];
      now rewrite IH.
Qed.

Lemma runs_parts_nonempty (x : str) :
  Forall (fun bw : bool * str => snd bw <> []) (runs x).
Proof.
  induction x as [|c x IH]; [constructor|]. cbn [runs].
  destruct (runs x) as [|[b w] gs].
  - constructor; [discriminate | constructor].
  - inversion IH; subst.
    destruct (Bool.eqb b (is_ascii c)); constructor; try discriminate; auto.
Qed.

Lemma runs_nonempty (x : str) : x <> [] -> runs x <> [].
Proof.
  destruct x as [|c x]; [congruence|]. intros _. cbn [runs].
  destruct (runs x) as [|[b w] gs]; [discriminate|].
  destruct (Bool.eqb b (is_ascii c)); discriminate.
Qed.

Lemma forallb_concat (P : N -> bool) (l : list str) :
  forallb P (List.concat l) = true <->
  Forall (fun w => forallb P w = true) l.
Proof.
  induction l as [|w l IH]; cbn [List.concat].
  - split; [constructor | reflexivity].
  - rewrite forallb_app, andb_true_iff, IH. split.
    + intros [? ?]. now constructor.
    + intros H. inversion H; subst. now split.
Qed.

Lemma unquote_encodable (x : str) : encodable x -> encodable (unquote x).
Proof.
  unfold encodable, unquote. intros Hx.
  destruct (has 37 x); cbn [negb]; [|exact Hx].
  apply forallb_concat.
  rewrite <- (runs_concat x) in Hx. apply forallb_concat in Hx.
  induction (runs x) as [|[b w] gs IH]; cbn [map]; [constructor|].
  cbn [map] in Hx. inversion Hx; subst. constructor; [|now apply IH].
  cbn [fst snd] in *. destruct b; [apply decode_scalar | assumption].
Qed.

Lemma unquote_nonempty (x : str) : x <> [] -> unquote x <> [].
Proof.
  intros Hx. unfold unquote. destruct (has 37 x); cbn [negb]; [|exact Hx].
  pose proof (runs_nonempty x Hx) as Hr.
  pose proof (runs_parts_nonempty x) as Hp.
  destruct (runs x) as [|[b w] gs]; [congruence|].
  inversion Hp; subst. cbn [snd] in *. cbn [map List.concat fst snd].
  intros Happ. apply app_eq_nil in Happ as [Happ _].
  destruct b.
  - revert Happ. now apply Utf8Facts.decode_nonempty, unquote_to_bytes_nonempty.
  - congruence.
Qed.

Lemma replace_encodable (x : str) :
  encodable x -> encodable (replace 43 32 x).
Proof.
  unfold encodable, replace.
  induction x as [|c x IH]; cbn [forallb map]; intros H; [reflexivity|].
  apply andb_true_iff in H as [Hc Hx]. rewrite (IH Hx), andb_true_r.
  destruct (c =? 43); [reflexivity | exact Hc].
Qed.

Lemma split_forall (P : N -> bool) (sep : N) (s : str) :
  forallb P s = true -> Forall (fun w => forallb P w = true) (split sep s).
Proof.
  induction s as [|c s IH]; cbn [forallb split]; intros H.
  - constructor; [reflexivity | constructor].
  - apply andb_true_iff in H as [Hc Hs]. specialize (IH Hs).
    destruct (c =? sep); [constructor; [reflexivity | exact IH]|].
    destruct (split sep s) as [|w ws].
    + constructor; [cbn; now rewrite Hc | constructor].
    + inversion IH; subst. constructor; [|assumption].
      cbn [forallb]. now rewrite Hc.
Qed.

Lemma partition_forall (P : N -> bool) (sep : N) (s a b : str) :
  forallb P s = true -> partition sep s = Some (a, b) ->
  forallb P a = true /\ forallb P b = true.
Proof.
  intros Hs Hp. apply partition_some in Hp as [-> _].
  rewrite forallb_app in Hs. cbn [forallb] in Hs.
  apply andb_true_iff in Hs as [Ha Hb].
  apply andb_true_iff in Hb as [_ Hb]. now split.
Qed.

Lemma parse_field_ok (f : str) :
  encodable f ->
  Forall (fun nv => encodable (fst nv) /\ value_ok (snd nv)) (parse_field f).
Proof.
  intros Hf. unfold parse_field. destruct f as [|c f]; [constructor|].
  destruct (partition 61 (c :: f)) as [[n v]|] eqn:E; [|constructor].
  destruct (partition_forall _ _ _ _ _ Hf E) as [Hn Hv].
  destruct v as [|c' v']; cbn [nonempty]; [constructor|].
  constructor; [|constructor]. cbn [fst snd]. split; [|split].
  - now apply unquote_encodable, replace_encodable.
  - apply unquote_nonempty. discriminate.
  - now apply unquote_encodable, replace_encodable.
Qed.

Lemma parse_qsl_ok (qs : str) :
  encodable qs ->
  Forall (fun nv => encodable (fst nv) /\ value_ok (snd nv)) (parse_qsl qs).
Proof.
  intros Hq. unfold parse_qsl.
  pose proof (split_forall is_scalar 38 qs Hq) as Hs.
  induction Hs as [|w ws Hw Hws IH]; cbn [flat_map]; [constructor|].
  apply Forall_app. split; [now apply parse_field_ok | exact IH].
Qed.

Lemma parse_qs_well_formed (qs : str) :
  encodable qs -> well_formed_query (parse_qs qs).
Proof.
  intros Hq. unfold parse_qs. apply well_formed_fold.
  - now apply parse_qsl_ok.
  - split; constructor.
Qed.

End FieldFacts.

(* ================================================================== *)
(** * Splitting and joining URLs *)
(* ================================================================== *)

Module UrlFacts.
Import PyStr PyExc Notions Urllib Utf8Facts QuoteFacts QueryFacts FieldFacts.
Open Scope N_scope.

Lemma partition_none_inv (sep : N) (s : str) :
  partition sep s = None -> has sep s = false.
Proof.
  unfold has. induction s as [|c s IH]; cbn [partition existsb]; intros H.
  - reflexivity.
  - destruct (c =? sep) eqn:E; [discriminate|].
    destruct (partition sep s) as [[a b]|]; [discriminate|].
    now rewrite N.eqb_sym, E, IH.
Qed.

Lemma partition_app_none (sep : N) (a y : str) :
  has sep a = false ->
  partition sep (a ++ y)
  = match partition sep y with
    | Some (a', b') => Some (a ++ a', b')
    | None => None
    end.
Proof.
  unfold has. induction a as [|c a IH]; cbn [existsb partition app]; intros H.
  - destruct (partition sep y) as [[a' b']|]; reflexivity.
  - apply orb_false_iff in H as [Hc Ha]. rewrite N.eqb_sym, Hc, (IH Ha).
    destruct (partition sep y) as [[a' b']|]; reflexivity.
Qed.

(** ** Parts of a text keep what holds of all its characters *)

Section Parts.
Variable P : N -> bool.

Lemma lstrip_c0_forall (s : str) :
  forallb P s = true -> forallb P (lstrip_c0 s) = true.
Proof.
  induction s as [|c s IH]; cbn [forallb lstrip_c0]; intros H; [reflexivity|].
  destruct (c0_control_or_space c); [|exact H].
  apply andb_true_iff in H as [_ H]. now apply IH.
Qed.

Lemma remove_char_forall (a : N) (s : str) :
  forallb P s = true -> forallb P (remove_char a s) = true.
Proof.
  unfold remove_char.
  induction s as [|c s IH]; cbn [forallb filter]; intros H; [reflexivity|].
  apply andb_true_iff in H as [Hc Hs].
  destruct (negb (c =? a)); [cbn [forallb]; rewrite Hc|]; now apply IH.
Qed.

Lemma remove_unsafe_forall (s : str) :
  forallb P s = true -> forallb P (remove_unsafe s) = true.
Proof. intros H. unfold remove_unsafe. now do 3 apply remove_char_forall. Qed.

Lemma split_scheme_rest_forall (s : str) :
  forallb P s = true -> forallb P (snd (split_scheme s)) = true.
Proof.
  intros H. unfold split_scheme.
  destruct (partition 58 s) as [[[|c p] rest]|] eqn:E; try exact H.
  destruct (is_ascii_alpha c && forallb scheme_char (c :: p)); [|exact H].
  cbn [snd]. now destruct (partition_forall _ _ _ _ _ H E).
Qed.

Lemma span_netloc_forall (s : str) :
  forallb P s = true ->
  forallb P (fst (span_netloc s)) = true
  /\ forallb P (snd (span_netloc s)) = true.
Proof.
  induction s as [|c s IH]; cbn [forallb span_netloc]; intros H.
  - now split.
  - destruct ((c =? 47) || (c =? 63) || (c =? 35)); [now split|].
    apply andb_true_iff in H as [Hc Hs]. destruct (IH Hs) as [Ha Hb].
    destruct (span_netloc s) as [a b]. cbn [fst snd forallb] in *.
    now rewrite Hc, Ha.
Qed.

Lemma split_netloc_rest_forall (s : str) :
  forallb P s = true -> forallb P (snd (split_netloc s)) = true.
Proof.
  intros H. unfold split_netloc. destruct s as [|c1 [|c2 r]]; try exact H.
  destruct ((c1 =? 47) && (c2 =? 47)); [|exact H].
  cbn [forallb] in H. apply andb_true_iff in H as [_ H].
  apply andb_true_iff in H as [_ H]. now apply span_netloc_forall.
Qed.

Lemma rsplit_slash_forall (s : str) :
  forallb P s = true ->
  forallb P (fst (rsplit_slash s)) = true
  /\ forallb P (snd (rsplit_slash s)) = true.
Proof.
  induction s as [|c s IH]; cbn [forallb rsplit_slash]; intros H.
  - now split.
  - destruct (has 47 s); [|now split].
    apply andb_true_iff in H as [Hc Hs]. destruct (IH Hs) as [Ha Hb].
    destruct (rsplit_slash s) as [a b]. cbn [fst snd forallb] in *.
    now rewrite Hc, Ha.
Qed.

Lemma splitparams_forall (s : str) :
  forallb P s = true ->
  forallb P (fst (splitparams s)) = true
  /\ forallb P (snd (splitparams s)) = true.
Proof.
  intros H. unfold splitparams.
  destruct (rsplit_slash_forall s H) as [Hh Hs].
  destruct (rsplit_slash s) as [head seg]. cbn [fst snd] in *.
  destruct (partition 59 seg) as [[a b]|] eqn:E; cbn [fst snd].
  - destruct (partition_forall _ _ _ _ _ Hs E) as [Ha Hb].
    now rewrite forallb_app, Hh, Ha.
  - now split.
Qed.
End Parts.

(** The query of a URL is part of the URL. *)
Lemma urlsplit_parts_query_forall (P : N -> bool) (u : str) :
  forallb P u = true -> forallb P (s_query (urlsplit_parts u)) = true.
Proof.
  intros H. unfold urlsplit_parts.
  pose proof (split_scheme_rest_forall P _
                (remove_unsafe_forall P _ (lstrip_c0_forall P _ H))) as H1.
  destruct (split_scheme (remove_unsafe (lstrip_c0 u))) as [sch u1].
  cbn [snd] in H1.
  pose proof (split_netloc_rest_forall P _ H1) as H2.
  destruct (split_netloc u1) as [net u2]. cbn [snd] in H2.
  assert (H3 : forallb P (fst (match partition 35 u2 with
                               | Some (a, b) => (a, b)
                               | None => (u2, [])
                               end)) = true).
  { destruct (partition 35 u2) as [[a b]|] eqn:E; cbn [fst]; [|exact H2].
    now destruct (partition_forall _ _ _ _ _ H2 E). }
  destruct (match partition 35 u2 with
            | Some (a, b) => (a, b)
            | None => (u2, [])
            end) as [u3 frag].
  cbn [fst] in H3.
  destruct (partition 63 u3) as [[a b]|] eqn:E; cbn [s_query]; [|reflexivity].
  now destruct (partition_forall _ _ _ _ _ H3 E).
Qed.

(** ** What comes before the query holds neither [?] nor [#] *)

Lemma before_query_no (s : str) :
  has 63 s = false -> has 35 s = false ->
  forallb before_query_char s = true.
Proof.
  unfold has, before_query_char.
  induction s as [|c s IH]; cbn [existsb forallb]; intros H1 H2; [reflexivity|].
  apply orb_false_iff in H1 as [H1 H1']. apply orb_false_iff in H2 as [H2 H2'].
  rewrite (N.eqb_sym c 63), H1, (N.eqb_sym c 35), H2. now rewrite IH.
Qed.

Lemma before_query_has (s : str) :
  forallb before_query_char s = true ->
  has 63 s = false /\ has 35 s = false.
Proof.
  intros H; split; eapply has_false_forallb; try exact H; reflexivity.
Qed.

Lemma scheme_before_query (s : str) :
  forallb before_query_char (fst (split_scheme s)) = true.
Proof.
  unfold split_scheme.
  destruct (partition 58 s) as [[[|c p] rest]|]; try reflexivity.
  destruct (is_ascii_alpha c && forallb scheme_char (c :: p)) eqn:E;
    [|reflexivity].
  apply andb_true_iff in E as [_ E]. cbn [fst].
  induction (c :: p) as [|x l IH]; [reflexivity|].
  cbn [forallb map] in *. apply andb_true_iff in E as [Hx Hl].
  rewrite (IH Hl), andb_true_r.
  unfold scheme_char, is_upper, is_lower, is_digit in Hx.
  unfold before_query_char, ascii_lower, is_upper.
  repeat (apply orb_true_iff in Hx as [Hx|Hx]); bounds;
    settle; cbn [andb]; settle; reflexivity.
Qed.

Lemma span_netloc_before_query (s : str) :
  forallb before_query_char (fst (span_netloc s)) = true.
Proof.
  induction s as [|c s IH]; cbn [span_netloc]; [reflexivity|].
  destruct ((c =? 47) || (c =? 63) || (c =? 35)) eqn:E; [reflexivity|].
  destruct (span_netloc s) as [a b]. cbn [fst forallb] in *.
  rewrite IH, andb_true_r. unfold before_query_char.
  apply orb_false_iff in E as [E E35]. apply orb_false_iff in E as [_ E63].
  now rewrite E63, E35.
Qed.

Lemma netloc_before_query (s : str) :
  forallb before_query_char (fst (split_netloc s)) = true.
Proof.
  unfold split_netloc. destruct s as [|c1 [|c2 r]]; try reflexivity.
  destruct ((c1 =? 47) && (c2 =? 47)); [|reflexivity].
  apply span_netloc_before_query.
Qed.

(** The scheme, the network location and the path of a URL hold neither
    [?] nor [#]. *)
Lemma urlsplit_parts_before_query (u : str) :
  forallb before_query_char (s_scheme (urlsplit_parts u)) = true
  /\ forallb before_query_char (s_netloc (urlsplit_parts u)) = true
  /\ forallb before_query_char (s_path (urlsplit_parts u)) = true.
Proof.
  unfold urlsplit_parts.
  pose proof (scheme_before_query (remove_unsafe (lstrip_c0 u))) as H1.
  destruct (split_scheme (remove_unsafe (lstrip_c0 u))) as [sch u1].
  pose proof (netloc_before_query u1) as H2.
  destruct (split_netloc u1) as [net u2]. cbn [fst] in *.
  assert (H3 : has 35 (fst (match partition 35 u2 with
                            | Some (a, b) => (a, b)
                            | None => (u2, [])
                            end)) = false).
  { destruct (partition 35 u2) as [[a b]|] eqn:E; cbn [fst].
    - now apply partition_some in E.
    - now apply partition_none_inv. }
  destruct (match partition 35 u2 with
            | Some (a, b) => (a, b)
            | None => (u2, [])
            end) as [u3 frag].
  cbn [fst] in H3.
  destruct (partition 63 u3) as [[a b]|] eqn:E;
    cbn [s_scheme s_netloc s_path]; repeat split; try assumption.
  - apply partition_some in E as [-> Ha]. rewrite has_app in H3.
    apply orb_false_iff in H3 as [H3 _]. now apply before_query_no.
  - apply partition_none_inv in E. now apply before_query_no.
Qed.

(** The same of the parts [urlparse] returns, and its query is that of
    [urlsplit]. *)
Lemma urlparse_parts chk (u : str) (r : ParseResult) :
  urlparse chk u = inl r ->
  forallb before_query_char (scheme r) = true
  /\ forallb before_query_char (netloc r) = true
  /\ forallb before_query_char (path r) = true
  /\ forallb before_query_char (params r) = true
  /\ query r = s_query (urlsplit_parts u).
Proof.
  unfold urlparse, urlsplit.
  destruct (urlsplit_parts_before_query u) as (Hs & Hn & Hp).
  destruct ((has 91 (s_netloc (urlsplit_parts u))
             && negb (has 93 (s_netloc (urlsplit_parts u))))
            || (has 93 (s_netloc (urlsplit_parts u))
                && negb (has 91 (s_netloc (urlsplit_parts u)))));
    [discriminate|].
  destruct (chk (s_netloc (urlsplit_parts u))); [discriminate|].
  cbn [rbind ok].
  destruct (splitparams_forall before_query_char _ Hp) as [Hp1 Hp2].
  destruct (str_in_list (s_scheme (urlsplit_parts u)) uses_params
            && has 59 (s_path (urlsplit_parts u))).
  - destruct (splitparams (s_path (urlsplit_parts u))) as [p1 p2].
    intros [= <-]. cbn [scheme netloc path params query fst snd] in *. tauto.
  - intros [= <-]. cbn [scheme netloc path params query]. tauto.
Qed.

End UrlFacts.

(* ================================================================== *)
(** * The query of the URL the builder returns *)
(* ================================================================== *)

Module BuilderFacts.
Import PyStr PyExc Notions Urllib Utf8Facts QuoteFacts QueryFacts FieldFacts.
Import UrlFacts.
Open Scope N_scope.

Lemma remove_char_absent (a : N) (x : str) :
  has a x = false -> remove_char a x = x.
Proof.
  unfold has, remove_char.
  induction x as [|c x IH]; cbn [filter existsb]; intros H; [reflexivity|].
  apply orb_false_iff in H as [Hc Hx]. rewrite (N.eqb_sym c a), Hc.
  cbn [negb]. now rewrite IH.
Qed.

Section Assembled.
Variable q : str.
Hypothesis Hq : forallb urlencoded_char q = true.

Lemma remove_char_query (a : N) :
  urlencoded_char a = false -> remove_char a q = q.
Proof.
  intros Ha. apply remove_char_absent.
  now apply has_false_forallb with (P := urlencoded_char).
Qed.

Lemma assembled_lstrip (u : str) : assembled q u -> assembled q (lstrip_c0 u).
Proof.
  intros (p & f & -> & Hp & Hf).
  induction p as [|c p IH]; cbn [app lstrip_c0].
  - exists [], f. cbn [c0_control_or_space]. now repeat split.
  - cbn [forallb] in Hp. apply andb_true_iff in Hp as [Hc Hp].
    destruct (c0_control_or_space c); [now apply IH|].
    exists (c :: p), f. repeat split; [|exact Hf]. cbn [forallb].
    now rewrite Hc, Hp.
Qed.

Lemma assembled_remove (a : N) (u : str) :
  urlencoded_char a = false -> a <> 63 -> a <> 35 ->
  assembled q u -> assembled q (remove_char a u).
Proof.
  intros Ha H63 H35 (p & f & -> & Hp & Hf).
  exists (remove_char a p), (remove_char a f). split; [|split].
  - unfold remove_char at 1. rewrite filter_app. cbn [filter].
    rewrite (proj2 (N.eqb_neq 63 a)) by congruence. cbn [negb].
    rewrite filter_app. fold (remove_char a q). now rewrite remove_char_query.
  - now apply remove_char_forall.
  - destruct Hf as [->|[f' ->]]; [now left|]. right.
    exists (remove_char a f'). unfold remove_char. cbn [filter].
    now rewrite (proj2 (N.eqb_neq 35 a)) by congruence.
Qed.

Lemma assembled_remove_unsafe (u : str) :
  assembled q u -> assembled q (remove_unsafe u).
Proof.
  intros H. unfold remove_unsafe.
  repeat apply assembled_remove; try reflexivity; try discriminate; exact H.
Qed.

Lemma assembled_split_scheme (u : str) :
  assembled q u -> assembled q (snd (split_scheme u)).
Proof.
  intros (p & f & -> & Hp & Hf). unfold split_scheme.
  destruct (partition 58 p) as [[a b]|] eqn:E.
  - pose proof (partition_forall _ _ _ _ _ Hp E) as [_ Hb].
    apply partition_some in E as [-> Ha]. rewrite <- app_assoc. cbn [app].
    rewrite partition_app by exact Ha.
    destruct a as [|c a'].
    + exists (58 :: b), f. cbn [app snd]. repeat split; [|exact Hf].
      cbn [forallb]. now rewrite Hb.
    + destruct (is_ascii_alpha c && forallb scheme_char (c :: a')).
      * exists b, f. now repeat split.
      * exists ((c :: a') ++ 58 :: b), f. cbn [snd]. rewrite <- app_assoc.
        repeat split; [exact Hp | exact Hf].
  - apply partition_none_inv in E. rewrite partition_app_none by exact E.
    cbn [partition]. cbn [N.eqb Pos.eqb].
    destruct (partition 58 (q ++ f)) as [[a' b']|].
    + destruct (p ++ 63 :: a') as [|c l] eqn:El.
      * exists p, f. now repeat split.
      * assert (Hs : forallb scheme_char (c :: l) = false).
        { rewrite <- El, forallb_app. cbn [forallb].
          now rewrite andb_false_r. }
        rewrite Hs, andb_false_r. exists p, f. now repeat split.
    + exists p, f. now repeat split.
Qed.

Lemma span_netloc_app (a b : str) :
  snd (span_netloc (a ++ 63 :: b)) = snd (span_netloc a) ++ 63 :: b.
Proof.
  induction a as [|c a IH]; cbn [app span_netloc].
  - reflexivity.
  - destruct ((c =? 47) || (c =? 63) || (c =? 35)); [reflexivity|].
    destruct (span_netloc (a ++ 63 :: b)) as [x y].
    destruct (span_netloc a) as [x' y']. exact IH.
Qed.

Lemma assembled_split_netloc (u : str) :
  assembled q u -> assembled q (snd (split_netloc u)).
Proof.
  intros (p & f & -> & Hp & Hf). unfold split_netloc.
  destruct p as [|c1 [|c2 p]]; cbn [app].
  - exists [], f. split; [|split; [reflexivity | exact Hf]].
    cbn [app]. generalize (q ++ f). intros [|c2 r]; reflexivity.
  - rewrite andb_false_r. exists [c1], f. now repeat split.
  - destruct ((c1 =? 47) && (c2 =? 47)).
    + rewrite span_netloc_app. exists (snd (span_netloc p)), f.
      repeat split; [|exact Hf].
      cbn [forallb] in Hp. apply andb_true_iff in Hp as [_ Hp].
      apply andb_true_iff in Hp as [_ Hp]. now apply span_netloc_forall.
    + exists (c1 :: c2 :: p), f. now repeat split.
Qed.

(** [urlsplit] finds the query of an assembled URL. *)
Lemma query_of_assembled (u : str) :
  assembled q u -> s_query (urlsplit_parts u) = q.
Proof.
  intros H. unfold urlsplit_parts.
  pose proof (assembled_split_scheme _
                (assembled_remove_unsafe _ (assembled_lstrip _ H))) as H1.
  destruct (split_scheme (remove_unsafe (lstrip_c0 u))) as [sch u1].
  cbn [snd] in H1. apply assembled_split_netloc in H1.
  destruct (split_netloc u1) as [net u2]. cbn [snd] in H1.
  destruct H1 as (p & f & -> & Hp & Hf).
  destruct (before_query_has p Hp) as [Hp63 Hp35].
  assert (Hq35 : has 35 q = false)
    by (eapply has_false_forallb; [|exact Hq]; reflexivity).
  destruct Hf as [->|[f' ->]].
  - rewrite app_nil_r. rewrite partition_none.
    + rewrite partition_app by exact Hp63. reflexivity.
    + rewrite has_app, Hp35. cbn [has existsb]. cbn [N.eqb Pos.eqb orb].
      exact Hq35.
  - change (p ++ 63 :: q ++ 35 :: f') with (p ++ (63 :: q) ++ 35 :: f').
    rewrite app_assoc. rewrite partition_app.
    + rewrite partition_app by exact Hp63. reflexivity.
    + rewrite has_app, Hp35. cbn [has existsb]. cbn [N.eqb Pos.eqb orb].
      exact Hq35.
Qed.
End Assembled.

(** [urlunparse] with a query that is not empty assembles a URL. *)
Lemma urlunparse_assembled (r : ParseResult) (q : str) :
  forallb before_query_char (scheme r) = true ->
  forallb before_query_char (netloc r) = true ->
  forallb before_query_char (path r) = true ->
  forallb before_query_char (params r) = true ->
  q <> [] ->
  assembled q (urlunparse (replace_query r q)).
Proof.
  intros Hs Hn Hp Hpr Hq.
  unfold urlunparse, replace_query, urlunsplit.
  cbn [scheme netloc path params query fragment
       s_scheme s_netloc s_path s_query s_fragment].
  change (py ";") with [59]. change (py "//") with [47; 47].
  change (py "/") with [47]. change (py ":") with [58].
  change (py "?") with [63]. change (py "#") with [35].
  set (url1 := if nonempty (params r) then path r ++ [59] ++ params r
               else path r).
  assert (H1 : forallb before_query_char url1 = true).
  { unfold url1. destruct (nonempty (params r)); [|exact Hp].
    now rewrite !forallb_app, Hp, Hpr. }
  set (url2 := if nonempty (netloc r)
                  || nonempty (scheme r) && str_in_list (scheme r) uses_netloc
                     && negb (startswith [47; 47] url1)
               then [47; 47] ++ netloc r
                      ++ (if nonempty url1 && negb (startswith [47] url1)
                          then [47] ++ url1 else url1)
               else url1).
  assert (H2 : forallb before_query_char url2 = true).
  { unfold url2.
    destruct (nonempty (netloc r)
              || nonempty (scheme r) && str_in_list (scheme r) uses_netloc
                 && negb (startswith [47; 47] url1)); [|exact H1].
    destruct (nonempty url1 && negb (startswith [47] url1));
      rewrite !forallb_app, Hn, ?H1; cbn [forallb]; now rewrite ?H1. }
  set (url3 := if nonempty (scheme r) then scheme r ++ [58] ++ url2 else url2).
  assert (H3 : forallb before_query_char url3 = true).
  { unfold url3. destruct (nonempty (scheme r)); [|exact H2].
    now rewrite !forallb_app, Hs, H2. }
  destruct q as [|c q']; [congruence|]. cbn [nonempty].
  destruct (nonempty (fragment r)).
  - exists url3, (35 :: fragment r). split; [|split].
    + rewrite <- !app_assoc. reflexivity.
    + exact H3.
    + right. now exists (fragment r).
  - exists url3, []. split; [|split].
    + now rewrite app_nil_r.
    + exact H3.
    + now left.
Qed.

Section Builder.
Variable check_netloc : str -> option str.

(** The URL with the key: its query reads as the mapping of the original
    query with the entry of the key set. *)
Lemma url_with_key_query (base_url api_key key_param_name : str)
      (parsed : ParseResult) :
  encodable base_url -> value_ok api_key -> encodable key_param_name ->
  urlparse check_netloc base_url = inl parsed ->
  exists final,
    Temp.url_with_key check_netloc base_url api_key key_param_name
    = inl final
    /\ parse_qs (s_query (urlsplit_parts final))
       = dict_set (parse_qs (query parsed)) key_param_name [api_key].
Proof.
  intros Hb Hk Hn Hparse. unfold Temp.url_with_key. rewrite Hparse.
  cbn [rbind].
  destruct (urlparse_parts _ _ _ Hparse) as (Hs & Hnl & Hp & Hpr & Hqry).
  assert (Hwf : well_formed_query
                  (dict_set (parse_qs (query parsed)) key_param_name
                     [api_key])).
  { apply well_formed_set.
    - apply parse_qs_well_formed. rewrite Hqry.
      now apply urlsplit_parts_query_forall.
    - exact Hn.
    - discriminate.
    - now constructor. }
  destruct (urlencode_parse_qs _ Hwf) as (nq & Henc & Hread & Hchars & Hne).
  rewrite Henc. cbn [ok]. eexists. split; [reflexivity|].
  rewrite (query_of_assembled nq Hchars); [exact Hread|].
  apply urlunparse_assembled; try assumption.
  apply Hne. destruct (parse_qs (query parsed)) as [|[k v] d]; cbn [dict_set];
    [discriminate|]. destruct (str_eqb k key_param_name); discriminate.
Qed.
End Builder.

End BuilderFacts.

(* ================================================================== *)
(** * The key as a query parameter *)
(* ================================================================== *)

Module KeyParameter.
Import PyStr PyExc Notions Urllib QueryFacts BuilderFacts.
Open Scope N_scope.

(** X23: for a base URL that [urlparse] accepts, with encodable text, a
    key and a name that are not empty, and the name among the parameters
    [parse_qs] reads in the query of the base URL: the builder returns a
    URL whose query [parse_qs] reads as a mapping with the name mapped to
    the list of the key alone, with the same names in the same order, and
    with every other name mapped to the decoded values [parse_qs] read
    for it in the base URL.  (This is about the parameters [parse_qs]
    reads, and their decoded values, only.) *)
Theorem key_overwrites_only_its_parameter :
  forall chk base api_key name parsed,
    encodable base -> encodable api_key -> encodable name ->
    api_key <> [] -> name <> [] ->
    urlparse chk base = inl parsed ->
    dict_contains (parse_qs (query parsed)) name = true ->
    exists final,
      Temp.build_final_url chk base (Some api_key) (Some name) = inl final
      /\ dict_get (parse_qs (s_query (urlsplit_parts final))) name
         = Some [api_key]
      /\ dict_keys (parse_qs (s_query (urlsplit_parts final)))
         = dict_keys (parse_qs (query parsed))
      /\ forall k,
           k <> name ->
           dict_get (parse_qs (s_query (urlsplit_parts final))) k
           = dict_get (parse_qs (query parsed)) k.
Proof.
  intros chk base api_key name parsed Hb Hk Hn Hkne Hnne Hparse Hin.
  destruct (url_with_key_query chk base api_key name parsed)
    as (final & Hfinal & Hread); try assumption.
  { now split. }
  exists final. split; [|split; [|split]].
  - unfold Temp.build_final_url.
    destruct api_key as [|c1 k1]; [congruence|].
    destruct name as [|c2 n2]; [congruence|].
    now rewrite Hfinal.
  - rewrite Hread. apply dict_get_set_same.
  - rewrite Hread, dict_keys_set, Hin. reflexivity.
  - intros k Hne. rewrite Hread. now apply dict_get_set_other.
Qed.

Lemma key_overwrites_only_its_parameter_witness :
  exists final,
    Temp.build_final_url Samples.accept_netloc
      (py "https://example.org/data?q=a+b&appid=old&lang=%C3%A9&appid=older#top")
      (Some (py "K Y")) (Some (py "appid")) = inl final
    /\ dict_get (parse_qs (s_query (urlsplit_parts final))) (py "appid")
       = Some [py "K Y"]
    /\ dict_keys (parse_qs (s_query (urlsplit_parts final)))
       = dict_keys (parse_qs (py "q=a+b&appid=old&lang=%C3%A9&appid=older"))
    /\ forall k,
         k <> py "appid" ->
         dict_get (parse_qs (s_query (urlsplit_parts final))) k
         = dict_get (parse_qs (py "q=a+b&appid=old&lang=%C3%A9&appid=older"))
             k.
Proof.
  apply (key_overwrites_only_its_parameter Samples.accept_netloc
           (py "https://example.org/data?q=a+b&appid=old&lang=%C3%A9&appid=older#top")
           (py "K Y") (py "appid")
           (mkParse (py "https") (py "example.org") (py "/data") []
              (py "q=a+b&appid=old&lang=%C3%A9&appid=older") (py "top")));
    try discriminate; vm_compute; reflexivity.
Defined.

(** The URL the builder returns for that input. *)
Example key_parameter_example :
  Temp.build_final_url Samples.accept_netloc
    (py "https://example.org/data?q=a+b&appid=old&lang=%C3%A9&appid=older#top")
    (Some (py "K Y")) (Some (py "appid"))
  = inl (py "https://example.org/data?q=a+b&appid=K+Y&lang=%C3%A9#top").
Proof. vm_compute. reflexivity. Qed.

(** The query of the base URL has the parameters [flag], with a blank
    value, and [appid]; the URL the builder returns for the name [appid]
    has no [flag].  And with a key that UTF-8 cannot encode, a lone
    surrogate, or with a base URL that [urlparse] rejects, the builder
    returns no URL but a failure. *)
Example blank_parameter_is_dropped :
  urlparse Samples.accept_netloc
    (py "https://example.org/data?flag=&appid=old")
  = inl (mkParse (py "https") (py "example.org") (py "/data") []
           (py "flag=&appid=old") [])
  /\ split 38 (py "flag=&appid=old") = [py "flag="; py "appid=old"]
  /\ dict_contains (parse_qs (py "flag=&appid=old")) (py "appid") = true
  /\ Temp.build_final_url Samples.accept_netloc
       (py "https://example.org/data?flag=&appid=old")
       (Some (py "KEY")) (Some (py "appid"))
     = inl (py "https://example.org/data?appid=KEY")
  /\ py_in (py "flag") (py "https://example.org/data?appid=KEY") = false
  /\ Temp.build_final_url Samples.accept_netloc
       (py "https://example.org/data?flag=&appid=old")
       (Some [0xD800]) (Some (py "appid"))
     = inr (false,
            py "Error constructing URL with API key: 'utf-8' codec can't encode character '\ud800' in position 0: surrogates not allowed. Please check Base URL and Key Parameter Name.")
  /\ Temp.build_final_url Samples.accept_netloc
       (py "http://[::1/data?appid=old")
       (Some (py "KEY")) (Some (py "appid"))
     = inr (false,
            py "Error constructing URL with API key: Invalid IPv6 URL. Please check Base URL and Key Parameter Name.").
Proof. repeat split; vm_compute; reflexivity. Qed.

End KeyParameter.

(* ================================================================== *)
(** * More on the validator: what each answer of the network gives *)
(* ================================================================== *)

Module ValidatorAnswers.
Import PyStr PyExc Requests Notions RequestFacts StrFacts ValidatorFacts.
Import QuoteFacts FieldFacts BuilderFacts.

(** The one request of a call, in all its cases. *)
Lemma validate_api_key_log ul net key st :
  key <> [] ->
  net_log (snd (Main.validate_api_key ul net (Some key) st))
  = net_log st ++ [mkRequest (Main.test_url key) 5 false].
Proof.
  intros Hk. destruct key as [|c k]; [congruence|]. run_body.
  destruct (net _) as [r | rb msg].
  - destruct (raise_for_status r) as [[]|e].
    + destruct (json r) as [v|e].
      * destruct (Main.message_of ul v) as [m|e]; dispatch; reflexivity.
      * dispatch; reflexivity.
    + dispatch; reflexivity.
  - destruct rb; reflexivity.
Qed.

(** X2: a call of [validate_api_key] with a key that is not empty issues
    exactly one request, whatever comes of it: a GET of the test URL with
    the key appended, with a timeout of 5 and without verification of the
    certificate. *)
Theorem validator_issues_one_request :
  forall ul net key st,
    key <> [] ->
    net_log (snd (Main.validate_api_key ul net (Some key) st))
    = net_log st
        ++ [mkRequest
              (py "https://api.openweathermap.org/data/2.5/weather?q=NonExistentCity123&appid="
                 ++ key) 5 false].
Proof. intros. now apply validate_api_key_log. Qed.

Lemma validator_issues_one_request_witness :
  net_log (snd (Main.validate_api_key Samples.keep_case
                  (Samples.always Samples.unauthorized) (Some (py "abc"))
                  Samples.empty_frame))
  = [mkRequest
       (py "https://api.openweathermap.org/data/2.5/weather?q=NonExistentCity123&appid=abc")
       5 false].
Proof.
  apply (validator_issues_one_request Samples.keep_case
           (Samples.always Samples.unauthorized) (py "abc")
           Samples.empty_frame).
  discriminate.
Defined.

(** X1: the validator reports success only for a response with status
    200 whose body decodes to a value with a message that does not hold
    "invalid api key"; the text of the success is then the one of the
    "unexpected 200" branch. *)
Theorem validator_success_means_200 :
  forall ul net api st s,
    fst (Main.validate_api_key ul net api st) = inl (true, s) ->
    exists key r v m,
      api = Some key /\ key <> []
      /\ net (mkRequest (Main.test_url key) 5 false) = Returned r
      /\ status_code r = 200%Z
      /\ json r = inl v
      /\ Main.message_of ul v = inl m
      /\ py_in (py "invalid api key") m = false
      /\ s = py "API Key is valid. (Unexpected 200 OK for test city, but key seems active).".
Proof.
  intros ul net api st s.
  destruct api as [[|c k]|]; [discriminate | | discriminate].
  run_body.
  destruct (net _) as [r | rb msg] eqn:En.
  - destruct (raise_for_status r) as [[]|e] eqn:Er.
    + destruct (json r) as [v|e] eqn:Ej.
      * destruct (Main.message_of ul v) as [m|e] eqn:Em.
        -- cbn. unfold Main.classify.
           destruct (py_in (py "invalid api key") m) eqn:Ei; [discriminate|].
           destruct (py_in (py "city not found") m); cbn [andb].
           ++ destruct (status_code r =? 404)%Z eqn:E404.
              ** apply Z.eqb_eq in E404. unfold raise_for_status in Er.
                 rewrite E404 in Er. discriminate.
              ** destruct (status_code r =? 200)%Z eqn:E200; [|discriminate].
                 intros [= <-]. apply Z.eqb_eq in E200.
                 exists (c :: k), r, v, m. repeat split; auto. discriminate.
           ++ destruct (status_code r =? 200)%Z eqn:E200; [|discriminate].
              intros [= <-]. apply Z.eqb_eq in E200.
              exists (c :: k), r, v, m. repeat split; auto. discriminate.
        -- dispatch; discriminate.
      * dispatch; discriminate.
    + dispatch; discriminate.
  - destruct rb; discriminate.
Qed.

Lemma validator_success_means_200_witness :
  exists key r v m,
    Some (py "abc") = Some key /\ key <> []
    /\ Samples.always Samples.ok_empty_object
         (mkRequest (Main.test_url key) 5 false) = Returned r
    /\ status_code r = 200%Z
    /\ json r = inl v
    /\ Main.message_of Samples.keep_case v = inl m
    /\ py_in (py "invalid api key") m = false
    /\ py "API Key is valid. (Unexpected 200 OK for test city, but key seems active)."
       = py "API Key is valid. (Unexpected 200 OK for test city, but key seems active).".
Proof.
  apply (validator_success_means_200 Samples.keep_case
           (Samples.always Samples.ok_empty_object) (Some (py "abc"))
           Samples.empty_frame).
  vm_compute. reflexivity.
Defined.

(** X3: when [requests.get] raises, the validator returns a failure: the
    communication error with the text of the exception for a
    [RequestException] (no connection, timeout), the internal error with
    that text for any other exception. *)
Theorem validator_reports_raised_exception :
  forall ul net key st is_request_exception msg,
    key <> [] ->
    net (mkRequest (Main.test_url key) 5 false)
    = Raised is_request_exception msg ->
    fst (Main.validate_api_key ul net (Some key) st)
    = inl (false,
           if is_request_exception
           then py "Network or API communication error: " ++ msg
                  ++ py ". Check internet, API key, or try again later."
           else py "An unexpected internal error occurred: " ++ msg).
Proof.
  intros ul net key st b msg Hk Hn. destruct key as [|c k]; [congruence|].
  run_body. rewrite Hn. destruct b; reflexivity.
Qed.

Lemma validator_reports_raised_exception_witness :
  fst (Main.validate_api_key Samples.keep_case
         (fun _ => Raised true (py "Read timed out. (read timeout=5)"))
         (Some (py "abc")) Samples.empty_frame)
  = inl (false,
         py "Network or API communication error: "
           ++ py "Read timed out. (read timeout=5)"
           ++ py ". Check internet, API key, or try again later.").
Proof.
  apply (validator_reports_raised_exception Samples.keep_case
           (fun _ => Raised true (py "Read timed out. (read timeout=5)"))
           (py "abc") Samples.empty_frame true
           (py "Read timed out. (read timeout=5)")).
  - discriminate.
  - reflexivity.
Defined.

(** A body that decodes but of which no message can be read. *)
Lemma validate_api_key_no_message ul net key st r v e :
  key <> [] ->
  net (mkRequest (Main.test_url key) 5 false) = Returned r ->
  status_passes (status_code r) ->
  json r = inl v ->
  Main.message_of ul v = inr e ->
  fst (Main.validate_api_key ul net (Some key) st)
  = if isinstance e RequestException
    then inl (false,
              py "Network or API communication error: " ++ exn_str e
                ++ py ". Check internet, API key, or try again later.")
    else if isinstance e JSONDecodeError
    then inl (false,
              py "API returned unreadable data (not valid JSON format).")
    else inl (false, py "An unexpected internal error occurred: "
                       ++ exn_str e).
Proof.
  intros Hk Hn Hs Hj Hm. destruct key as [|c k]; [congruence|].
  run_body. rewrite Hn, (raise_for_status_passes _ Hs), Hj, Hm.
  cbn. unfold isinstance.
  destruct (existsb (pyclass_eqb RequestException) (exn_classes e));
    [reflexivity|].
  destruct (existsb (pyclass_eqb JSONDecodeError) (exn_classes e));
    reflexivity.
Qed.

(** X4: a body that is JSON but no object, or an object whose message is
    no string, is reported as an internal error that names the type: the
    value has no method [get], the message no method [lower]. *)
Theorem validator_rejects_unexpected_json :
  forall ul net key st r v,
    key <> [] ->
    net (mkRequest (Main.test_url key) 5 false) = Returned r ->
    status_passes (status_code r) ->
    json r = inl v ->
    ((forall d, v <> Json.JDict d) ->
     fst (Main.validate_api_key ul net (Some key) st)
     = inl (false,
            py "An unexpected internal error occurred: " ++ py "'"
              ++ Json.type_name v ++ py "' object has no attribute 'get'"))
    /\ (forall d m,
          v = Json.JDict d ->
          Urllib.dict_get d (py "message") = Some m ->
          (forall s, m <> Json.JStr s) ->
          fst (Main.validate_api_key ul net (Some key) st)
          = inl (false,
                 py "An unexpected internal error occurred: " ++ py "'"
                   ++ Json.type_name m
                   ++ py "' object has no attribute 'lower'")).
Proof.
  intros ul net key st r v Hk Hn Hs Hj; split.
  - intros Hv.
    rewrite (validate_api_key_no_message ul net key st r v
               (Json.attribute_error v (py "get"))); try assumption.
    + reflexivity.
    + unfold Main.message_of, Json.get.
      destruct v; try reflexivity. exfalso. now apply (Hv d).
  - intros d m -> Hd Hm.
    rewrite (validate_api_key_no_message ul net key st r (Json.JDict d)
               (Json.attribute_error m (py "lower"))); try assumption.
    + reflexivity.
    + unfold Main.message_of, Json.get. rewrite Hd. cbn [rbind ok].
      destruct m; try reflexivity. exfalso. now apply (Hm s).
Qed.

Lemma validator_rejects_unexpected_json_witness :
  fst (Main.validate_api_key Samples.keep_case
         (Samples.always
            (mkResponse 200 (py "OK") [] (py "[]") (inl (Json.JList []))))
         (Some (py "abc")) Samples.empty_frame)
  = inl (false,
         py "An unexpected internal error occurred: " ++ py "'"
           ++ Json.type_name (Json.JList [])
           ++ py "' object has no attribute 'get'")
  /\ fst (Main.validate_api_key Samples.keep_case
            (Samples.always
               (mkResponse 200 (py "OK") [] []
                  (inl (Json.JDict [(py "message", Json.JInt 5)]))))
            (Some (py "abc")) Samples.empty_frame)
     = inl (false,
            py "An unexpected internal error occurred: " ++ py "'"
              ++ Json.type_name (Json.JInt 5)
              ++ py "' object has no attribute 'lower'").
Proof.
  split.
  - apply (validator_rejects_unexpected_json Samples.keep_case
             (Samples.always
                (mkResponse 200 (py "OK") [] (py "[]") (inl (Json.JList []))))
             (py "abc") Samples.empty_frame
             (mkResponse 200 (py "OK") [] (py "[]") (inl (Json.JList [])))
             (Json.JList []));
      try discriminate; try reflexivity.
    left; vm_compute; reflexivity.
  - apply (validator_rejects_unexpected_json Samples.keep_case
             (Samples.always
                (mkResponse 200 (py "OK") [] []
                   (inl (Json.JDict [(py "message", Json.JInt 5)]))))
             (py "abc") Samples.empty_frame
             (mkResponse 200 (py "OK") [] []
                (inl (Json.JDict [(py "message", Json.JInt 5)])))
             (Json.JDict [(py "message", Json.JInt 5)]))
      with (d := [(py "message", Json.JInt 5)]) (m := Json.JInt 5);
      try discriminate; try reflexivity.
    left; vm_compute; reflexivity.
Defined.

(** X5: a JSON object without a message counts as an empty message: with
    status 200 the key is reported valid, with any other status that
    passes [raise_for_status] the failure says "Unknown error". *)
Theorem validator_without_message :
  forall ul net key st r d,
    key <> [] ->
    net (mkRequest (Main.test_url key) 5 false) = Returned r ->
    status_passes (status_code r) ->
    json r = inl (Json.JDict d) ->
    Urllib.dict_get d (py "message") = None ->
    fst (Main.validate_api_key ul net (Some key) st)
    = inl (if (status_code r =? 200)%Z
           then (true,
                 py "API Key is valid. (Unexpected 200 OK for test city, but key seems active).")
           else (false,
                 py "API Key validation failed with unexpected response: Unknown error")).
Proof.
  intros ul net key st r d Hk Hn Hs Hj Hd.
  rewrite (validate_api_key_classified ul net key st r (Json.JDict d) []);
    try assumption.
  - unfold Main.classify. cbn.
    destruct (status_code r =? 200)%Z; reflexivity.
  - unfold Main.message_of, Json.get. now rewrite Hd.
Qed.

Lemma validator_without_message_witness :
  fst (Main.validate_api_key Samples.keep_case
         (Samples.always
            (mkResponse 204 (py "No Content") [] (py "{}")
               (inl (Json.JDict []))))
         (Some (py "abc")) Samples.empty_frame)
  = inl (false,
         py "API Key validation failed with unexpected response: Unknown error").
Proof.
  apply (validator_without_message Samples.keep_case
           (Samples.always
              (mkResponse 204 (py "No Content") [] (py "{}")
                 (inl (Json.JDict []))))
           (py "abc") Samples.empty_frame
           (mkResponse 204 (py "No Content") [] (py "{}")
              (inl (Json.JDict []))) []);
    try discriminate; try reflexivity.
  left; vm_compute; reflexivity.
Defined.

End ValidatorAnswers.

(* ================================================================== *)
(** * The test URL of the validator *)
(* ================================================================== *)

Module TestUrl.
Import PyStr PyExc Notions Urllib QuoteFacts QueryFacts FieldFacts BuilderFacts.
Open Scope N_scope.

Lemma always_safe_urlencoded (x : str) :
  forallb always_safe x = true -> forallb urlencoded_char x = true.
Proof.
  apply forallb_impl. intros c H. unfold urlencoded_char. now rewrite H.
Qed.

Lemma always_safe_quoted (x : str) :
  forallb always_safe x = true -> forallb quoted_char x = true.
Proof.
  apply forallb_impl. intros c H. unfold quoted_char. now rewrite H.
Qed.

(** Unreserved text is read by [parse_qsl] as it stands. *)
Lemma unquote_unreserved (x : str) :
  forallb always_safe x = true -> unquote (replace 43 32 x) = x.
Proof.
  intros H. rewrite replace_absent
    by (apply has_false_forallb with (P := always_safe); [reflexivity|exact H]).
  unfold unquote.
  now rewrite (has_false_forallb always_safe 37 x eq_refl H).
Qed.

(** X6: for a key of unreserved characters (letters, digits and [_.-~])
    the query of the test URL reads as the two parameters [q], the city
    that does not exist, and [appid], the key as it was given. *)
Theorem test_url_carries_key :
  forall key,
    key <> [] -> forallb always_safe key = true ->
    parse_qs (s_query (urlsplit_parts (Main.test_url key)))
    = [(py "q", [py "NonExistentCity123"]); (py "appid", [key])].
Proof.
  intros key Hne Hsafe.
  rewrite (query_of_assembled (py "q=NonExistentCity123&appid=" ++ key)).
  - unfold parse_qs.
    change (py "q=NonExistentCity123&appid=" ++ key)
      with (join [38] [py "q=NonExistentCity123"; py "appid=" ++ key]).
    rewrite (parse_qsl_fields
               [(py "q", py "NonExistentCity123"); (py "appid", key)]
               [py "q=NonExistentCity123"; py "appid=" ++ key]).
    + reflexivity.
    + constructor; [|constructor; [|constructor]].
      * exists (py "q"), (py "NonExistentCity123").
        repeat split; try reflexivity. discriminate.
      * exists (py "appid"), key. repeat split; try reflexivity.
        -- now apply always_safe_quoted.
        -- exact Hne.
        -- now apply unquote_unreserved.
  - rewrite forallb_app, (always_safe_urlencoded _ Hsafe). reflexivity.
  - exists (py "https://api.openweathermap.org/data/2.5/weather"), [].
    split; [|split].
    + unfold Main.test_url. rewrite app_nil_r. reflexivity.
    + reflexivity.
    + now left.
Qed.

Lemma test_url_carries_key_witness :
  parse_qs (s_query (urlsplit_parts
                       (Main.test_url (py "0123456789abcdef0123456789abcdef"))))
  = [(py "q", [py "NonExistentCity123"]);
     (py "appid", [py "0123456789abcdef0123456789abcdef"])].
Proof.
  apply (test_url_carries_key (py "0123456789abcdef0123456789abcdef")).
  - discriminate.
  - vm_compute. reflexivity.
Defined.

End TestUrl.

(* ================================================================== *)
(** * The window of the validator: one press of the button *)
(* ================================================================== *)

Module ValidatorWindow.
Import PyStr PyExc Requests Notions RequestFacts Totality.
Open Scope N_scope.

(** ** Stripping *)

Lemma lstrip_space_blank (s : str) :
  forallb is_space s = true -> lstrip_space s = [].
Proof.
  induction s as [|c s IH]; cbn [forallb lstrip_space]; intros H.
  - reflexivity.
  - apply andb_true_iff in H as [Hc Hs]. rewrite Hc. now apply IH.
Qed.

Lemma strip_blank (s : str) : forallb is_space s = true -> strip s = [].
Proof. intros H. unfold strip. now rewrite (lstrip_space_blank s H). Qed.

Lemma lstrip_space_head (s : str) :
  lstrip_space s = []
  \/ exists c t, lstrip_space s = c :: t /\ is_space c = false.
Proof.
  induction s as [|c s IH]; cbn [lstrip_space]; [now left|].
  destruct (is_space c) eqn:E; [exact IH|]. right. now exists c, s.
Qed.

Lemma lstrip_space_kept (c : N) (t : str) :
  is_space c = false -> lstrip_space (c :: t) = c :: t.
Proof. intros H. cbn [lstrip_space]. now rewrite H. Qed.

Lemma lstrip_space_idem (s : str) :
  lstrip_space (lstrip_space s) = lstrip_space s.
Proof.
  destruct (lstrip_space_head s) as [->|(c & t & -> & Hc)]; [reflexivity|].
  now apply lstrip_space_kept.
Qed.

Lemma lstrip_space_snoc (x : str) (c : N) :
  is_space c = false -> exists y, lstrip_space (x ++ [c]) = y ++ [c].
Proof.
  intros Hc. induction x as [|a x IH]; cbn [app lstrip_space].
  - rewrite Hc. now exists [].
  - destruct (is_space a); [exact IH|]. now exists (a :: x).
Qed.

(** What [strip] returns has no white space at either end: stripping it
    again changes nothing. *)
Lemma strip_idem (s : str) : strip (strip s) = strip s.
Proof.
  unfold strip.
  destruct (lstrip_space_head s) as [->|(c & t & -> & Hc)]; [reflexivity|].
  cbn [rev]. destruct (lstrip_space_snoc (rev t) c Hc) as [y Hy].
  rewrite Hy. rewrite rev_app_distr. cbn [rev app].
  rewrite (lstrip_space_kept c (rev y) Hc).
  cbn [rev]. rewrite rev_involutive.
  replace (lstrip_space (y ++ [c])) with (y ++ [c])
    by (rewrite <- Hy; symmetry; apply lstrip_space_idem).
  rewrite rev_app_distr. reflexivity.
Qed.

Lemma strip_empty : strip [] = [].
Proof. reflexivity. Qed.

(** ** One press of the button *)

Section Press.
Variable unicode_lower : str -> str -> N -> str.

(** The window after [perform_validation], from the answer of
    [validate_api_key]. *)
Lemma perform_validation_eq net (g : Main.gui) (log : list Request)
      (b : bool) (s : str) (fr : frame) :
  Main.validate_api_key unicode_lower net
    (Some (strip (Main.api_key_entry g))) (mkFrame log None)
  = (inl (b, s), fr) ->
  Main.perform_validation unicode_lower net (g, log)
  = (inl tt,
     (Main.mkGui (Main.api_key_entry g)
        (if b
         then py "Validation Successful: " ++ s ++ [10; 10]
                ++ py "API Key is considered valid for use."
         else py "Validation Failed: " ++ s ++ [10; 10]
                ++ py "API Key is NOT valid or a connection/certificate error occurred. It will not be used.")
        Main.DISABLED Main.NORMAL
        (if b then Some (strip (Main.api_key_entry g)) else None),
      net_log fr)).
Proof.
  intros H.
  unfold Main.perform_validation, bind, Main.read, Main.update, Main.call.
  cbn [fst snd]. rewrite H. destruct b; reflexivity.
Qed.

(** A key that validates is not empty. *)
Lemma validated_key_nonempty net key st s st' :
  Main.validate_api_key unicode_lower net (Some key) st
  = (inl (true, s), st') -> key <> [].
Proof. intros H ->. discriminate H. Qed.

(** The same for any network: the call returns, and so does the
    callback. *)
Lemma perform_validation_total net (g : Main.gui) (log : list Request) :
  exists b s fr,
    Main.validate_api_key unicode_lower net
      (Some (strip (Main.api_key_entry g))) (mkFrame log None)
    = (inl (b, s), fr)
    /\ Main.perform_validation unicode_lower net (g, log)
       = (inl tt,
          (Main.mkGui (Main.api_key_entry g)
             (if b
              then py "Validation Successful: " ++ s ++ [10; 10]
                     ++ py "API Key is considered valid for use."
              else py "Validation Failed: " ++ s ++ [10; 10]
                     ++ py "API Key is NOT valid or a connection/certificate error occurred. It will not be used.")
             Main.DISABLED Main.NORMAL
             (if b then Some (strip (Main.api_key_entry g)) else None),
           net_log fr)).
Proof.
  destruct (validate_api_key_returns unicode_lower net
              (Some (strip (Main.api_key_entry g))) (mkFrame log None))
    as (b & s & fr & H).
  exists b, s, fr. split; [exact H | now apply perform_validation_eq].
Qed.

Lemma handle_keeps_ok ev (w : Main.world) :
  remembered_key_ok (fst w) ->
  remembered_key_ok (fst (Main.handle unicode_lower ev w)).
Proof.
  destruct w as [g log]. intros Hok. destruct ev as [e | net |].
  - exact Hok.
  - cbn [Main.handle].
    destruct (perform_validation_total net g log) as (b & s & fr & Hv & ->).
    cbn [fst snd]. unfold remembered_key_ok. cbn [Main.valid_api_key].
    destruct b; [|exact I]. split.
    + eapply validated_key_nonempty. exact Hv.
    + apply strip_idem.
  - exact I.
Qed.

Lemma run_keeps_ok evs :
  forall w : Main.world,
    remembered_key_ok (fst w) ->
    remembered_key_ok (fst (Main.run unicode_lower evs w)).
Proof.
  induction evs as [|ev evs IH]; intros w Hok; [exact Hok|].
  unfold Main.run. cbn [fold_left]. apply IH. now apply handle_keeps_ok.
Qed.
End Press.

(** X7: whatever the network answers, [perform_validation] returns and
    leaves the window idle again: the button enabled, the status area read
    only, the entry as it was.  The status area holds the verdict and the
    message of [validate_api_key], nothing of the notice "Validating API
    Key...", and the stripped key is remembered exactly when the verdict is
    a success. *)
Theorem validation_returns_to_idle :
  forall ul net (w : Main.world),
    exists b s fr,
      Main.validate_api_key ul net
        (Some (strip (Main.api_key_entry (fst w)))) (mkFrame (snd w) None)
      = (inl (b, s), fr)
      /\ fst (Main.perform_validation ul net w) = inl tt
      /\ let g' := fst (snd (Main.perform_validation ul net w)) in
         Main.validate_button g' = Main.NORMAL
         /\ Main.status_area_state g' = Main.DISABLED
         /\ Main.api_key_entry g' = Main.api_key_entry (fst w)
         /\ Main.status_area g'
            = (if b
               then py "Validation Successful: " ++ s ++ [10; 10]
                      ++ py "API Key is considered valid for use."
               else py "Validation Failed: " ++ s ++ [10; 10]
                      ++ py "API Key is NOT valid or a connection/certificate error occurred. It will not be used.")
         /\ Main.valid_api_key g'
            = (if b then Some (strip (Main.api_key_entry (fst w)))
               else None)
         /\ snd (snd (Main.perform_validation ul net w)) = net_log fr.
Proof.
  intros ul net [g log].
  destruct (perform_validation_total ul net g log) as (b & s & fr & Hv & Hp).
  exists b, s, fr. cbn [fst snd]. rewrite Hp. cbn [fst snd].
  repeat split. exact Hv.
Qed.

(** X8: in every state the window reaches from its start, whatever the
    user types and presses and whatever the network answers, the
    remembered key is absent or a text that is not empty and has no white
    space at either end. *)
Theorem remembered_key_is_stripped :
  forall ul (evs : list Main.event),
    remembered_key_ok (fst (Main.run ul evs (Main.initial_gui, []))).
Proof. intros ul evs. apply run_keeps_ok. exact I. Qed.

(** X9: with an entry that holds nothing but white space, pressing the
    button issues no request: the status area says that the key cannot be
    empty and no key is remembered. *)
Theorem blank_key_is_not_sent :
  forall ul net (g : Main.gui) (log : list Request),
    forallb is_space (Main.api_key_entry g) = true ->
    Main.perform_validation ul net (g, log)
    = (inl tt,
       (Main.mkGui (Main.api_key_entry g)
          (py "Validation Failed: API Key cannot be empty." ++ [10; 10]
             ++ py "API Key is NOT valid or a connection/certificate error occurred. It will not be used.")
          Main.DISABLED Main.NORMAL None,
        log)).
Proof.
  intros ul net g log Hblank.
  rewrite (perform_validation_eq ul net g log false
             (py "API Key cannot be empty.") (mkFrame log None)).
  - reflexivity.
  - now rewrite (strip_blank _ Hblank).
Qed.

Lemma blank_key_is_not_sent_witness :
  Main.perform_validation Samples.keep_case
    (Samples.always Samples.ok_empty_object)
    (Main.set_api_key_entry (py "   ") Main.initial_gui, [])
  = (inl tt,
     (Main.mkGui (py "   ")
        (py "Validation Failed: API Key cannot be empty." ++ [10; 10]
           ++ py "API Key is NOT valid or a connection/certificate error occurred. It will not be used.")
        Main.DISABLED Main.NORMAL None,
      [])).
Proof.
  apply (blank_key_is_not_sent Samples.keep_case
           (Samples.always Samples.ok_empty_object)
           (Main.set_api_key_entry (py "   ") Main.initial_gui) []).
  vm_compute. reflexivity.
Defined.

End ValidatorWindow.

(* ================================================================== *)
(** * More on the tester: requests, errors and the key as a new parameter *)
(* ================================================================== *)

Module TesterAnswers.
Import PyStr PyExc Requests Notions RequestFacts TesterFacts.
Import Urllib QueryFacts BuilderFacts.

(** X10: a call of [make_api_request] issues at most one request, a GET
    with a timeout of 10 and without verification of the certificate: one
    to the URL the builder returns, and none when the base URL is empty or
    missing or when the builder fails. *)
Theorem tester_issues_at_most_one_request :
  forall chk net base api name st,
    net_log (snd (Temp.make_api_request chk net base api name st))
    = net_log st
        ++ match base with
           | Some (c :: u) =>
               match Temp.build_final_url chk (c :: u) api name with
               | inl final => [mkRequest final 10 false]
               | inr _ => []
               end
           | _ => []
           end.
Proof.
  intros chk net base api name st.
  destruct base as [[|c u]|]; try (cbn; now rewrite app_nil_r).
  destruct (Temp.build_final_url chk (c :: u) api name) as [final|failure]
    eqn:E.
  - apply make_api_request_log; [discriminate | exact E].
  - unfold Temp.make_api_request. rewrite E. cbn. now rewrite app_nil_r.
Qed.

(** X11: a response with a status of 4xx or 5xx is a failure, whatever
    its body: the text is the one of the network error, with the text of
    the HTTP error and the attempted URL. *)
Theorem tester_reports_http_error :
  forall chk net base api name final st r,
    base <> [] ->
    Temp.build_final_url chk base api name = inl final ->
    net (mkRequest final 10 false) = Returned r ->
    ~ status_passes (status_code r) ->
    exists e,
      raise_for_status r = inr e
      /\ exn_str e
         = of_Z (status_code r)
             ++ (if (status_code r <? 500)%Z then py " Client Error: "
                 else py " Server Error: ")
             ++ reason r ++ py " for url: " ++ url r
      /\ fst (Temp.make_api_request chk net (Some base) api name st)
         = inl (false, Temp.network_error_text e final).
Proof.
  intros chk net base api name final st r Hb Hf Hn Hs.
  destruct base as [|c u]; [congruence|].
  assert (He : exists e,
             raise_for_status r = inr e
             /\ isinstance e RequestException = true
             /\ exn_str e
                = of_Z (status_code r)
                    ++ (if (status_code r <? 500)%Z then py " Client Error: "
                        else py " Server Error: ")
                    ++ reason r ++ py " for url: " ++ url r).
  { unfold raise_for_status, status_passes in *.
    destruct (400 <=? status_code r)%Z eqn:E1;
      destruct (status_code r <? 500)%Z eqn:E2; cbn [andb].
    - eexists; repeat split.
    - destruct (500 <=? status_code r)%Z eqn:E3;
        destruct (status_code r <? 600)%Z eqn:E4; cbn [andb];
        first [exfalso; lia | eexists; repeat split].
    - exfalso; lia.
    - exfalso; lia. }
  destruct He as (e & He & Hi & Htext). exists e. repeat split; auto.
  unfold Temp.make_api_request. rewrite Hf. run_body. rewrite Hn, He.
  cbn. unfold isinstance in Hi. now rewrite Hi.
Qed.

Lemma tester_reports_http_error_witness :
  exists e,
    raise_for_status Samples.city_not_found = inr e
    /\ exn_str e
       = of_Z 404 ++ py " Client Error: " ++ py "Not Found"
           ++ py " for url: " ++ py "https://api.openweathermap.org/"
    /\ fst (Temp.make_api_request Samples.accept_netloc
              (Samples.always Samples.city_not_found)
              (Some (py "https://example.org/a")) None None
              Samples.empty_frame)
       = inl (false, Temp.network_error_text e (py "https://example.org/a")).
Proof.
  apply (tester_reports_http_error Samples.accept_netloc
           (Samples.always Samples.city_not_found)
           (py "https://example.org/a") None None
           (py "https://example.org/a") Samples.empty_frame
           Samples.city_not_found).
  - discriminate.
  - reflexivity.
  - reflexivity.
  - unfold status_passes. simpl. lia.
Defined.

(** X12: when [requests.get] raises, the tester returns a failure: the
    network error with the text of the exception and the attempted URL for
    a [RequestException], the internal error with that text for any other
    exception. *)
Theorem tester_reports_raised_exception :
  forall chk net base api name final st is_request_exception msg,
    base <> [] ->
    Temp.build_final_url chk base api name = inl final ->
    net (mkRequest final 10 false) = Raised is_request_exception msg ->
    fst (Temp.make_api_request chk net (Some base) api name st)
    = inl (false,
           if is_request_exception
           then Temp.network_error_text (mkExn [RequestException] msg) final
           else py "An unexpected internal error occurred: " ++ msg).
Proof.
  intros chk net base api name final st b msg Hb Hf Hn.
  destruct base as [|c u]; [congruence|].
  unfold Temp.make_api_request. rewrite Hf. run_body. rewrite Hn.
  destruct b; reflexivity.
Qed.

Lemma tester_reports_raised_exception_witness :
  fst (Temp.make_api_request Samples.accept_netloc
         (fun _ => Raised true (py "Connection refused"))
         (Some (py "https://example.org/a")) None None Samples.empty_frame)
  = inl (false,
         Temp.network_error_text
           (mkExn [RequestException] (py "Connection refused"))
           (py "https://example.org/a")).
Proof.
  apply (tester_reports_raised_exception Samples.accept_netloc
           (fun _ => Raised true (py "Connection refused"))
           (py "https://example.org/a") None None
           (py "https://example.org/a") Samples.empty_frame true
           (py "Connection refused")).
  - discriminate.
  - reflexivity.
  - reflexivity.
Defined.

(** X13: a base URL that [urlparse] rejects, given with a key and a name
    of the key parameter, makes [make_api_request] return the failure
    "Error constructing URL with API key: ..." with the text of the
    exception, and no request is issued. *)
Theorem tester_rejected_url_is_not_requested :
  forall chk net base api_key name st e,
    base <> [] -> api_key <> [] -> name <> [] ->
    urlparse chk base = inr e ->
    Temp.make_api_request chk net (Some base) (Some api_key) (Some name) st
    = (inl (false,
            py "Error constructing URL with API key: " ++ exn_str e
              ++ py ". Please check Base URL and Key Parameter Name."),
       st).
Proof.
  intros chk net base api_key name st e Hb Hk Hn Hp.
  destruct base as [|c u]; [congruence|].
  destruct api_key as [|c1 k]; [congruence|].
  destruct name as [|c2 n]; [congruence|].
  unfold Temp.make_api_request, Temp.build_final_url, Temp.url_with_key.
  rewrite Hp. reflexivity.
Qed.

Lemma tester_rejected_url_is_not_requested_witness :
  Temp.make_api_request Samples.accept_netloc
    (Samples.always Samples.ok_empty_object)
    (Some (py "http://[::1/data?appid=old")) (Some (py "KEY"))
    (Some (py "appid")) Samples.empty_frame
  = (inl (false,
          py "Error constructing URL with API key: "
            ++ exn_str (value_error (py "Invalid IPv6 URL"))
            ++ py ". Please check Base URL and Key Parameter Name."),
     Samples.empty_frame).
Proof.
  apply (tester_rejected_url_is_not_requested Samples.accept_netloc
           (Samples.always Samples.ok_empty_object)
           (py "http://[::1/data?appid=old") (py "KEY") (py "appid")
           Samples.empty_frame (value_error (py "Invalid IPv6 URL")));
    try discriminate.
  vm_compute. reflexivity.
Defined.

(** X14: when the name is not among the parameters [parse_qs] reads in
    the query of the base URL (as when there is no query at all), the
    builder adds it as the last parameter, with the key as its only value,
    and every other parameter keeps its values. *)
Theorem key_is_added_as_last_parameter :
  forall chk base api_key name parsed,
    encodable base -> encodable api_key -> encodable name ->
    api_key <> [] -> name <> [] ->
    urlparse chk base = inl parsed ->
    dict_contains (parse_qs (query parsed)) name = false ->
    exists final,
      Temp.build_final_url chk base (Some api_key) (Some name) = inl final
      /\ parse_qs (s_query (urlsplit_parts final))
         = parse_qs (query parsed) ++ [(name, [api_key])].
Proof.
  intros chk base api_key name parsed Hb Hk Hn Hkne Hnne Hparse Hin.
  destruct (url_with_key_query chk base api_key name parsed)
    as (final & Hfinal & Hread); try assumption.
  { now split. }
  exists final. split.
  - unfold Temp.build_final_url.
    destruct api_key as [|c1 k1]; [congruence|].
    destruct name as [|c2 n2]; [congruence|].
    now rewrite Hfinal.
  - rewrite Hread. apply dict_set_absent.
    now apply dict_contains_not_in.
Qed.

Lemma key_is_added_as_last_parameter_witness :
  exists final,
    Temp.build_final_url Samples.accept_netloc
      (py "https://example.org/data?q=a+b#top")
      (Some (py "K&Y")) (Some (py "appid")) = inl final
    /\ parse_qs (s_query (urlsplit_parts final))
       = parse_qs (py "q=a+b") ++ [(py "appid", [py "K&Y"])].
Proof.
  apply (key_is_added_as_last_parameter Samples.accept_netloc
           (py "https://example.org/data?q=a+b#top")
           (py "K&Y") (py "appid")
           (mkParse (py "https") (py "example.org") (py "/data") []
              (py "q=a+b") (py "top")));
    try discriminate; vm_compute; reflexivity.
Defined.

End TesterAnswers.

(* ================================================================== *)
(** * The window of the tester *)
(* ================================================================== *)

Module TesterWindow.
Import PyStr PyExc Requests Notions RequestFacts Totality TesterFacts.
Import ValidatorWindow.
Open Scope N_scope.

Section Press.
Variable check_netloc : str -> option str.

(** The window after [perform_api_request], from the answer of
    [make_api_request]. *)
Lemma perform_api_request_eq net (g : Temp.gui) (log : list Request)
      (b : bool) (s : str) (fr : frame) :
  Temp.make_api_request check_netloc net
    (Some (strip (Temp.api_url_entry g)))
    (Some (strip (Temp.api_key_entry g)))
    (Some (strip (Temp.key_param_name_entry g))) (mkFrame log None)
  = (inl (b, s), fr) ->
  Temp.perform_api_request check_netloc net (g, log)
  = (inl tt,
     (Temp.mkGui (Temp.api_url_entry g) (Temp.api_key_entry g)
        (Temp.key_param_name_entry g)
        ((if b then py "API Response (JSON):" ++ [10; 10]
          else py "API Request Failed:" ++ [10; 10]) ++ s)
        Main.DISABLED Main.NORMAL Main.NORMAL
        (Temp.error_dialogs g
           ++ (if b then []
               else [(py "API Request Error",
                      py "Failed to retrieve API response. See output area for details.")])),
      net_log fr)).
Proof.
  intros H.
  unfold Temp.perform_api_request, bind, Temp.read, Temp.update, Temp.call.
  cbn [fst snd]. rewrite H. destruct b; cbn.
  - now rewrite app_nil_r.
  - reflexivity.
Qed.

Lemma perform_api_request_total net (g : Temp.gui) (log : list Request) :
  exists b s fr,
    Temp.make_api_request check_netloc net
      (Some (strip (Temp.api_url_entry g)))
      (Some (strip (Temp.api_key_entry g)))
      (Some (strip (Temp.key_param_name_entry g))) (mkFrame log None)
    = (inl (b, s), fr)
    /\ Temp.perform_api_request check_netloc net (g, log)
       = (inl tt,
          (Temp.mkGui (Temp.api_url_entry g) (Temp.api_key_entry g)
             (Temp.key_param_name_entry g)
             ((if b then py "API Response (JSON):" ++ [10; 10]
               else py "API Request Failed:" ++ [10; 10]) ++ s)
             Main.DISABLED Main.NORMAL Main.NORMAL
             (Temp.error_dialogs g
                ++ (if b then []
                    else [(py "API Request Error",
                           py "Failed to retrieve API response. See output area for details.")])),
           net_log fr)).
Proof.
  destruct (make_api_request_returns check_netloc net
              (Some (strip (Temp.api_url_entry g)))
              (Some (strip (Temp.api_key_entry g)))
              (Some (strip (Temp.key_param_name_entry g)))
              (mkFrame log None)) as (b & s & fr & H).
  exists b, s, fr. split; [exact H | now apply perform_api_request_eq].
Qed.
End Press.

(** X17: whatever the network answers, [perform_api_request] returns and
    leaves the window idle again: both buttons enabled, the output area
    read only, the three entries as they were.  The output area holds the
    label of the verdict followed by the content [make_api_request]
    returned, nothing of the notice "Making API request...", and an error
    dialog is shown exactly when the verdict is a failure. *)
Theorem request_returns_to_idle :
  forall chk net (w : Temp.world),
    exists b s fr,
      Temp.make_api_request chk net
        (Some (strip (Temp.api_url_entry (fst w))))
        (Some (strip (Temp.api_key_entry (fst w))))
        (Some (strip (Temp.key_param_name_entry (fst w))))
        (mkFrame (snd w) None)
      = (inl (b, s), fr)
      /\ fst (Temp.perform_api_request chk net w) = inl tt
      /\ let g' := fst (snd (Temp.perform_api_request chk net w)) in
         Temp.request_button g' = Main.NORMAL
         /\ Temp.clear_button g' = Main.NORMAL
         /\ Temp.output_area_state g' = Main.DISABLED
         /\ Temp.api_url_entry g' = Temp.api_url_entry (fst w)
         /\ Temp.api_key_entry g' = Temp.api_key_entry (fst w)
         /\ Temp.key_param_name_entry g' = Temp.key_param_name_entry (fst w)
         /\ Temp.output_area g'
            = (if b then py "API Response (JSON):" ++ [10; 10]
               else py "API Request Failed:" ++ [10; 10]) ++ s
         /\ Temp.error_dialogs g'
            = Temp.error_dialogs (fst w)
                ++ (if b then []
                    else [(py "API Request Error",
                           py "Failed to retrieve API response. See output area for details.")])
         /\ snd (snd (Temp.perform_api_request chk net w)) = net_log fr.
Proof.
  intros chk net [g log].
  destruct (perform_api_request_total chk net g log)
    as (b & s & fr & Hv & Hp).
  exists b, s, fr. cbn [fst snd]. rewrite Hp. cbn [fst snd].
  repeat split. exact Hv.
Qed.

(** X18: with a URL entry that holds nothing but white space, pressing the
    button issues no request: the output area says that the URL cannot be
    empty and one error dialog is shown. *)
Theorem blank_url_is_not_requested :
  forall chk net (g : Temp.gui) (log : list Request),
    forallb is_space (Temp.api_url_entry g) = true ->
    Temp.perform_api_request chk net (g, log)
    = (inl tt,
       (Temp.mkGui (Temp.api_url_entry g) (Temp.api_key_entry g)
          (Temp.key_param_name_entry g)
          ((py "API Request Failed:" ++ [10; 10])
             ++ py "API URL cannot be empty.")
          Main.DISABLED Main.NORMAL Main.NORMAL
          (Temp.error_dialogs g
             ++ [(py "API Request Error",
                  py "Failed to retrieve API response. See output area for details.")]),
        log)).
Proof.
  intros chk net g log Hblank.
  rewrite (perform_api_request_eq chk net g log false
             (py "API URL cannot be empty.") (mkFrame log None)).
  - reflexivity.
  - now rewrite (strip_blank _ Hblank).
Qed.

Lemma blank_url_is_not_requested_witness :
  Temp.perform_api_request Samples.accept_netloc
    (Samples.always Samples.ok_empty_object)
    (Temp.set_api_url_entry (py "  ") Temp.initial_gui, [])
  = (inl tt,
     (Temp.mkGui (py "  ") [] (py "appid")
        ((py "API Request Failed:" ++ [10; 10])
           ++ py "API URL cannot be empty.")
        Main.DISABLED Main.NORMAL Main.NORMAL
        [(py "API Request Error",
          py "Failed to retrieve API response. See output area for details.")],
      [])).
Proof.
  apply (blank_url_is_not_requested Samples.accept_netloc
           (Samples.always Samples.ok_empty_object)
           (Temp.set_api_url_entry (py "  ") Temp.initial_gui) []).
  vm_compute. reflexivity.
Defined.

(** X19: "Clear All" also empties the name of the key parameter, preset
    to "appid" at the start.  So after it, a URL and a key typed in and
    the button pressed give one request, to the URL as typed (stripped):
    the key is not part of it. *)
Theorem key_is_not_sent_after_clear :
  forall chk net (w : Temp.world) (u k : str),
    strip u <> [] ->
    snd (Temp.run chk
           [Temp.ClickClear; Temp.EditUrl u; Temp.EditKey k;
            Temp.ClickRequest net] w)
    = snd w ++ [mkRequest (strip u) 10 false].
Proof.
  intros chk net [g log] u k Hu.
  unfold Temp.run. cbn [fold_left Temp.handle].
  set (w3 := (Temp.set_api_key_entry k
                (fst (Temp.set_api_url_entry u
                        (fst (snd (Temp.clear_fields (g, log)))),
                      snd (snd (Temp.clear_fields (g, log))))),
              snd (Temp.set_api_url_entry u
                     (fst (snd (Temp.clear_fields (g, log)))),
                   snd (snd (Temp.clear_fields (g, log)))))).
  destruct (perform_api_request_total chk net (fst w3) (snd w3))
    as (b & s & fr & Hv & Hp).
  replace (Temp.perform_api_request chk net w3)
    with (Temp.perform_api_request chk net (fst w3, snd w3))
    by (destruct w3; reflexivity).
  rewrite Hp. cbn [snd].
  assert (Hv' : Temp.make_api_request chk net
                  (Some (strip u)) (Some (strip k)) (Some [])
                  (mkFrame log None) = (inl (b, s), fr)) by exact Hv.
  replace (net_log fr)
    with (net_log (snd (Temp.make_api_request chk net
                          (Some (strip u)) (Some (strip k)) (Some [])
                          (mkFrame log None))))
    by now rewrite Hv'.
  rewrite (make_api_request_log chk net (strip u) (Some (strip k)) (Some [])
             (strip u)); [reflexivity | exact Hu |].
  apply build_final_url_missing. right. now right.
Qed.

Lemma key_is_not_sent_after_clear_witness :
  snd (Temp.run Samples.accept_netloc
         [Temp.ClickClear; Temp.EditUrl (py " https://example.org/a?x=1 ");
          Temp.EditKey (py "KEY");
          Temp.ClickRequest (Samples.always Samples.ok_empty_object)]
         (Temp.initial_gui, []))
  = [] ++ [mkRequest (strip (py " https://example.org/a?x=1 ")) 10 false].
Proof.
  apply (key_is_not_sent_after_clear Samples.accept_netloc
           (Samples.always Samples.ok_empty_object) (Temp.initial_gui, [])
           (py " https://example.org/a?x=1 ") (py "KEY")).
  vm_compute. discriminate.
Defined.

End TesterWindow.

(* ================================================================== *)
(** * The URL the builder returns: its query and its fragment *)
(* ================================================================== *)

Module BuilderShape.
Import PyStr PyExc Notions Urllib Utf8Facts QuoteFacts QueryFacts FieldFacts.
Import UrlFacts BuilderFacts.
Open Scope N_scope.

Lemma url_safe_has (x : str) :
  forallb url_safe_char x = true ->
  has 9 x = false /\ has 10 x = false /\ has 13 x = false.
Proof.
  intros H. repeat split; eapply has_false_forallb; try exact H; reflexivity.
Qed.

(** What is left of the three removals is free of the three. *)
Lemma remove_unsafe_safe (x : str) :
  forallb url_safe_char (remove_unsafe x) = true.
Proof.
  unfold remove_unsafe, remove_char.
  induction x as [|c x IH]; [reflexivity|]. cbn [filter].
  destruct (c =? 9) eqn:E9; cbn [negb]; [exact IH|]. cbn [filter].
  destruct (c =? 13) eqn:E13; cbn [negb]; [exact IH|]. cbn [filter].
  destruct (c =? 10) eqn:E10; cbn [negb]; [exact IH|]. cbn [forallb].
  rewrite IH, andb_true_r. unfold url_safe_char. now rewrite E9, E10, E13.
Qed.

(** The fragment of a URL holds none of the removed characters. *)
Lemma urlsplit_parts_fragment_safe (u : str) :
  forallb url_safe_char (s_fragment (urlsplit_parts u)) = true.
Proof.
  unfold urlsplit_parts.
  pose proof (split_scheme_rest_forall url_safe_char _
                (remove_unsafe_safe (lstrip_c0 u))) as H1.
  destruct (split_scheme (remove_unsafe (lstrip_c0 u))) as [sch u1].
  cbn [snd] in H1.
  pose proof (split_netloc_rest_forall url_safe_char _ H1) as H2.
  destruct (split_netloc u1) as [net u2]. cbn [snd] in H2.
  destruct (partition 35 u2) as [[a b]|] eqn:E.
  - destruct (partition_forall _ _ _ _ _ H2 E) as [_ Hb].
    destruct (partition 63 a) as [[a' b']|]; exact Hb.
  - destruct (partition 63 u2) as [[a' b']|]; reflexivity.
Qed.

Lemma urlparse_fragment chk (u : str) (r : ParseResult) :
  urlparse chk u = inl r -> fragment r = s_fragment (urlsplit_parts u).
Proof.
  unfold urlparse, urlsplit.
  destruct ((has 91 (s_netloc (urlsplit_parts u))
             && negb (has 93 (s_netloc (urlsplit_parts u))))
            || (has 93 (s_netloc (urlsplit_parts u))
                && negb (has 91 (s_netloc (urlsplit_parts u)))));
    [discriminate|].
  destruct (chk (s_netloc (urlsplit_parts u))); [discriminate|].
  cbn [rbind ok].
  destruct (str_in_list (s_scheme (urlsplit_parts u)) uses_params
            && has 59 (s_path (urlsplit_parts u))).
  - destruct (splitparams (s_path (urlsplit_parts u))) as [p1 p2].
    now intros [= <-].
  - now intros [= <-].
Qed.

Section Assembled.
Variables q f : str.
Hypothesis Hq : forallb urlencoded_char q = true.
Hypothesis Hf : forallb url_safe_char f = true.

Lemma with_lstrip (u : str) :
  assembled_with q f u -> assembled_with q f (lstrip_c0 u).
Proof.
  intros (p & -> & Hp).
  induction p as [|c p IH]; cbn [app lstrip_c0].
  - exists []. cbn [c0_control_or_space]. now split.
  - cbn [forallb] in Hp. apply andb_true_iff in Hp as [Hc Hp].
    destruct (c0_control_or_space c); [now apply IH|].
    exists (c :: p). split; [reflexivity|]. cbn [forallb]. now rewrite Hc, Hp.
Qed.

Lemma with_remove (a : N) (u : str) :
  urlencoded_char a = false -> url_safe_char a = false -> a <> 63 ->
  assembled_with q f u -> assembled_with q f (remove_char a u).
Proof.
  intros Ha Hsafe H63 (p & -> & Hp).
  exists (remove_char a p). split.
  - unfold remove_char at 1. rewrite filter_app. cbn [filter].
    rewrite (proj2 (N.eqb_neq 63 a)) by congruence. cbn [negb].
    rewrite filter_app. fold (remove_char a q) (remove_char a f).
    rewrite (remove_char_absent a q), (remove_char_absent a f);
      [reflexivity
      | apply has_false_forallb with (P := url_safe_char); assumption
      | apply has_false_forallb with (P := urlencoded_char); assumption].
  - now apply remove_char_forall.
Qed.

Lemma with_remove_unsafe (u : str) :
  assembled_with q f u -> assembled_with q f (remove_unsafe u).
Proof.
  intros H. unfold remove_unsafe.
  repeat apply with_remove; try reflexivity; try discriminate; exact H.
Qed.

Lemma with_split_scheme (u : str) :
  assembled_with q f u -> assembled_with q f (snd (split_scheme u)).
Proof.
  intros (p & -> & Hp). unfold split_scheme.
  destruct (partition 58 p) as [[a b]|] eqn:E.
  - pose proof (partition_forall _ _ _ _ _ Hp E) as [_ Hb].
    apply partition_some in E as [-> Ha]. rewrite <- app_assoc. cbn [app].
    rewrite partition_app by exact Ha.
    destruct a as [|c a'].
    + exists (58 :: b). cbn [app snd]. split; [reflexivity|].
      cbn [forallb]. now rewrite Hb.
    + destruct (is_ascii_alpha c && forallb scheme_char (c :: a')).
      * exists b. now split.
      * exists ((c :: a') ++ 58 :: b). cbn [snd]. rewrite <- app_assoc.
        split; [reflexivity | exact Hp].
  - apply partition_none_inv in E. rewrite partition_app_none by exact E.
    cbn [partition]. cbn [N.eqb Pos.eqb].
    destruct (partition 58 (q ++ f)) as [[a' b']|].
    + destruct (p ++ 63 :: a') as [|c l] eqn:El.
      * exists p. now split.
      * assert (Hs : forallb scheme_char (c :: l) = false).
        { rewrite <- El, forallb_app. cbn [forallb].
          now rewrite andb_false_r. }
        rewrite Hs, andb_false_r. exists p. now split.
    + exists p. now split.
Qed.

Lemma with_split_netloc (u : str) :
  assembled_with q f u -> assembled_with q f (snd (split_netloc u)).
Proof.
  intros (p & -> & Hp). unfold split_netloc.
  destruct p as [|c1 [|c2 p]]; cbn [app].
  - exists []. split; [|reflexivity].
    cbn [app]. generalize (q ++ f). intros [|c2 r]; reflexivity.
  - rewrite andb_false_r. exists [c1]. now split.
  - destruct ((c1 =? 47) && (c2 =? 47)).
    + rewrite span_netloc_app. exists (snd (span_netloc p)).
      split; [reflexivity|].
      cbn [forallb] in Hp. apply andb_true_iff in Hp as [_ Hp].
      apply andb_true_iff in Hp as [_ Hp]. now apply span_netloc_forall.
    + exists (c1 :: c2 :: p). now split.
Qed.

(** The part of an assembled URL on which [urlsplit] looks for the
    fragment and the query. *)
Lemma with_stages (u : str) :
  assembled_with q f u ->
  exists p,
    snd (split_netloc (snd (split_scheme (remove_unsafe (lstrip_c0 u)))))
    = p ++ 63 :: q ++ f
    /\ has 63 p = false /\ has 35 p = false.
Proof.
  intros H.
  destruct (with_split_netloc _
              (with_split_scheme _ (with_remove_unsafe _ (with_lstrip _ H))))
    as (p & Hu & Hp).
  exists p. split; [exact Hu|]. now apply before_query_has.
Qed.
End Assembled.

(** [urlsplit] finds the fragment of an assembled URL. *)
Lemma fragment_of_assembled (q frag u : str) :
  forallb urlencoded_char q = true ->
  forallb url_safe_char frag = true ->
  assembled_with q (fragment_tail frag) u ->
  s_fragment (urlsplit_parts u) = frag
  /\ s_query (urlsplit_parts u) = q.
Proof.
  intros Hq Hfrag H.
  assert (Hf : forallb url_safe_char (fragment_tail frag) = true).
  { unfold fragment_tail. destruct (nonempty frag); [|reflexivity].
    cbn [forallb]. now rewrite Hfrag. }
  destruct (with_stages q _ Hq Hf u H) as (p & Hu & Hp63 & Hp35).
  unfold urlsplit_parts.
  destruct (split_scheme (remove_unsafe (lstrip_c0 u))) as [sch u1].
  cbn [snd] in Hu.
  destruct (split_netloc u1) as [net u2]. cbn [snd] in Hu. subst u2.
  assert (Hq35 : has 35 q = false)
    by (eapply has_false_forallb; [|exact Hq]; reflexivity).
  unfold fragment_tail. destruct frag as [|c frag']; cbn [nonempty].
  - rewrite app_nil_r. rewrite partition_none.
    + rewrite partition_app by exact Hp63. now split.
    + rewrite has_app, Hp35. cbn [has existsb]. cbn [N.eqb Pos.eqb orb].
      exact Hq35.
  - change (p ++ 63 :: q ++ 35 :: c :: frag')
      with (p ++ (63 :: q) ++ 35 :: c :: frag').
    rewrite app_assoc. rewrite partition_app.
    + rewrite partition_app by exact Hp63. now split.
    + rewrite has_app, Hp35. cbn [has existsb]. cbn [N.eqb Pos.eqb orb].
      exact Hq35.
Qed.

(** [urlunparse] with a query that is not empty, with the part after the
    query. *)
Lemma urlunparse_assembled_with (r : ParseResult) (q : str) :
  forallb before_query_char (scheme r) = true ->
  forallb before_query_char (netloc r) = true ->
  forallb before_query_char (path r) = true ->
  forallb before_query_char (params r) = true ->
  q <> [] ->
  assembled_with q (fragment_tail (fragment r))
    (urlunparse (replace_query r q)).
Proof.
  intros Hs Hn Hp Hpr Hq.
  unfold urlunparse, replace_query, urlunsplit, fragment_tail.
  cbn [scheme netloc path params query fragment
       s_scheme s_netloc s_path s_query s_fragment].
  change (py ";") with [59]. change (py "//") with [47; 47].
  change (py "/") with [47]. change (py ":") with [58].
  change (py "?") with [63]. change (py "#") with [35].
  set (url1 := if nonempty (params r) then path r ++ [59] ++ params r
               else path r).
  assert (H1 : forallb before_query_char url1 = true).
  { unfold url1. destruct (nonempty (params r)); [|exact Hp].
    now rewrite !forallb_app, Hp, Hpr. }
  set (url2 := if nonempty (netloc r)
                  || nonempty (scheme r) && str_in_list (scheme r) uses_netloc
                     && negb (startswith [47; 47] url1)
               then [47; 47] ++ netloc r
                      ++ (if nonempty url1 && negb (startswith [47] url1)
                          then [47] ++ url1 else url1)
               else url1).
  assert (H2 : forallb before_query_char url2 = true).
  { unfold url2.
    destruct (nonempty (netloc r)
              || nonempty (scheme r) && str_in_list (scheme r) uses_netloc
                 && negb (startswith [47; 47] url1)); [|exact H1].
    destruct (nonempty url1 && negb (startswith [47] url1));
      rewrite !forallb_app, Hn, ?H1; cbn [forallb]; now rewrite ?H1. }
  set (url3 := if nonempty (scheme r) then scheme r ++ [58] ++ url2 else url2).
  assert (H3 : forallb before_query_char url3 = true).
  { unfold url3. destruct (nonempty (scheme r)); [|exact H2].
    now rewrite !forallb_app, Hs, H2. }
  destruct q as [|c q']; [congruence|]. cbn [nonempty].
  exists url3. split; [|exact H3].
  destruct (nonempty (fragment r)).
  - rewrite <- !app_assoc. reflexivity.
  - now rewrite app_nil_r.
Qed.

Section Builder.
Variable check_netloc : str -> option str.

(** The URL with the key: its query is what [urlencode] wrote, and its
    fragment that of the base URL. *)
Lemma url_with_key_shape (base_url api_key key_param_name : str)
      (parsed : ParseResult) :
  encodable base_url -> value_ok api_key -> encodable key_param_name ->
  urlparse check_netloc base_url = inl parsed ->
  exists final,
    Temp.url_with_key check_netloc base_url api_key key_param_name
    = inl final
    /\ urlencode (dict_set (parse_qs (query parsed)) key_param_name
                    [api_key])
       = inl (s_query (urlsplit_parts final))
    /\ forallb urlencoded_char (s_query (urlsplit_parts final)) = true
    /\ s_fragment (urlsplit_parts final) = fragment parsed.
Proof.
  intros Hb Hk Hn Hparse. unfold Temp.url_with_key. rewrite Hparse.
  cbn [rbind].
  destruct (urlparse_parts _ _ _ Hparse) as (Hs & Hnl & Hp & Hpr & Hqry).
  assert (Hwf : well_formed_query
                  (dict_set (parse_qs (query parsed)) key_param_name
                     [api_key])).
  { apply well_formed_set.
    - apply parse_qs_well_formed. rewrite Hqry.
      now apply urlsplit_parts_query_forall.
    - exact Hn.
    - discriminate.
    - now constructor. }
  destruct (urlencode_parse_qs _ Hwf) as (nq & Henc & Hread & Hchars & Hne).
  rewrite Henc. cbn [ok]. eexists. split; [reflexivity|].
  destruct (fragment_of_assembled nq (fragment parsed)
              (urlunparse (replace_query parsed nq))) as [Hfr Hqr].
  - exact Hchars.
  - rewrite (urlparse_fragment _ _ _ Hparse).
    apply urlsplit_parts_fragment_safe.
  - apply urlunparse_assembled_with; try assumption.
    apply Hne.
    destruct (parse_qs (query parsed)) as [|[k v] d]; cbn [dict_set];
      [discriminate|]. destruct (str_eqb k key_param_name); discriminate.
  - rewrite Hqr. repeat split; assumption.
Qed.
End Builder.

(** X15: the query of the URL the builder returns is what [urlencode]
    writes for the mapping with the key set: it holds only unreserved
    characters, [%], [+], [&] and [=], so that no character of the key or
    of the name, be it [&], [#] or a space, stands in it as itself. *)
Theorem built_query_is_encoded :
  forall chk base api_key name parsed,
    encodable base -> encodable api_key -> encodable name ->
    api_key <> [] -> name <> [] ->
    urlparse chk base = inl parsed ->
    exists final,
      Temp.build_final_url chk base (Some api_key) (Some name) = inl final
      /\ urlencode (dict_set (parse_qs (query parsed)) name [api_key])
         = inl (s_query (urlsplit_parts final))
      /\ forallb urlencoded_char (s_query (urlsplit_parts final)) = true.
Proof.
  intros chk base api_key name parsed Hb Hk Hn Hkne Hnne Hparse.
  destruct (url_with_key_shape chk base api_key name parsed)
    as (final & Hfinal & Henc & Hchars & _); try assumption.
  { now split. }
  exists final. repeat split; try assumption.
  unfold Temp.build_final_url.
  destruct api_key as [|c1 k1]; [congruence|].
  destruct name as [|c2 n2]; [congruence|].
  now rewrite Hfinal.
Qed.

Lemma built_query_is_encoded_witness :
  exists final,
    Temp.build_final_url Samples.accept_netloc
      (py "https://example.org/data?q=a b#top")
      (Some (py "K&Y #1")) (Some (py "api key")) = inl final
    /\ urlencode (dict_set (parse_qs (py "q=a b")) (py "api key")
                    [py "K&Y #1"])
       = inl (s_query (urlsplit_parts final))
    /\ forallb urlencoded_char (s_query (urlsplit_parts final)) = true.
Proof.
  apply (built_query_is_encoded Samples.accept_netloc
           (py "https://example.org/data?q=a b#top")
           (py "K&Y #1") (py "api key")
           (mkParse (py "https") (py "example.org") (py "/data") []
              (py "q=a b") (py "top")));
    try discriminate; vm_compute; reflexivity.
Defined.

(** X16: the URL the builder returns has the fragment of the base URL. *)
Theorem built_url_keeps_fragment :
  forall chk base api_key name parsed,
    encodable base -> encodable api_key -> encodable name ->
    api_key <> [] -> name <> [] ->
    urlparse chk base = inl parsed ->
    exists final,
      Temp.build_final_url chk base (Some api_key) (Some name) = inl final
      /\ s_fragment (urlsplit_parts final) = fragment parsed.
Proof.
  intros chk base api_key name parsed Hb Hk Hn Hkne Hnne Hparse.
  destruct (url_with_key_shape chk base api_key name parsed)
    as (final & Hfinal & _ & _ & Hfrag); try assumption.
  { now split. }
  exists final. split; [|exact Hfrag].
  unfold Temp.build_final_url.
  destruct api_key as [|c1 k1]; [congruence|].
  destruct name as [|c2 n2]; [congruence|].
  now rewrite Hfinal.
Qed.

Lemma built_url_keeps_fragment_witness :
  exists final,
    Temp.build_final_url Samples.accept_netloc
      (py "https://example.org/data?q=a b#top?x=1")
      (Some (py "K#Y")) (Some (py "appid")) = inl final
    /\ s_fragment (urlsplit_parts final) = py "top?x=1".
Proof.
  apply (built_url_keeps_fragment Samples.accept_netloc
           (py "https://example.org/data?q=a b#top?x=1")
           (py "K#Y") (py "appid")
           (mkParse (py "https") (py "example.org") (py "/data") []
              (py "q=a b") (py "top?x=1")));
    try discriminate; vm_compute; reflexivity.
Defined.

End BuilderShape.

(* ================================================================== *)
(** * Parameters the builder loses *)
(* ================================================================== *)

Module LostParameters.
Import PyStr PyExc Notions Urllib QueryFacts FieldFacts BuilderFacts.
Import BuilderShape.
Open Scope N_scope.

Lemma field_kept_written (nv : str * str) (f : str) :
  reads_as nv f -> field_kept f = [nv].
Proof.
  intros Hf. pose proof (field_nonempty _ _ Hf) as Hne.
  destruct Hf as (k' & v' & -> & Hk & Hv & Hv' & Hkn & Hvn).
  unfold field_kept.
  destruct (k' ++ [61] ++ v') as [|c r] eqn:E; [congruence|].
  rewrite <- E. cbn [app].
  rewrite partition_app by (apply quoted_no_separator; [reflexivity|exact Hk]).
  rewrite Hkn, Hvn. now destruct nv.
Qed.

(** Read with blank values kept, the text [urlencode] writes gives the
    pairs it was written from. *)
Lemma parameters_fields (ps : list (str * str)) (l : list str) :
  Forall2 reads_as ps l -> ps <> [] -> parameters (join [38] l) = ps.
Proof.
  unfold parameters. induction 1 as [|nv f ps l Hf Hrest IH]; [congruence|].
  intros _. destruct l as [|g l].
  - inversion Hrest; subst. cbn [join].
    rewrite split_plain by (now apply field_no_ampersand in Hf).
    cbn [flat_map]. now rewrite (field_kept_written _ _ Hf).
  - change (join [38] (f :: g :: l)) with (f ++ 38 :: join [38] (g :: l)).
    rewrite split_app by (now apply field_no_ampersand in Hf).
    cbn [flat_map]. rewrite (field_kept_written _ _ Hf), IH; [reflexivity|].
    inversion Hrest; subst. discriminate.
Qed.

Lemma pairs_of_names (d : dict (list str)) (k : str) :
  In k (map fst (pairs_of d)) -> In k (dict_keys d).
Proof.
  unfold pairs_of, dict_keys. rewrite in_map_iff.
  intros ([k' v] & <- & Hin). apply in_flat_map in Hin.
  destruct Hin as ([k2 vs] & Hd & Hv). apply in_map_iff in Hv.
  destruct Hv as (v' & Heq & _). inversion Heq; subst.
  apply in_map_iff. now exists (k', vs).
Qed.

(** C3 (what the code does): the builder reads the query of the base URL
    with [parse_qs], which leaves out the parameters with a blank value,
    and writes the new query from what it read.  So a parameter [k] of
    the base URL that has a blank value only, and is not the name of the
    key, is no parameter of the URL the builder returns: not every
    parameter of the original query is kept. *)
Theorem blank_parameter_is_lost :
  forall chk base api_key name parsed k,
    encodable base -> encodable api_key -> encodable name ->
    api_key <> [] -> name <> [] ->
    urlparse chk base = inl parsed ->
    In (k, []) (parameters (query parsed)) ->
    dict_contains (parse_qs (query parsed)) k = false ->
    k <> name ->
    exists final,
      Temp.build_final_url chk base (Some api_key) (Some name) = inl final
      /\ ~ In k (map fst (parameters (s_query (urlsplit_parts final)))).
Proof.
  intros chk base api_key name parsed k Hb Hk Hn Hkne Hnne Hparse _ Hout
         Hneq.
  destruct (url_with_key_shape chk base api_key name parsed)
    as (final & Hfinal & Henc & _); try assumption.
  { now split. }
  exists final. split.
  { unfold Temp.build_final_url.
    destruct api_key as [|c1 k1]; [congruence|].
    destruct name as [|c2 n2]; [congruence|].
    now rewrite Hfinal. }
  set (d := dict_set (parse_qs (query parsed)) name [api_key]) in *.
  assert (Hwf : well_formed_query d).
  { apply well_formed_set.
    - apply parse_qs_well_formed.
      destruct (UrlFacts.urlparse_parts _ _ _ Hparse)
        as (_ & _ & _ & _ & Hqry).
      rewrite Hqry. now apply UrlFacts.urlsplit_parts_query_forall.
    - exact Hn.
    - discriminate.
    - constructor; [now split | constructor]. }
  destruct (urlencode_items_fields d (proj2 Hwf)) as (l & Hl & Hf).
  unfold urlencode in Henc. rewrite Hl in Henc. cbn [rbind ok] in Henc.
  injection Henc as Hq. rewrite <- Hq.
  change (py "&") with [38].
  rewrite (parameters_fields _ _ Hf).
  - intros Hin. apply pairs_of_names in Hin.
    unfold d in Hin. rewrite dict_keys_set in Hin.
    pose proof (dict_contains_not_in _ _ Hout) as Hnot.
    destruct (dict_contains (parse_qs (query parsed)) name).
    + now apply Hnot.
    + apply in_app_or in Hin. destruct Hin as [Hin|[Hin|[]]].
      * now apply Hnot.
      * now apply Hneq.
  - apply pairs_of_nonempty; [exact Hwf|].
    unfold d. destruct (parse_qs (query parsed)) as [|[k0 v0] d0];
      cbn [dict_set]; [discriminate|].
    destruct (str_eqb k0 name); discriminate.
Qed.

Lemma blank_parameter_is_lost_witness :
  exists final,
    Temp.build_final_url Samples.accept_netloc
      (py "https://example.org/data?flag=&appid=old")
      (Some (py "KEY")) (Some (py "appid")) = inl final
    /\ ~ In (py "flag")
           (map fst (parameters (s_query (urlsplit_parts final)))).
Proof.
  apply (blank_parameter_is_lost Samples.accept_netloc
           (py "https://example.org/data?flag=&appid=old")
           (py "KEY") (py "appid")
           (mkParse (py "https") (py "example.org") (py "/data") []
              (py "flag=&appid=old") []) (py "flag"));
    try discriminate; try (vm_compute; reflexivity).
  left. vm_compute. reflexivity.
Defined.

(** The failing input: the base URL has the parameters [flag], blank, and
    [appid]; the URL the builder returns has the parameter [appid]
    alone. *)
Example flag_parameter_example :
  parameters (py "flag=&appid=old") = [(py "flag", []); (py "appid", py "old")]
  /\ Temp.build_final_url Samples.accept_netloc
       (py "https://example.org/data?flag=&appid=old")
       (Some (py "KEY")) (Some (py "appid"))
     = inl (py "https://example.org/data?appid=KEY")
  /\ parameters (py "appid=KEY") = [(py "appid", py "KEY")].
Proof. repeat split; vm_compute; reflexivity. Qed.

(** A value that is not UTF-8 is not kept either: [parse_qs] decodes
    [%E9] to U+FFFD, and [urlencode] writes that as [%EF%BF%BD]. *)
Example undecodable_value_is_rewritten :
  Temp.build_final_url Samples.accept_netloc
    (py "https://example.org/data?name=caf%E9&appid=old")
    (Some (py "KEY")) (Some (py "appid"))
  = inl (py "https://example.org/data?name=caf%EF%BF%BD&appid=KEY").
Proof. vm_compute. reflexivity. Qed.

End LostParameters.

(* ================================================================== *)
(** * Handlers in their order, the echoed message, the preset name *)
(* ================================================================== *)

Module MoreAnswers.
Import PyStr PyExc Requests Notions RequestFacts StrFacts.
Import TesterFacts ValidatorFacts ValidatorWindow TesterWindow.
Open Scope N_scope.

(** X20: the handler of [RequestException] comes first in both functions.
    So when [response.json()] raises an exception that is a
    [json.JSONDecodeError] and a [RequestException] at once, as that of a
    recent [requests] is, a body that is no JSON is reported as a network
    error, with the text of the exception, and not as unreadable data. *)
Theorem request_exception_handler_comes_first :
  forall ul chk net key base api name final st r1 r2 e1 e2,
    key <> [] -> base <> [] ->
    Temp.build_final_url chk base api name = inl final ->
    net (mkRequest (Main.test_url key) 5 false) = Returned r1 ->
    net (mkRequest final 10 false) = Returned r2 ->
    status_passes (status_code r1) -> status_passes (status_code r2) ->
    json r1 = inr e1 -> json r2 = inr e2 ->
    isinstance e1 JSONDecodeError = true ->
    isinstance e2 JSONDecodeError = true ->
    isinstance e1 RequestException = true ->
    isinstance e2 RequestException = true ->
    fst (Main.validate_api_key ul net (Some key) st)
    = inl (false,
           py "Network or API communication error: " ++ exn_str e1
             ++ py ". Check internet, API key, or try again later.")
    /\ fst (Temp.make_api_request chk net (Some base) api name st)
       = inl (false, Temp.network_error_text e2 final).
Proof.
  intros ul chk net key base api name final st r1 r2 e1 e2
         Hk Hb Hf Hn1 Hn2 Hs1 Hs2 Hj1 Hj2 _ _ Hi1 Hi2; split.
  - rewrite (validate_api_key_undecoded ul net key st r1 e1) by assumption.
    now rewrite Hi1.
  - rewrite (make_api_request_passed chk net base api name final st r2)
      by assumption.
    now rewrite Hj2, Hi2.
Qed.

Lemma request_exception_handler_comes_first_witness :
  let e := mkExn [JSONDecodeError; RequestException; ValueError]
             (py "Expecting value: line 1 column 1 (char 0)") in
  let page := mkResponse 200 (py "OK") (py "https://example.org/")
                (py "<html>error</html>") (inr e) in
  fst (Main.validate_api_key Samples.keep_case (Samples.always page)
         (Some (py "abc")) Samples.empty_frame)
  = inl (false,
         py "Network or API communication error: " ++ exn_str e
           ++ py ". Check internet, API key, or try again later.")
  /\ fst (Temp.make_api_request Samples.accept_netloc (Samples.always page)
            (Some (py "https://example.org/")) None None
            Samples.empty_frame)
     = inl (false, Temp.network_error_text e (py "https://example.org/")).
Proof.
  intros e page.
  apply (request_exception_handler_comes_first Samples.keep_case
           Samples.accept_netloc (Samples.always page)
           (py "abc") (py "https://example.org/") None None
           (py "https://example.org/") Samples.empty_frame
           page page e e);
    try discriminate; try reflexivity;
    left; vm_compute; reflexivity.
Defined.

(** X21: for a response that passes [raise_for_status] with a status
    other than 200 and a message that is not empty and does not hold
    "invalid api key", the failure echoes the message, in lower case. *)
Theorem validator_echoes_message_in_lower_case :
  forall ul net key st r d m,
    key <> [] ->
    net (mkRequest (Main.test_url key) 5 false) = Returned r ->
    status_passes (status_code r) ->
    status_code r <> 200%Z ->
    json r = inl (Json.JDict d) ->
    Urllib.dict_get d (py "message") = Some (Json.JStr m) ->
    lower ul m <> [] ->
    py_in (py "invalid api key") (lower ul m) = false ->
    fst (Main.validate_api_key ul net (Some key) st)
    = inl (false,
           py "API Key validation failed with unexpected response: "
             ++ lower ul m).
Proof.
  intros ul net key st r d m Hk Hn Hs H200 Hj Hd Hne Hin.
  rewrite (validate_api_key_classified ul net key st r (Json.JDict d)
             (lower ul m)); try assumption.
  - unfold Main.classify. rewrite Hin.
    assert (H404 : (status_code r =? 404)%Z = false).
    { apply Z.eqb_neq. unfold status_passes in Hs. lia. }
    rewrite H404, andb_false_r.
    rewrite (proj2 (Z.eqb_neq _ _) H200).
    destruct (lower ul m); [congruence | reflexivity].
  - now apply message_of_str.
Qed.

Lemma validator_echoes_message_in_lower_case_witness :
  fst (Main.validate_api_key Samples.keep_case
         (Samples.always
            (mkResponse 202 (py "Accepted") [] []
               (inl (Json.JDict
                       [(py "message", Json.JStr (py "Try Later"))]))))
         (Some (py "abc")) Samples.empty_frame)
  = inl (false,
         py "API Key validation failed with unexpected response: "
           ++ lower Samples.keep_case (py "Try Later")).
Proof.
  apply (validator_echoes_message_in_lower_case Samples.keep_case
           (Samples.always
              (mkResponse 202 (py "Accepted") [] []
                 (inl (Json.JDict
                         [(py "message", Json.JStr (py "Try Later"))]))))
           (py "abc") Samples.empty_frame
           (mkResponse 202 (py "Accepted") [] []
              (inl (Json.JDict
                      [(py "message", Json.JStr (py "Try Later"))])))
           [(py "message", Json.JStr (py "Try Later"))] (py "Try Later"));
    try discriminate; try reflexivity.
  left; vm_compute; reflexivity.
Defined.

(** X22: from the start of the tester, with a URL and a key typed in and
    the button pressed, the one request goes to the URL the builder
    returns for the stripped URL, the stripped key and the preset name
    "appid". *)
Theorem window_sends_key_under_preset_name :
  forall chk net (u k final : str),
    strip u <> [] ->
    Temp.build_final_url chk (strip u) (Some (strip k)) (Some (py "appid"))
    = inl final ->
    snd (Temp.run chk
           [Temp.EditUrl u; Temp.EditKey k; Temp.ClickRequest net]
           (Temp.initial_gui, []))
    = [mkRequest final 10 false].
Proof.
  intros chk net u k final Hu Hf.
  unfold Temp.run. cbn [fold_left Temp.handle].
  set (w2 := (Temp.set_api_key_entry k
                (fst (Temp.set_api_url_entry u (fst (Temp.initial_gui, [])),
                      snd (Temp.initial_gui, @nil Request))),
              snd (Temp.set_api_url_entry u (fst (Temp.initial_gui, [])),
                   snd (Temp.initial_gui, @nil Request)))).
  destruct (perform_api_request_total chk net (fst w2) (snd w2))
    as (b & s & fr & Hv & Hp).
  replace (Temp.perform_api_request chk net w2)
    with (Temp.perform_api_request chk net (fst w2, snd w2))
    by (destruct w2; reflexivity).
  rewrite Hp. cbn [snd].
  assert (Hv' : Temp.make_api_request chk net
                  (Some (strip u)) (Some (strip k)) (Some (py "appid"))
                  (mkFrame [] None) = (inl (b, s), fr)) by exact Hv.
  replace (net_log fr)
    with (net_log (snd (Temp.make_api_request chk net
                          (Some (strip u)) (Some (strip k))
                          (Some (py "appid")) (mkFrame [] None))))
    by now rewrite Hv'.
  now rewrite (make_api_request_log chk net (strip u) (Some (strip k))
                 (Some (py "appid")) final).
Qed.

Lemma window_sends_key_under_preset_name_witness :
  snd (Temp.run Samples.accept_netloc
         [Temp.EditUrl (py " https://example.org/a?x=1 ");
          Temp.EditKey (py " K Y ");
          Temp.ClickRequest (Samples.always Samples.ok_empty_object)]
         (Temp.initial_gui, []))
  = [mkRequest (py "https://example.org/a?x=1&appid=K+Y") 10 false].
Proof.
  apply (window_sends_key_under_preset_name Samples.accept_netloc
           (Samples.always Samples.ok_empty_object)
           (py " https://example.org/a?x=1 ") (py " K Y ")
           (py "https://example.org/a?x=1&appid=K+Y")).
  - vm_compute. discriminate.
  - vm_compute. reflexivity.
Defined.

End MoreAnswers.
